(** * Moderation service for movie submissions (main.py)

    A shallow embedding of the three FastAPI handlers of [main.py]
    ([submit_movie], [get_movies], [approve_movie]) together with the
    parts of their environment they call into: the S3 client, [uuid.uuid4]
    and the [json] module.  Handlers are functions in a state-and-exception
    monad over a [World] holding the object store, the random source and a
    schedule of storage failures. *)

From Stdlib Require Import ZArith NArith Lia List Ascii String.
From Stdlib Require Import Decimal DecimalN DecimalZ DecimalPos.
From stdpp Require Import gmap list sorting strings.

Local Open Scope N_scope.

(** ** Python strings and bytes

    A Python [str] is a sequence of Unicode code points and a [bytes]
    object a sequence of octets; both are lists of [N]. *)

Abbreviation pystr := (list N).
Abbreviation pybytes := (list N).

(** A literal of the source, character by character. *)
Definition py (s : string) : pystr :=
  (fun a => N_of_ascii a) <$> list_ascii_of_string s.

Definition ord (a : ascii) : N := N_of_ascii a.

(** ['%0wx' % n] for [0 <= n < 16^w]: the [w] low nibbles, most
    significant first, in lower case. *)
Definition hexdigit (d : N) : N :=
  if d <? 10 then 48 + d else 87 + d.

Fixpoint format_hex (w : nat) (n : N) : pystr :=
  match w with
  | O => []
  | S w' => format_hex w' (N.shiftr n 4) ++ [hexdigit (N.land n 15)]
  end.

(** ** uuid.uuid4 and str(UUID)

    [uuid4()] is [UUID(bytes=os.urandom(16), version=4)]: the 16 random
    bytes are read as a big-endian integer, the variant bits are forced to
    [10] and the version nibble to [4]. *)
Module uuid.

Definition from_bytes16 (r : N) : N := N.land r (N.ones 128).

Definition UUID_v4 (r : N) : N :=
  let int := from_bytes16 r in
  let int := N.ldiff int (N.shiftl 0xc000 48) in
  let int := N.lor int (N.shiftl 0x8000 48) in
  let int := N.ldiff int (N.shiftl 0xf000 64) in
  N.lor int (N.shiftl 4 76).

(** [UUID.__str__]: ['%s-%s-%s-%s-%s' % (hex[:8], hex[8:12], hex[12:16],
    hex[16:20], hex[20:])] with [hex = '%032x' % self.int]. *)
Definition str (int : N) : pystr :=
  let hex := format_hex 32 int in
  take 8 hex ++ py "-" ++ take 4 (drop 8 hex) ++ py "-" ++
  take 4 (drop 12 hex) ++ py "-" ++ take 4 (drop 16 hex) ++ py "-" ++
  drop 20 hex.

End uuid.

(** ** str.encode('utf-8') and bytes.decode('utf-8')

    Both are strict: encoding raises on surrogate code points, decoding
    raises on malformed, overlong or surrogate sequences ([None] here). *)
Module utf8.

Definition cont (b : N) : bool := (0x80 <=? b) && (b <=? 0xBF).

Definition encode_char (c : N) : option pybytes :=
  if c <? 0x80 then Some [c]
  else if c <? 0x800 then
    Some [N.lor 0xC0 (N.shiftr c 6); N.lor 0x80 (N.land c 0x3F)]
  else if (0xD800 <=? c) && (c <=? 0xDFFF) then None
  else if c <? 0x10000 then
    Some [N.lor 0xE0 (N.shiftr c 12);
          N.lor 0x80 (N.land (N.shiftr c 6) 0x3F);
          N.lor 0x80 (N.land c 0x3F)]
  else if c <? 0x110000 then
    Some [N.lor 0xF0 (N.shiftr c 18);
          N.lor 0x80 (N.land (N.shiftr c 12) 0x3F);
          N.lor 0x80 (N.land (N.shiftr c 6) 0x3F);
          N.lor 0x80 (N.land c 0x3F)]
  else None.

Fixpoint encode (s : pystr) : option pybytes :=
  match s with
  | [] => Some []
  | c :: s' =>
      match encode_char c, encode s' with
      | Some b, Some bs => Some (b ++ bs)
      | _, _ => None
      end
  end.

Definition low6 (b : N) : N := N.land b 0x3F.

Fixpoint decode (b : pybytes) : option pystr :=
  match b with
  | [] => Some []
  | b0 :: r0 =>
      if b0 <? 0x80 then cons b0 <$> decode r0
      else if (0xC2 <=? b0) && (b0 <=? 0xDF) then
        match r0 with
        | b1 :: r1 =>
            if cont b1
            then cons (N.lor (N.shiftl (N.land b0 0x1F) 6) (low6 b1)) <$> decode r1
            else None
        | _ => None
        end
      else if (0xE0 <=? b0) && (b0 <=? 0xEF) then
        match r0 with
        | b1 :: b2 :: r2 =>
            if cont b1 && cont b2
               && negb ((b0 =? 0xE0) && (b1 <? 0xA0))
               && negb ((b0 =? 0xED) && (0x9F <? b1))
            then cons (N.lor (N.shiftl (N.land b0 0x0F) 12)
                         (N.lor (N.shiftl (low6 b1) 6) (low6 b2))) <$> decode r2
            else None
        | _ => None
        end
      else if (0xF0 <=? b0) && (b0 <=? 0xF4) then
        match r0 with
        | b1 :: b2 :: b3 :: r3 =>
            if cont b1 && cont b2 && cont b3
               && negb ((b0 =? 0xF0) && (b1 <? 0x90))
               && negb ((b0 =? 0xF4) && (0x8F <? b1))
            then cons (N.lor (N.shiftl (N.land b0 0x07) 18)
                         (N.lor (N.shiftl (low6 b1) 12)
                            (N.lor (N.shiftl (low6 b2) 6) (low6 b3)))) <$> decode r3
            else None
        | _ => None
        end
      else None
  end.

End utf8.

Set Warnings "-register-all".

(** ** The json module

    Values as [json.loads] builds them.  A Python [dict] keeps insertion
    order, so objects are association lists; a float is kept as the text of
    its literal. *)
Inductive json : Type :=
  | JNull
  | JBool (b : bool)
  | JInt (z : Z)
  | JFloat (lit : pystr)
  | JStr (s : pystr)
  | JList (l : list json)
  | JObj (d : list (pystr * json)).

Module json_mod.

(** *** json.dumps (default arguments: [ensure_ascii=True], separators
    [', '] and [': ']) *)

(** The replacement [py_encode_basestring_ascii] makes for one character
    matched by [ESCAPE_ASCII]: a backslash, a double quote, or anything
    outside the printable ASCII range from space to tilde. *)
Definition escape_char (c : N) : pystr :=
  if c =? 92 then py "\\"
  else if c =? 34 then [92; 34]
  else if c =? 8 then py "\b"
  else if c =? 12 then py "\f"
  else if c =? 10 then py "\n"
  else if c =? 13 then py "\r"
  else if c =? 9 then py "\t"
  else if (32 <=? c) && (c <=? 126) then [c]
  else if c <? 0x10000 then py "\u" ++ format_hex 4 c
  else
    let n := c - 0x10000 in
    let s1 := N.lor 0xd800 (N.land (N.shiftr n 10) 0x3ff) in
    let s2 := N.lor 0xdc00 (N.land n 0x3ff) in
    py "\u" ++ format_hex 4 s1 ++ py "\u" ++ format_hex 4 s2.

Definition escape (s : pystr) : pystr := concat (escape_char <$> s).

Definition encode_basestring_ascii (s : pystr) : pystr :=
  [34] ++ escape s ++ [34].

(** [int.__repr__]: decimal digits, with a sign for negative numbers. *)
Fixpoint uint_chars (u : Decimal.uint) : pystr :=
  match u with
  | Nil => []
  | D0 u => 48 :: uint_chars u
  | D1 u => 49 :: uint_chars u
  | D2 u => 50 :: uint_chars u
  | D3 u => 51 :: uint_chars u
  | D4 u => 52 :: uint_chars u
  | D5 u => 53 :: uint_chars u
  | D6 u => 54 :: uint_chars u
  | D7 u => 55 :: uint_chars u
  | D8 u => 56 :: uint_chars u
  | D9 u => 57 :: uint_chars u
  end.

Definition int_repr (z : Z) : pystr :=
  match z with
  | Z0 => uint_chars (N.to_uint 0)
  | Zpos p => uint_chars (Pos.to_uint p)
  | Zneg p => 45 :: uint_chars (Pos.to_uint p)
  end.

(** [', '.join] *)
Fixpoint join_comma (parts : list pystr) : pystr :=
  match parts with
  | [] => []
  | [p] => p
  | p :: ps => p ++ py ", " ++ join_comma ps
  end.

Fixpoint dumps (v : json) : pystr :=
  match v with
  | JNull => py "null"
  | JBool true => py "true"
  | JBool false => py "false"
  | JInt z => int_repr z
  | JFloat lit => lit
  | JStr s => encode_basestring_ascii s
  | JList l => py "[" ++ join_comma (map dumps l) ++ py "]"
  | JObj d =>
      py "{" ++
      join_comma (map (fun kv => encode_basestring_ascii (fst kv) ++ py ": " ++ dumps (snd kv)) d) ++
      py "}"
  end.

(** *** json.loads

    The scanner of [json.decoder] and [json.scanner], working on the
    remaining input.  [None] stands for [JSONDecodeError].  Recursion is
    bounded by a fuel that [loads] sets from the length of the text. *)

Definition is_ws (c : N) : bool :=
  (c =? 32) || (c =? 9) || (c =? 10) || (c =? 13).

Fixpoint skip_ws (s : pystr) : pystr :=
  match s with
  | c :: s' => if is_ws c then skip_ws s' else s
  | [] => []
  end.

Definition is_digit (c : N) : bool := (48 <=? c) && (c <=? 57).

Definition hexval (c : N) : option N :=
  if is_digit c then Some (c - 48)
  else if (97 <=? c) && (c <=? 102) then Some (c - 87)
  else if (65 <=? c) && (c <=? 70) then Some (c - 55)
  else None.

Definition decode_uXXXX (s : pystr) : option (N * pystr) :=
  match s with
  | h1 :: h2 :: h3 :: h4 :: rest =>
      match hexval h1, hexval h2, hexval h3, hexval h4 with
      | Some a, Some b, Some c, Some d =>
          Some (4096 * a + 256 * b + 16 * c + d, rest)
      | _, _, _, _ => None
      end
  | _ => None
  end.

(** The [BACKSLASH] table. *)
Definition backslash (esc : N) : option N :=
  if esc =? 34 then Some 34
  else if esc =? 92 then Some 92
  else if esc =? 47 then Some 47
  else if esc =? 98 then Some 8
  else if esc =? 102 then Some 12
  else if esc =? 110 then Some 10
  else if esc =? 114 then Some 13
  else if esc =? 116 then Some 9
  else None.

Definition is_high_surrogate (u : N) : bool := (0xd800 <=? u) && (u <=? 0xdbff).
Definition is_low_surrogate (u : N) : bool := (0xdc00 <=? u) && (u <=? 0xdfff).

Definition join_surrogates (u u2 : N) : N :=
  0x10000 + N.lor (N.shiftl (u - 0xd800) 10) (u2 - 0xdc00).

(** [scanstring] in strict mode, started just after the opening quote:
    the decoded text and the input after the closing quote. *)
Fixpoint scanstring (fuel : nat) (s : pystr) : option (pystr * pystr) :=
  match fuel with
  | O => None
  | S fuel =>
      match s with
      | [] => None
      | c :: rest =>
          if c =? 34 then Some ([], rest)
          else if c =? 92 then
            match rest with
            | [] => None
            | esc :: rest1 =>
                if esc =? 117 then
                  match decode_uXXXX rest1 with
                  | None => None
                  | Some (uni, rest2) =>
                      let single :=
                        '(t, r) ← scanstring fuel rest2; Some (uni :: t, r) in
                      if is_high_surrogate uni then
                        match rest2 with
                        | b :: u :: rest3 =>
                            if (b =? 92) && (u =? 117) then
                              match decode_uXXXX rest3 with
                              | None => None
                              | Some (uni2, rest4) =>
                                  if is_low_surrogate uni2 then
                                    '(t, r) ← scanstring fuel rest4;
                                    Some (join_surrogates uni uni2 :: t, r)
                                  else single
                              end
                            else single
                        | _ => single
                        end
                      else single
                  end
                else
                  match backslash esc with
                  | None => None
                  | Some ch => '(t, r) ← scanstring fuel rest1; Some (ch :: t, r)
                  end
            end
          else if c <? 32 then None
          else '(t, r) ← scanstring fuel rest; Some (c :: t, r)
      end
  end.

Fixpoint strip_prefix (p s : pystr) : option pystr :=
  match p, s with
  | [], _ => Some s
  | a :: p', b :: s' => if a =? b then strip_prefix p' s' else None
  | _ :: _, [] => None
  end.

Fixpoint span_digits (s : pystr) : pystr * pystr :=
  match s with
  | c :: s' =>
      if is_digit c then let '(ds, r) := span_digits s' in (c :: ds, r)
      else ([], s)
  | [] => ([], [])
  end.

(** The groups of [NUMBER_RE]: an optional minus sign followed by a lone
    zero or a digit run that does not start with zero; an optional
    fraction; an optional exponent. *)
Definition match_integer (s : pystr) : option (pystr * pystr) :=
  let '(sign, s1) :=
    match s with
    | c :: t => if c =? 45 then ([45], t) else ([], s)
    | [] => ([], [])
    end in
  match s1 with
  | c :: t =>
      if c =? 48 then Some (sign ++ [48], t)
      else if is_digit c then
        let '(ds, r) := span_digits s1 in Some (sign ++ ds, r)
      else None
  | [] => None
  end.

Definition match_frac (s : pystr) : pystr * pystr :=
  match s with
  | c :: t =>
      if c =? 46 then
        match span_digits t with
        | ([], _) => ([], s)
        | (ds, r) => (46 :: ds, r)
        end
      else ([], s)
  | [] => ([], [])
  end.

Definition match_exp (s : pystr) : pystr * pystr :=
  match s with
  | e :: t =>
      if (e =? 101) || (e =? 69) then
        let '(sg, t1) :=
          match t with
          | c :: t' => if (c =? 45) || (c =? 43) then ([c], t') else ([], t)
          | [] => ([], [])
          end in
        match span_digits t1 with
        | ([], _) => ([], s)
        | (ds, r) => (e :: sg ++ ds, r)
        end
      else ([], s)
  | [] => ([], [])
  end.

(** [int(text)] for a text made of an optional minus sign and digits. *)
Definition digit_cons (c : N) (u : Decimal.uint) : Decimal.uint :=
  if c =? 48 then D0 u else if c =? 49 then D1 u
  else if c =? 50 then D2 u else if c =? 51 then D3 u
  else if c =? 52 then D4 u else if c =? 53 then D5 u
  else if c =? 54 then D6 u else if c =? 55 then D7 u
  else if c =? 56 then D8 u else D9 u.

Definition chars_uint (s : pystr) : Decimal.uint := foldr digit_cons Nil s.

Definition int_of_text (t : pystr) : Z :=
  match t with
  | c :: ds =>
      if c =? 45 then Z.opp (Z.of_N (N.of_uint (chars_uint ds)))
      else Z.of_N (N.of_uint (chars_uint t))
  | [] => 0%Z
  end.

Definition match_number (s : pystr) : option (json * pystr) :=
  match match_integer s with
  | None => None
  | Some (integer, r) =>
      let '(frac, r1) := match_frac r in
      let '(exp, r2) := match_exp r1 in
      match frac, exp with
      | [], [] => Some (JInt (int_of_text integer), r2)
      | _, _ => Some (JFloat (integer ++ frac ++ exp), r2)
      end
  end.

Definition literal (p : string) (v : json) (s : pystr) : option (json * pystr) :=
  (fun r => (v, r)) <$> strip_prefix (py p) s.

Fixpoint first_some {A B} (fs : list (A -> option B)) (a : A) : option B :=
  match fs with
  | [] => None
  | f :: fs' => match f a with Some b => Some b | None => first_some fs' a end
  end.

(** [d[k] = v] on an insertion-ordered dict, and [dict(pairs)]. *)
Fixpoint str_eqb (a b : pystr) : bool :=
  match a, b with
  | [], [] => true
  | x :: a', y :: b' => (x =? y) && str_eqb a' b'
  | _, _ => false
  end.

Fixpoint dict_setitem (d : list (pystr * json)) (k : pystr) (v : json)
  : list (pystr * json) :=
  match d with
  | [] => [(k, v)]
  | (k', v') :: d' =>
      if str_eqb k k' then (k', v) :: d' else (k', v') :: dict_setitem d' k v
  end.

Definition dict_of_pairs (ps : list (pystr * json)) : list (pystr * json) :=
  fold_left (fun d kv => dict_setitem d (fst kv) (snd kv)) ps [].

(** [_scan_once], [JSONObject] past the first key's opening quote, and
    [JSONArray] past the opening bracket and leading white space. *)
Fixpoint scan_once (fuel : nat) (s : pystr) : option (json * pystr) :=
  match fuel with
  | O => None
  | S fuel =>
      match s with
      | [] => None
      | c :: t =>
          if c =? 34 then
            '(str, r) ← scanstring (length t) t; Some (JStr str, r)
          else if c =? 123 then
            match skip_ws t with
            | c1 :: t1 =>
                if c1 =? 125 then Some (JObj [], t1)
                else if c1 =? 34 then object_members fuel t1 []
                else None
            | [] => None
            end
          else if c =? 91 then
            match skip_ws t with
            | c1 :: t1 =>
                if c1 =? 93 then Some (JList [], t1)
                else array_items fuel (c1 :: t1) []
            | [] => None
            end
          else
            first_some
              [literal "null" JNull; literal "true" (JBool true);
               literal "false" (JBool false); match_number;
               literal "NaN" (JFloat (py "NaN"));
               literal "Infinity" (JFloat (py "Infinity"));
               literal "-Infinity" (JFloat (py "-Infinity"))] s
      end
  end
with object_members (fuel : nat) (s : pystr) (pairs : list (pystr * json))
  : option (json * pystr) :=
  match fuel with
  | O => None
  | S fuel =>
      '(key, r) ← scanstring (length s) s;
      match skip_ws r with
      | colon :: r1 =>
          if colon =? 58 then
            '(value, r2) ← scan_once fuel (skip_ws r1);
            let pairs := pairs ++ [(key, value)] in
            match skip_ws r2 with
            | c :: r3 =>
                if c =? 125 then Some (JObj (dict_of_pairs pairs), r3)
                else if c =? 44 then
                  match skip_ws r3 with
                  | q :: r4 =>
                      if q =? 34 then object_members fuel r4 pairs else None
                  | [] => None
                  end
                else None
            | [] => None
            end
          else None
      | [] => None
      end
  end
with array_items (fuel : nat) (s : pystr) (values : list json)
  : option (json * pystr) :=
  match fuel with
  | O => None
  | S fuel =>
      '(value, r) ← scan_once fuel s;
      let values := values ++ [value] in
      match skip_ws r with
      | c :: r1 =>
          if c =? 93 then Some (JList values, r1)
          else if c =? 44 then array_items fuel (skip_ws r1) values
          else None
      | [] => None
      end
  end.

(** [json.loads(s)] for a [str]: a leading byte-order mark is refused,
    white space is allowed around the one value, nothing may follow. *)
Definition loads (s : pystr) : option json :=
  match s with
  | 0xfeff :: _ => None
  | _ =>
      '(v, r) ← scan_once (S (length s)) (skip_ws s);
      match skip_ws r with
      | [] => Some v
      | _ :: _ => None
      end
  end.

End json_mod.

(** ** Exceptions, the world and the handler monad *)

(** The exceptions that can reach a handler; all are subclasses of
    [Exception]. *)
Inductive exn : Type :=
  | ClientError (code : pystr)
  | BotoCoreError (msg : pystr)
  | UnicodeError
  | JSONDecodeError
  | HTTPException (status_code : Z) (detail : pystr).

Inductive result (A : Type) : Type :=
  | Returned (a : A)
  | Raised (e : exn).
Arguments Returned {A} a.
Arguments Raised {A} e.

(** Everything outside the process: the buckets of the object store, the
    system random source with the number of 16-byte draws made so far, and
    the storage failures still to come (one entry per storage call, [Some e]
    making that call raise [e] without effect). *)
Record World : Type := mkWorld {
  store : gmap (list N) (gmap (list N) (list N));
  urandom : nat -> N;
  drawn : nat;
  faults : list (option exn)
}.

Definition set_store (st : gmap (list N) (gmap (list N) (list N))) (w : World) : World :=
  mkWorld st (urandom w) (drawn w) (faults w).
Definition set_drawn (n : nat) (w : World) : World :=
  mkWorld (store w) (urandom w) n (faults w).
Definition set_faults (fs : list (option exn)) (w : World) : World :=
  mkWorld (store w) (urandom w) (drawn w) fs.

(** The failure scheduled for the [i]-th storage call from now, and a
    world whose next [n] storage calls go through. *)
Definition scheduled (i : nat) (w : World) : option exn :=
  default None (faults w !! i).

Definition calm (n : nat) (w : World) : Prop :=
  forall i, (i < n)%nat -> scheduled i w = None.

Definition M (A : Type) : Type := World -> result A * World.

Definition ret {A} (a : A) : M A := fun w => (Returned a, w).
Definition raise {A} (e : exn) : M A := fun w => (Raised e, w).
Definition bind {A B} (m : M A) (k : A -> M B) : M B :=
  fun w =>
    match m w with
    | (Returned a, w') => k a w'
    | (Raised e, w') => (Raised e, w')
    end.

#[global] Instance M_ret : MRet M := @ret.
#[global] Instance M_bind : MBind M := fun A B k m => bind m k.

(** [try: body except Exception as e: handler e] *)
Definition try_except {A} (body : M A) (handler : exn -> M A) : M A :=
  fun w =>
    match body w with
    | (Returned a, w') => (Returned a, w')
    | (Raised e, w') => handler e w'
    end.

(** [for x in xs: acc = body x acc] *)
Fixpoint for_in {A S} (xs : list A) (body : A -> S -> M S) (acc : S) : M S :=
  match xs with
  | [] => mret acc
  | x :: xs' => acc' ← body x acc; for_in xs' body acc'
  end.

(** [opt] or raise [e]. *)
Definition or_raise {A} (e : exn) (opt : option A) : M A :=
  match opt with
  | Some a => mret a
  | None => raise e
  end.

(** [uuid.uuid4()]: one draw from the random source. *)
Definition uuid4 : M N :=
  fun w => (Returned (uuid.UUID_v4 (urandom w (drawn w))), set_drawn (S (drawn w)) w).

(** ** The S3 client

    The four calls the handlers make, as the S3 API documents them:
    [get_object] raises [ClientError] with code [NoSuchKey] on a missing
    key; [put_object] overwrites, encoding a [str] body as UTF-8;
    [delete_object] succeeds whether or not the key exists;
    [list_objects_v2] called with a bucket alone returns at most 1000 keys,
    in ascending order of their UTF-8 bytes, omits [Contents] when there is
    none and sets [IsTruncated] when keys remain. *)
Module S3.

Inductive body : Type :=
  | BodyStr (s : pystr)
  | BodyBytes (b : pybytes).

Record GetObjectOutput : Type := { Body : pybytes }.
Record ObjectSummary : Type := { Key : pystr }.
Record ListObjectsV2Output : Type := {
  Contents : option (list ObjectSummary);
  IsTruncated : bool
}.

Definition MaxKeys : nat := 1000.

Definition objects (w : World) (Bucket : pystr) : gmap (list N) (list N) :=
  default ∅ (store w !! Bucket).

Definition write (Bucket : pystr) (objs : gmap (list N) (list N)) (w : World) : World :=
  set_store (<[Bucket := objs]> (store w)) w.

(** One request: the next scheduled failure, if any, is raised before
    the store is touched. *)
Definition next (w : World) : World := set_faults (tail (faults w)) w.

Definition call {A} (op : M A) : M A :=
  fun w =>
    match head (faults w) with
    | Some (Some e) => (Raised e, next w)
    | _ => op (next w)
    end.

Definition get_object (Bucket Key : pystr) : M GetObjectOutput :=
  call (fun w =>
    match objects w Bucket !! Key with
    | Some b => (Returned {| Body := b |}, w)
    | None => (Raised (ClientError (py "NoSuchKey")), w)
    end).

Definition put_object (Bucket Key : pystr) (Body : body) : M unit :=
  match Body with
  | BodyBytes b =>
      call (fun w => (Returned tt, write Bucket (<[Key := b]> (objects w Bucket)) w))
  | BodyStr s =>
      b ← or_raise UnicodeError (utf8.encode s);
      call (fun w => (Returned tt, write Bucket (<[Key := b]> (objects w Bucket)) w))
  end.

Definition delete_object (Bucket Key : pystr) : M unit :=
  call (fun w => (Returned tt, write Bucket (delete Key (objects w Bucket)) w)).

(** Keys compare as their UTF-8 encodings do, which for code-point
    sequences is the lexicographic order on code points. *)
Fixpoint key_leb (a b : pystr) : bool :=
  match a, b with
  | [], _ => true
  | _ :: _, [] => false
  | x :: a', y :: b' => (x <? y) || ((x =? y) && key_leb a' b')
  end.

Definition key_le (a b : pystr) : Prop := key_leb a b = true.

#[global] Instance key_le_dec a b : Decision (key_le a b).
Proof. unfold key_le. apply _. Defined.

Definition sorted_keys (objs : gmap (list N) (list N)) : list pystr :=
  merge_sort key_le (fst <$> map_to_list objs).

Definition list_objects_v2 (Bucket : pystr) : M ListObjectsV2Output :=
  call (fun w =>
    let keys := sorted_keys (objects w Bucket) in
    let page := take MaxKeys keys in
    (Returned {| Contents := match page with
                             | [] => None
                             | _ :: _ => Some ((fun k => {| Key := k |}) <$> page)
                             end;
                 IsTruncated := bool_decide (MaxKeys < length keys)%nat |}, w)).

End S3.

(** ** main.py *)

Definition PENDING_BUCKET : pystr := py "movies-stage".
Definition FINAL_BUCKET : pystr := py "movies-final".

(** [class Movie(BaseModel)] and [movie.dict()]. *)
Record Movie : Type := {
  title : pystr;
  year : Z;
  genre : pystr
}.

Definition Movie_dict (movie : Movie) : json :=
  JObj [(py "title", JStr (title movie)); (py "year", JInt (year movie));
        (py "genre", JStr (genre movie))].

(** [f'{movie_id}.json'] *)
Definition object_key (movie_id : pystr) : pystr := movie_id ++ py ".json".

Definition submit_movie (movie : Movie) : M json :=
  u ← uuid4;
  let movie_id := uuid.str u in
  let movie_data := Movie_dict movie in
  _ ← S3.put_object PENDING_BUCKET (object_key movie_id)
        (S3.BodyStr (json_mod.dumps movie_data));
  mret (JObj [(py "message", JStr (py "Movie submitted for approval."));
              (py "movie_id", JStr movie_id)]).

Definition get_movies : M (list json) :=
  response ← S3.list_objects_v2 FINAL_BUCKET;
  match S3.Contents response with
  | Some contents =>
      for_in contents
        (fun obj movies =>
           movie_data ← S3.get_object FINAL_BUCKET (S3.Key obj);
           text ← or_raise UnicodeError (utf8.decode (S3.Body movie_data));
           movie ← or_raise JSONDecodeError (json_mod.loads text);
           mret (movies ++ [movie]))
        []
  | None => mret []
  end.

Definition approve_movie (movie_id : pystr) : M json :=
  try_except
    (movie_data ← S3.get_object PENDING_BUCKET (object_key movie_id);
     _ ← S3.put_object FINAL_BUCKET (object_key movie_id)
           (S3.BodyBytes (S3.Body movie_data));
     _ ← S3.delete_object PENDING_BUCKET (object_key movie_id);
     mret (JObj [(py "message", JStr (py "Movie approved and moved to final bucket."))]))
    (fun e => raise (HTTPException 400 (py "Movie not found or already approved."))).

(** ** Sequential executions

    The service handles one request after the other, starting from empty
    buckets. *)
Inductive request : Type :=
  | Submit (movie : Movie)
  | ListFinal
  | Approve (movie_id : pystr).

Definition handle (r : request) : M json :=
  match r with
  | Submit movie => submit_movie movie
  | ListFinal => movies ← get_movies; mret (JList movies)
  | Approve movie_id => approve_movie movie_id
  end.

Fixpoint run (rs : list request) (w : World) : list (result json) * World :=
  match rs with
  | [] => ([], w)
  | r :: rs' =>
      let '(res, w1) := handle r w in
      let '(ress, w2) := run rs' w1 in
      (res :: ress, w2)
  end.

Definition initial (random : nat -> N) (fs : list (option exn)) : World :=
  mkWorld ∅ random 0 fs.

Definition pending (w : World) : gmap (list N) (list N) := S3.objects w PENDING_BUCKET.
Definition final (w : World) : gmap (list N) (list N) := S3.objects w FINAL_BUCKET.

Definition is_submit (r : request) : bool :=
  match r with Submit _ => true | _ => false end.

Definition submissions (rs : list request) : nat :=
  length (List.filter is_submit rs).

(** ** Vocabulary of the properties *)

(** The two responses of [approve_movie]. *)
Definition approved : json :=
  JObj [(py "message", JStr (py "Movie approved and moved to final bucket."))].

Definition not_found : exn :=
  HTTPException 400 (py "Movie not found or already approved.").

(** The response of [submit_movie] for a given identifier. *)
Definition submitted (movie_id : pystr) : json :=
  JObj [(py "message", JStr (py "Movie submitted for approval."));
        (py "movie_id", JStr movie_id)].

(** The identifier [submit_movie] derives from the [i]-th random draw. *)
Definition issued (w : World) (i : nat) : pystr :=
  uuid.str (uuid.UUID_v4 (urandom w i)).

(** The record of the specification's end-to-end scenario. *)
Definition dune : Movie :=
  {| title := py "Dune"; year := 1984; genre := py "SciFi" |}.

Definition dune_sequel : Movie :=
  {| title := py "Dune: Part Two"; year := 2024; genre := py "SciFi" |}.

Definition dune_id : pystr := py "00000000-0000-4007-8000-000000000000".

(** The world reached from empty buckets by submitting [dune], with the
    storage failures [fs] still to come. *)
Definition dune_random : nat -> N := fun _ => N.shiftl 7 64.

Definition dune_submitted (fs : list (option exn)) : World :=
  snd (submit_movie dune (initial dune_random (None :: fs))).

(** Texts made of ASCII characters only. *)
Definition is_ascii (s : pystr) : Prop := Forall (fun c => c < 128) s.

(** A random source whose draws are all different, and the world reached
    with it from empty buckets by submitting [dune] once. *)
Definition counting_random : nat -> N := N.of_nat.

Definition dune_submitted_once : World :=
  snd (submit_movie dune (initial counting_random [])).

(** The record a stored body deserializes to ([None] when decoding or
    parsing raises), the body of the loop of [get_movies], and the keys its
    single listing call returns. *)
Definition deserialize (b : pybytes) : option json :=
  utf8.decode b ≫= json_mod.loads.

Definition get_movies_body (obj : S3.ObjectSummary) (movies : list json) : M (list json) :=
  movie_data ← S3.get_object FINAL_BUCKET (S3.Key obj);
  text ← or_raise UnicodeError (utf8.decode (S3.Body movie_data));
  movie ← or_raise JSONDecodeError (json_mod.loads text);
  mret (movies ++ [movie]).

Definition first_page (w : World) : list pystr :=
  take S3.MaxKeys (S3.sorted_keys (final w)).

(** [movie] is what the object under key [k] of [objs] deserializes to. *)
Definition record_of (objs : gmap (list N) (list N)) (k : pystr) (movie : json) : Prop :=
  exists b, objs !! k = Some b /\ deserialize b = Some movie.

Definition is_approve (r : request) : bool :=
  match r with Approve _ => true | _ => false end.

(** [w'] is [w] after some storage calls that changed no object. *)
Definition only_calls (w w' : World) : Prop :=
  store w' = store w /\ urandom w' = urandom w /\ drawn w' = drawn w
  /\ exists n, faults w' = drop n (faults w).

(** No storage call will ever fail. *)
Definition calm_forever (w : World) : Prop := forall i, scheduled i w = None.

(** Each key is in at most one of the two buckets. *)
Definition at_most_one_bucket (w : World) : Prop :=
  forall k, pending w !! k = None \/ final w !! k = None.

(** Every stored key comes from an identifier issued by [submit_movie]. *)
Definition keys_issued (w : World) : Prop :=
  forall k, (is_Some (pending w !! k) \/ is_Some (final w !! k)) ->
            exists i, (i < drawn w)%nat /\ k = object_key (issued w i).

(** The random source gives [n] pairwise different UUIDs. *)
Definition distinct_draws (random : nat -> N) (n : nat) : Prop :=
  forall i j, (i < j)%nat -> (j < n)%nat ->
              uuid.UUID_v4 (random i) <> uuid.UUID_v4 (random j).

Definition tidy (w : World) : Prop :=
  calm_forever w /\ at_most_one_bucket w /\ keys_issued w.




(** The world after [dune] was submitted and approved. *)
Definition dune_approved : World :=
  snd (approve_movie dune_id (dune_submitted [])).

(** A final bucket into which something other than the service wrote an
    object that is not JSON. *)
Definition broken_final : World :=
  S3.write FINAL_BUCKET {[ py "x.json" := py "oops" ]} (initial dune_random []).

(** Every identifier issued so far still has its object in a bucket. *)
Definition all_present (w : World) : Prop :=
  forall i, (i < drawn w)%nat ->
            is_Some (pending w !! object_key (issued w i))
            \/ is_Some (final w !! object_key (issued w i)).

(** Unicode text: every code point is a scalar value (no surrogate code
    point, nothing above U+10FFFF), as UTF-8 decoding produces. *)
Definition is_scalar (c : N) : Prop :=
  c < 0xD800 \/ (0xE000 <= c /\ c < 0x110000).

Definition is_text (s : pystr) : Prop := Forall is_scalar s.

(** The records submitted by a sequence of requests, records whose title
    and genre are Unicode text, and worlds in which every object of the two
    buckets holds the serialization of one of the records [ms]. *)
Fixpoint submitted_movies (rs : list request) : list Movie :=
  match rs with
  | [] => []
  | Submit movie :: rs' => movie :: submitted_movies rs'
  | _ :: rs' => submitted_movies rs'
  end.

Definition text_movie (movie : Movie) : Prop :=
  is_text (title movie) /\ is_text (genre movie).

Definition bodies_from (ms : list Movie) (w : World) : Prop :=
  forall k b, pending w !! k = Some b \/ final w !! k = Some b ->
              exists movie, In movie ms /\ b = json_mod.dumps (Movie_dict movie).

(** The fields of a listed record. *)
Definition fields (j : json) : list pystr :=
  match j with
  | JObj d => map fst d
  | _ => []
  end.

(** A final bucket that already holds a full page: the 1000 keys [-000] to
    [-999], all of which sort before every UUID, with [dune] pending. *)
Definition early_keys : list pystr :=
  flat_map (fun a => flat_map (fun b => map (fun c => [45; 48 + a; 48 + b; 48 + c])
                                            [0; 1; 2; 3; 4; 5; 6; 7; 8; 9])
                              [0; 1; 2; 3; 4; 5; 6; 7; 8; 9])
           [0; 1; 2; 3; 4; 5; 6; 7; 8; 9].

Definition crowded : World :=
  S3.write FINAL_BUCKET
    (list_to_map (map (fun k => (k, json_mod.dumps (Movie_dict dune))) early_keys))
    (dune_submitted []).

(** The records [Film 0], [Film 1], ..., and the execution that submits
    the first [n] of them and approves each one right away. *)
Definition numbered (i : nat) : Movie :=
  {| title := py "Film"; year := Z.of_nat i; genre := py "Drama" |}.

Definition submit_and_approve (random : nat -> N) (n : nat) : list request :=
  flat_map (fun i => [Submit (numbered i); Approve (uuid.str (uuid.UUID_v4 (random i)))])
           (seq 0 n).

(** The world after the first [n] of these records were submitted and
    approved, starting from empty buckets, no storage call failing. *)
Definition packed (n : nat) : World :=
  snd (run (submit_and_approve counting_random n) (initial counting_random [])).

(** 1001 approved records, and 1000 approved records with one more
    submitted. *)
Definition full_house : World := packed 1001.

Definition nearly_full : World := snd (submit_movie (numbered 1000) (packed 1000)).

(** Every object on the first page of the listing deserializes. *)
Definition readable (w : World) : bool :=
  forallb (fun k => match final w !! k ≫= deserialize with Some _ => true | None => false end)
          (first_page w).

(** A Python [str]: a sequence of code points, surrogates included. *)
Definition is_str (s : pystr) : Prop := Forall (fun c => c < 0x110000) s.

Definition str_movie (movie : Movie) : Prop :=
  is_str (title movie) /\ is_str (genre movie).

(** What [json.loads] reads back from the text [json.dumps] writes for
    [s]: a high surrogate followed by a low one comes back as the one
    character the pair encodes, everything else as it is. *)
Fixpoint rejoin (s : pystr) : pystr :=
  match s with
  | [] => []
  | c :: s1 =>
      match s1 with
      | c2 :: s2 =>
          if json_mod.is_high_surrogate c && json_mod.is_low_surrogate c2
          then json_mod.join_surrogates c c2 :: rejoin s2
          else c :: rejoin s1
      | [] => [c]
      end
  end.

(** The input does not go on with the escape of a low surrogate. *)
Definition no_low_ahead (r : pystr) : Prop :=
  match r with
  | b :: u :: rest =>
      if (b =? 92) && (u =? 117) then
        match json_mod.decode_uXXXX rest with
        | Some (uni, _) => json_mod.is_low_surrogate uni = false
        | None => False
        end
      else True
  | _ => True
  end.

(** The record that the stored body of [movie] deserializes to. *)
Definition read_back (movie : Movie) : json :=
  JObj [(py "title", JStr (rejoin (title movie))); (py "year", JInt (year movie));
        (py "genre", JStr (rejoin (genre movie)))].

(** * Properties *)

(** ** Sanity checks of the library models *)

Example uuid_str_zero :
  uuid.str (uuid.UUID_v4 0) = py "00000000-0000-4000-8000-000000000000".
Proof. vm_compute. reflexivity. Qed.


Example uuid_str_ones :
  uuid.str (uuid.UUID_v4 (N.ones 128)) = py "ffffffff-ffff-4fff-bfff-ffffffffffff".
Proof. vm_compute. reflexivity. Qed.


Example utf8_roundtrip_sample :
  utf8.encode [0x44; 0xE9; 0x20AC; 0x1F600] = Some [0x44; 0xC3; 0xA9; 0xE2; 0x82; 0xAC; 0xF0; 0x9F; 0x98; 0x80]
  /\ utf8.decode [0x44; 0xC3; 0xA9; 0xE2; 0x82; 0xAC; 0xF0; 0x9F; 0x98; 0x80] = Some [0x44; 0xE9; 0x20AC; 0x1F600]
  /\ utf8.encode [0xD800] = None
  /\ utf8.decode [0xED; 0xA0; 0x80] = None
  /\ utf8.decode [0xC0; 0x80] = None.
Proof. vm_compute. repeat split. Qed.

Example dumps_dune :
  json_mod.dumps (JObj [(py "title", JStr (py "Dune")); (py "year", JInt 1984);
                        (py "genre", JStr (py "SciFi"))])
  = [123; 34] ++ py "title" ++ [34] ++ py ": " ++ [34] ++ py "Dune" ++ [34] ++ py ", " ++
    [34] ++ py "year" ++ [34] ++ py ": 1984, " ++ [34] ++ py "genre" ++ [34] ++ py ": " ++
    [34] ++ py "SciFi" ++ [34; 125].
Proof. vm_compute. reflexivity. Qed.

Example dumps_escapes :
  json_mod.dumps (JStr [0x41; 34; 92; 10; 0x7f; 0xe9; 0x1F600])
  = [34; 0x41; 92; 34; 92; 92] ++ py "\n\u007f\u00e9\ud83d\ude00" ++ [34].
Proof. vm_compute. reflexivity. Qed.

Example loads_samples :
  json_mod.loads (py " [1, -20, 0, 1.5e3, true, null, {}, [ ] ] ")
  = Some (JList [JInt 1; JInt (-20); JInt 0; JFloat (py "1.5e3"); JBool true; JNull;
                 JObj []; JList []])
  /\ json_mod.loads (py "01") = None
  /\ json_mod.loads (py "[1,]") = None
  /\ json_mod.loads ([123; 34; 97; 34] ++ py ": 1, " ++ [34; 98; 34] ++ py ":2," ++ [34; 97; 34] ++ py ":3}")
     = Some (JObj [(py "a", JInt 3); (py "b", JInt 2)])
  /\ json_mod.loads ([34] ++ py "\ud83d\ude00\ud83dx\n\u00E9" ++ [34])
     = Some (JStr [0x1F600; 0xd83d; 0x78; 10; 0xe9])
  /\ json_mod.loads [34; 10; 34] = None.
Proof. vm_compute. repeat split. Qed.

(** ** The end-to-end scenario of the specification *)

Example end_to_end :
  run [Submit dune; ListFinal; Approve dune_id; ListFinal; Approve dune_id]
      (initial (fun _ => N.shiftl 7 64) []) =
  ([Returned (JObj [(py "message", JStr (py "Movie submitted for approval."));
                    (py "movie_id", JStr dune_id)]);
    Returned (JList []);
    Returned (JObj [(py "message", JStr (py "Movie approved and moved to final bucket."))]);
    Returned (JList [Movie_dict dune]);
    Raised (HTTPException 400 (py "Movie not found or already approved."))],
   mkWorld {[ PENDING_BUCKET := ∅;
              FINAL_BUCKET := {[ object_key dune_id := json_mod.dumps (Movie_dict dune) ]} ]}
           (fun _ => N.shiftl 7 64) 1 []).
Proof. vm_compute. reflexivity. Qed.

(** ** The object store and the failure schedule *)

Lemma bucket_names_differ : PENDING_BUCKET <> FINAL_BUCKET.
Proof. intros H. vm_compute in H. discriminate H. Qed.

Lemma objects_next w b : S3.objects (S3.next w) b = S3.objects w b.
Proof. reflexivity. Qed.

Lemma objects_write_eq b o w : S3.objects (S3.write b o w) b = o.
Proof. unfold S3.objects, S3.write. simpl. by rewrite lookup_insert_eq. Qed.

Lemma objects_write_ne b b' o w :
  b <> b' -> S3.objects (S3.write b o w) b' = S3.objects w b'.
Proof.
  intros Hne. unfold S3.objects, S3.write. simpl. by rewrite lookup_insert_ne.
Qed.

Lemma scheduled_head w :
  scheduled 0 w = match head (faults w) with Some f => f | None => None end.
Proof. unfold scheduled. by destruct (faults w). Qed.

Lemma scheduled_next i w : scheduled i (S3.next w) = scheduled (S i) w.
Proof. unfold scheduled, S3.next. simpl. by destruct (faults w). Qed.

Lemma calm_next n w : calm (S n) w -> calm n (S3.next w).
Proof. intros H i Hi. rewrite scheduled_next. apply H. lia. Qed.

Lemma calm_head n w : calm (S n) w -> scheduled 0 w = None.
Proof. intros H. apply H. lia. Qed.

Lemma call_ok {A} (op : M A) w :
  scheduled 0 w = None -> S3.call op w = op (S3.next w).
Proof.
  rewrite scheduled_head. unfold S3.call.
  destruct (head (faults w)) as [[e|]|]; [discriminate | done | done].
Qed.

Lemma call_fault {A} (op : M A) e w :
  scheduled 0 w = Some e -> S3.call op w = (Raised e, S3.next w).
Proof.
  rewrite scheduled_head. unfold S3.call.
  destruct (head (faults w)) as [[e'|]|]; [|discriminate..].
  by intros [= ->].
Qed.

Lemma call_store_raised {A} (op : M A) w e w' :
  (forall v e0 v', op v = (Raised e0, v') -> store v' = store v) ->
  S3.call op w = (Raised e, w') -> store w' = store w.
Proof.
  intros Hop. unfold S3.call.
  destruct (head (faults w)) as [[e'|]|].
  - by intros [= _ <-].
  - intros H. by apply Hop in H.
  - intros H. by apply Hop in H.
Qed.


(** ** The handler monad *)

Lemma bind_returned {A B} (m : M A) (k : A -> M B) w a w' :
  m w = (Returned a, w') -> (m ≫= k) w = k a w'.
Proof. intros H. unfold mbind, M_bind, bind. by rewrite H. Qed.

Lemma bind_raised {A B} (m : M A) (k : A -> M B) w e w' :
  m w = (Raised e, w') -> (m ≫= k) w = (Raised e, w').
Proof. intros H. unfold mbind, M_bind, bind. by rewrite H. Qed.

Lemma try_except_returned {A} (body : M A) handler w a w' :
  body w = (Returned a, w') -> try_except body handler w = (Returned a, w').
Proof. intros H. unfold try_except. by rewrite H. Qed.

Lemma try_except_raised {A} (body : M A) handler w e w' :
  body w = (Raised e, w') -> try_except body handler w = handler e w'.
Proof. intros H. unfold try_except. by rewrite H. Qed.

(** ** The four storage calls *)

Lemma get_object_ok B K b w :
  scheduled 0 w = None -> S3.objects w B !! K = Some b ->
  S3.get_object B K w = (Returned {| S3.Body := b |}, S3.next w).
Proof.
  intros H0 Hk. unfold S3.get_object. rewrite call_ok by done.
  by rewrite objects_next, Hk.
Qed.

Lemma get_object_missing B K w :
  S3.objects w B !! K = None ->
  exists e, S3.get_object B K w = (Raised e, S3.next w).
Proof.
  intros Hk. unfold S3.get_object, S3.call.
  destruct (head (faults w)) as [[e|]|]; rewrite ?objects_next, ?Hk; by eexists.
Qed.

Lemma get_object_fault B K e w :
  scheduled 0 w = Some e -> S3.get_object B K w = (Raised e, S3.next w).
Proof. intros H. unfold S3.get_object. by rewrite (call_fault _ e). Qed.

Lemma put_object_bytes_ok B K b w :
  scheduled 0 w = None ->
  S3.put_object B K (S3.BodyBytes b) w
  = (Returned tt, S3.write B (<[K := b]> (S3.objects w B)) (S3.next w)).
Proof. intros H. unfold S3.put_object. by rewrite call_ok. Qed.

Lemma put_object_bytes_fault B K b e w :
  scheduled 0 w = Some e ->
  S3.put_object B K (S3.BodyBytes b) w = (Raised e, S3.next w).
Proof. intros H. unfold S3.put_object. by rewrite (call_fault _ e). Qed.

Lemma put_object_str_ok B K s b w :
  utf8.encode s = Some b -> scheduled 0 w = None ->
  S3.put_object B K (S3.BodyStr s) w
  = (Returned tt, S3.write B (<[K := b]> (S3.objects w B)) (S3.next w)).
Proof.
  intros He H. unfold S3.put_object. rewrite He. cbn.
  unfold mbind, M_bind, bind, mret, M_ret, ret. by rewrite call_ok.
Qed.

Lemma put_object_str_fault B K s b e w :
  utf8.encode s = Some b -> scheduled 0 w = Some e ->
  S3.put_object B K (S3.BodyStr s) w = (Raised e, S3.next w).
Proof.
  intros He H. unfold S3.put_object. rewrite He. cbn.
  unfold mbind, M_bind, bind, mret, M_ret, ret. by rewrite (call_fault _ e).
Qed.

Lemma delete_object_ok B K w :
  scheduled 0 w = None ->
  S3.delete_object B K w
  = (Returned tt, S3.write B (delete K (S3.objects w B)) (S3.next w)).
Proof. intros H. unfold S3.delete_object. by rewrite call_ok. Qed.

Lemma delete_object_fault B K e w :
  scheduled 0 w = Some e -> S3.delete_object B K w = (Raised e, S3.next w).
Proof. intros H. unfold S3.delete_object. by rewrite (call_fault _ e). Qed.

Lemma scheduled_write i B o w : scheduled i (S3.write B o w) = scheduled i w.
Proof. reflexivity. Qed.

Lemma final_write_final o w : final (S3.write FINAL_BUCKET o w) = o.
Proof. apply objects_write_eq. Qed.

Lemma pending_write_pending o w : pending (S3.write PENDING_BUCKET o w) = o.
Proof. apply objects_write_eq. Qed.

Lemma final_write_pending o w : final (S3.write PENDING_BUCKET o w) = final w.
Proof. apply objects_write_ne, bucket_names_differ. Qed.

Lemma pending_write_final o w : pending (S3.write FINAL_BUCKET o w) = pending w.
Proof. apply objects_write_ne. intros E. by apply bucket_names_differ. Qed.

Lemma final_next w : final (S3.next w) = final w.
Proof. reflexivity. Qed.

Lemma pending_next w : pending (S3.next w) = pending w.
Proof. reflexivity. Qed.

(** ** approve_movie, case by case *)

Lemma approve_fetch_fault movie_id e w :
  scheduled 0 w = Some e ->
  approve_movie movie_id w = (Raised not_found, S3.next w).
Proof.
  intros H. unfold approve_movie.
  erewrite try_except_raised; [reflexivity|].
  erewrite bind_raised; [reflexivity|]. by apply get_object_fault.
Qed.

Lemma approve_absent movie_id w :
  pending w !! object_key movie_id = None ->
  approve_movie movie_id w = (Raised not_found, S3.next w).
Proof.
  intros Hk. unfold approve_movie.
  destruct (get_object_missing PENDING_BUCKET (object_key movie_id) w Hk) as [e He].
  erewrite try_except_raised; [reflexivity|].
  erewrite bind_raised; [reflexivity|]. exact He.
Qed.

Lemma approve_copy_fault movie_id b e w :
  pending w !! object_key movie_id = Some b ->
  scheduled 0 w = None -> scheduled 1 w = Some e ->
  approve_movie movie_id w = (Raised not_found, S3.next (S3.next w)).
Proof.
  intros Hk H0 H1. unfold approve_movie.
  erewrite try_except_raised; [reflexivity|].
  erewrite bind_returned; [|by apply get_object_ok].
  erewrite bind_raised; [reflexivity|].
  apply put_object_bytes_fault. by rewrite scheduled_next.
Qed.

Lemma approve_delete_fault movie_id b e w :
  pending w !! object_key movie_id = Some b ->
  scheduled 0 w = None -> scheduled 1 w = None -> scheduled 2 w = Some e ->
  exists w',
    approve_movie movie_id w = (Raised not_found, w')
    /\ final w' = <[object_key movie_id := b]> (final w)
    /\ pending w' = pending w.
Proof.
  intros Hk H0 H1 H2. unfold approve_movie. eexists. split.
  - erewrite try_except_raised; [reflexivity|].
    erewrite bind_returned; [|by apply get_object_ok].
    erewrite bind_returned; [|apply put_object_bytes_ok; by rewrite scheduled_next].
    erewrite bind_raised; [reflexivity|].
    apply delete_object_fault.
    by rewrite scheduled_write, !scheduled_next.
  - by rewrite final_next, final_write_final, pending_next, pending_write_final.
Qed.

Lemma approve_success movie_id b w :
  pending w !! object_key movie_id = Some b ->
  calm 3 w ->
  exists w',
    approve_movie movie_id w = (Returned approved, w')
    /\ final w' = <[object_key movie_id := b]> (final w)
    /\ pending w' = delete (object_key movie_id) (pending w)
    /\ urandom w' = urandom w /\ drawn w' = drawn w
    /\ faults w' = drop 3 (faults w).
Proof.
  intros Hk Hc.
  assert (H0 : scheduled 0 w = None) by (apply Hc; lia).
  assert (H1 : scheduled 1 w = None) by (apply Hc; lia).
  assert (H2 : scheduled 2 w = None) by (apply Hc; lia).
  unfold approve_movie. eexists. split.
  - erewrite try_except_returned; [reflexivity|].
    erewrite bind_returned; [|by apply get_object_ok].
    erewrite bind_returned; [|apply put_object_bytes_ok; by rewrite scheduled_next].
    erewrite bind_returned; [reflexivity|].
    apply delete_object_ok. by rewrite scheduled_write, !scheduled_next.
  - rewrite final_write_pending, final_next, final_write_final.
    rewrite pending_write_pending.
    change (S3.objects _ PENDING_BUCKET) with
      (pending (S3.next (S3.write FINAL_BUCKET
         (<[object_key movie_id:=S3.Body {| S3.Body := b |}]> (S3.objects (S3.next (S3.next w)) FINAL_BUCKET))
         (S3.next (S3.next w))))).
    rewrite pending_next, pending_write_final.
    repeat split; try done.
    simpl. by destruct (faults w) as [|? [|? [|? ?]]].
Qed.

Lemma calm_nil n w : faults w = [] -> calm n w.
Proof. intros H i _. unfold scheduled. by rewrite H. Qed.

Lemma dune_submitted_pending fs :
  pending (dune_submitted fs) !! object_key dune_id
  = Some (json_mod.dumps (Movie_dict dune)).
Proof. vm_compute. reflexivity. Qed.

(** ** Claims about approve_movie *)

(** C1: when the object of [movie_id] is present in the pending bucket (and
    the three storage calls go through), [approve_movie] writes its raw
    content unchanged to the final bucket under the same key
    [{movie_id}.json], deletes the pending copy, and returns the message
    "Movie approved and moved to final bucket." *)
Theorem approve_moves_object movie_id content w :
  pending w !! object_key movie_id = Some content ->
  calm 3 w ->
  fst (approve_movie movie_id w)
  = Returned (JObj [(py "message", JStr (py "Movie approved and moved to final bucket."))])
  /\ final (snd (approve_movie movie_id w))
     = <[object_key movie_id := content]> (final w)
  /\ pending (snd (approve_movie movie_id w))
     = delete (object_key movie_id) (pending w)
  /\ final (snd (approve_movie movie_id w)) !! object_key movie_id = Some content
  /\ pending (snd (approve_movie movie_id w)) !! object_key movie_id = None.
Proof.
  intros Hk Hc.
  destruct (approve_success movie_id content w Hk Hc) as (w' & -> & Hf & Hp & _).
  cbn [fst snd]. rewrite Hf, Hp.
  repeat split; [apply lookup_insert_eq | apply lookup_delete_eq].
Qed.

Lemma approve_moves_object_witness :
  fst (approve_movie dune_id (dune_submitted []))
  = Returned (JObj [(py "message", JStr (py "Movie approved and moved to final bucket."))])
  /\ final (snd (approve_movie dune_id (dune_submitted [])))
     = <[object_key dune_id := json_mod.dumps (Movie_dict dune)]> (final (dune_submitted []))
  /\ pending (snd (approve_movie dune_id (dune_submitted [])))
     = delete (object_key dune_id) (pending (dune_submitted []))
  /\ final (snd (approve_movie dune_id (dune_submitted []))) !! object_key dune_id
     = Some (json_mod.dumps (Movie_dict dune))
  /\ pending (snd (approve_movie dune_id (dune_submitted []))) !! object_key dune_id = None.
Proof.
  apply (approve_moves_object dune_id (json_mod.dumps (Movie_dict dune)) (dune_submitted [])).
  - vm_compute. reflexivity.
  - intros i Hi. vm_compute. destruct i; reflexivity.
Defined.

(** C2: when no object exists at key [{movie_id}.json] in the pending
    bucket, [approve_movie] fails with an HTTP 400 error whose fixed detail
    "Movie not found or already approved." carries the words
    "not found or already approved". *)
Theorem approve_absent_is_400 movie_id w :
  pending w !! object_key movie_id = None ->
  fst (approve_movie movie_id w)
  = Raised (HTTPException 400 (py "Movie not found or already approved."))
  /\ py "Movie not found or already approved."
     = py "Movie " ++ py "not found or already approved" ++ py ".".
Proof.
  intros Hk. rewrite (approve_absent movie_id w Hk). split; reflexivity.
Qed.

Lemma approve_absent_is_400_witness :
  fst (approve_movie dune_id (initial dune_random []))
  = Raised (HTTPException 400 (py "Movie not found or already approved."))
  /\ py "Movie not found or already approved."
     = py "Movie " ++ py "not found or already approved" ++ py ".".
Proof.
  apply (approve_absent_is_400 dune_id (initial dune_random [])).
  vm_compute. reflexivity.
Defined.

(** C10: when [approve_movie] fails because no object exists at
    [{movie_id}.json] in the pending bucket, the object store is left as it
    was: both the pending and the final bucket are unchanged. *)
Theorem approve_absent_writes_nothing movie_id w :
  pending w !! object_key movie_id = None ->
  fst (approve_movie movie_id w) = Raised not_found
  /\ store (snd (approve_movie movie_id w)) = store w
  /\ pending (snd (approve_movie movie_id w)) = pending w
  /\ final (snd (approve_movie movie_id w)) = final w.
Proof.
  intros Hk. rewrite (approve_absent movie_id w Hk). cbn [fst snd].
  repeat split.
Qed.

Lemma approve_absent_writes_nothing_witness :
  fst (approve_movie (py "no-such-id") (dune_submitted [])) = Raised not_found
  /\ store (snd (approve_movie (py "no-such-id") (dune_submitted [])))
     = store (dune_submitted [])
  /\ pending (snd (approve_movie (py "no-such-id") (dune_submitted [])))
     = pending (dune_submitted [])
  /\ final (snd (approve_movie (py "no-such-id") (dune_submitted [])))
     = final (dune_submitted []).
Proof.
  apply (approve_absent_writes_nothing (py "no-such-id") (dune_submitted [])).
  vm_compute. reflexivity.
Defined.

Lemma call_returned_inv {A} (op : M A) w a w' :
  S3.call op w = (Returned a, w') -> op (S3.next w) = (Returned a, w').
Proof.
  unfold S3.call. destruct (head (faults w)) as [[e|]|]; [discriminate | done | done].
Qed.

Lemma put_object_bytes_returned B K b w w' :
  S3.put_object B K (S3.BodyBytes b) w = (Returned tt, w') ->
  w' = S3.write B (<[K := b]> (S3.objects w B)) (S3.next w).
Proof. intros H. apply call_returned_inv in H. by injection H as <-. Qed.

Lemma delete_object_raised B K e w w' :
  S3.delete_object B K w = (Raised e, w') -> w' = S3.next w.
Proof.
  unfold S3.delete_object, S3.call.
  destruct (head (faults w)) as [[e'|]|]; [by intros [= _ <-] | discriminate..].
Qed.

(** C9: [approve_movie] maps every exception raised in its body to the same
    HTTP 400 "Movie not found or already approved.": an exception of the
    fetch from pending, of the copy to final, or of the delete from pending.
    When the copy succeeds and the delete fails the caller receives the 400
    although the record is now in the final bucket. *)
Theorem approve_maps_exceptions_to_400 movie_id w :
  let key := object_key movie_id in
  (forall e, fst (approve_movie movie_id w) = Raised e ->
             e = HTTPException 400 (py "Movie not found or already approved."))
  /\ (forall e w1,
        S3.get_object PENDING_BUCKET key w = (Raised e, w1) ->
        approve_movie movie_id w = (Raised not_found, w1))
  /\ (forall data w1 e w2,
        S3.get_object PENDING_BUCKET key w = (Returned data, w1) ->
        S3.put_object FINAL_BUCKET key (S3.BodyBytes (S3.Body data)) w1 = (Raised e, w2) ->
        approve_movie movie_id w = (Raised not_found, w2))
  /\ (forall data w1 w2 e w3,
        S3.get_object PENDING_BUCKET key w = (Returned data, w1) ->
        S3.put_object FINAL_BUCKET key (S3.BodyBytes (S3.Body data)) w1 = (Returned tt, w2) ->
        S3.delete_object PENDING_BUCKET key w2 = (Raised e, w3) ->
        approve_movie movie_id w = (Raised not_found, w3)
        /\ final w3 !! key = Some (S3.Body data)).
Proof.
  intros key. repeat split.
  - intros e. unfold approve_movie, try_except.
    match goal with
    | |- context [let (_, _) := ?body in _] => destruct body as [[a|e'] w']
    end; cbn; [discriminate|]. by intros [= <-].
  - intros e w1 Hget. unfold approve_movie.
    erewrite try_except_raised; [reflexivity|].
    erewrite bind_raised; [reflexivity|exact Hget].
  - intros data w1 e w2 Hget Hput. unfold approve_movie.
    erewrite try_except_raised; [reflexivity|].
    erewrite bind_returned; [|exact Hget].
    erewrite bind_raised; [reflexivity|exact Hput].
  - unfold approve_movie.
    erewrite try_except_raised; [reflexivity|].
    erewrite bind_returned; [|eassumption].
    erewrite bind_returned; [|eassumption].
    erewrite bind_raised; [reflexivity|eassumption].
  - apply put_object_bytes_returned in H0 as ->.
    apply delete_object_raised in H1 as ->.
    rewrite final_next, final_write_final. apply lookup_insert_eq.
Qed.

(** The delete is refused after the copy went through: the caller gets the
    400 and the record is in both buckets. *)
Lemma approve_maps_exceptions_to_400_witness :
  let w := dune_submitted [None; None; Some (ClientError (py "AccessDenied"))] in
  exists w3,
    approve_movie dune_id w = (Raised not_found, w3)
    /\ final w3 !! object_key dune_id = Some (json_mod.dumps (Movie_dict dune))
    /\ pending w3 !! object_key dune_id = Some (json_mod.dumps (Movie_dict dune)).
Proof.
  intros w.
  pose proof (approve_maps_exceptions_to_400 dune_id w) as (_ & _ & _ & H).
  eexists. 
  destruct (H {| S3.Body := json_mod.dumps (Movie_dict dune) |}
              (S3.next w)
              (S3.write FINAL_BUCKET
                 (<[object_key dune_id := json_mod.dumps (Movie_dict dune)]>
                    (S3.objects (S3.next w) FINAL_BUCKET)) (S3.next (S3.next w)))
              (ClientError (py "AccessDenied"))
              (S3.next (S3.write FINAL_BUCKET
                 (<[object_key dune_id := json_mod.dumps (Movie_dict dune)]>
                    (S3.objects (S3.next w) FINAL_BUCKET)) (S3.next (S3.next w)))))
    as [Ha Hf].
  - vm_compute. reflexivity.
  - vm_compute. reflexivity.
  - vm_compute. reflexivity.
  - split; [exact Ha|]. split; [exact Hf|]. vm_compute. reflexivity.
Defined.

(** ** ASCII texts and UTF-8 *)

Lemma is_ascii_forallb s : forallb (fun c => c <? 128) s = true -> is_ascii s.
Proof.
  unfold is_ascii. rewrite forallb_forall, Forall_forall.
  intros H c Hc. apply N.ltb_lt, H. by apply list_elem_of_In.
Qed.

Ltac ascii_literal := apply is_ascii_forallb; vm_compute; reflexivity.

Lemma is_ascii_app s t : is_ascii s -> is_ascii t -> is_ascii (s ++ t).
Proof. unfold is_ascii. intros. by apply Forall_app. Qed.

Ltac ascii_split :=
  repeat lazymatch goal with
         | |- is_ascii (_ ++ _) => apply is_ascii_app
         end.

Lemma is_ascii_cons c s : c < 128 -> is_ascii s -> is_ascii (c :: s).
Proof. unfold is_ascii. intros. by constructor. Qed.

Lemma utf8_encode_ascii s : is_ascii s -> utf8.encode s = Some s.
Proof.
  induction 1 as [|c s Hc _ IH]; [done|]. cbn [utf8.encode].
  rewrite IH. unfold utf8.encode_char.
  apply N.ltb_lt in Hc. by rewrite Hc.
Qed.

Lemma utf8_decode_ascii s : is_ascii s -> utf8.decode s = Some s.
Proof.
  induction 1 as [|c s Hc _ IH]; [done|]. cbn [utf8.decode].
  apply N.ltb_lt in Hc. by rewrite Hc, IH.
Qed.

Lemma hexdigit_ascii n : hexdigit (N.land n 15) < 128.
Proof.
  assert (N.land n 15 < 16).
  { change 15 with (N.ones 4). rewrite N.land_ones. by apply N.mod_lt. }
  unfold hexdigit. destruct (N.ltb_spec (N.land n 15) 10); lia.
Qed.

Lemma format_hex_ascii w n : is_ascii (format_hex w n).
Proof.
  revert n. induction w as [|w IH]; intros n; cbn [format_hex]; [constructor|].
  apply is_ascii_app; [apply IH|]. apply is_ascii_cons; [apply hexdigit_ascii|constructor].
Qed.

Lemma escape_char_ascii c : is_ascii (json_mod.escape_char c).
Proof.
  unfold json_mod.escape_char.
  destruct (c =? 92); [ascii_literal|].
  destruct (c =? 34); [ascii_literal|].
  destruct (c =? 8); [ascii_literal|].
  destruct (c =? 12); [ascii_literal|].
  destruct (c =? 10); [ascii_literal|].
  destruct (c =? 13); [ascii_literal|].
  destruct (c =? 9); [ascii_literal|].
  destruct ((32 <=? c) && (c <=? 126)) eqn:Hp.
  - apply andb_prop in Hp as [_ Hp%N.leb_le].
    apply is_ascii_cons; [lia|constructor].
  - destruct (c <? 65536); cbv zeta; ascii_split;
      first [apply format_hex_ascii | ascii_literal].
Qed.

Lemma escape_ascii s : is_ascii (json_mod.escape s).
Proof.
  unfold json_mod.escape. induction s as [|c s IH]; [constructor|].
  cbn. apply is_ascii_app; [apply escape_char_ascii | apply IH].
Qed.

Lemma encode_basestring_ascii_ascii s : is_ascii (json_mod.encode_basestring_ascii s).
Proof.
  unfold json_mod.encode_basestring_ascii. ascii_split;
    first [apply escape_ascii | ascii_literal].
Qed.

Lemma uint_chars_ascii u : is_ascii (json_mod.uint_chars u).
Proof.
  induction u; cbn; [constructor|..]; (apply is_ascii_cons; [lia|done]).
Qed.

Lemma int_repr_ascii z : is_ascii (json_mod.int_repr z).
Proof.
  destruct z; cbn [json_mod.int_repr].
  - ascii_literal.
  - apply uint_chars_ascii.
  - apply is_ascii_cons; [lia | apply uint_chars_ascii].
Qed.

Lemma dumps_movie_ascii movie : is_ascii (json_mod.dumps (Movie_dict movie)).
Proof.
  unfold Movie_dict. cbn [json_mod.dumps map json_mod.join_comma fst snd].
  ascii_split;
    first [apply encode_basestring_ascii_ascii | apply int_repr_ascii | ascii_literal].
Qed.

(** ** submit_movie, case by case *)

Lemma uuid4_run w :
  uuid4 w = (Returned (uuid.UUID_v4 (urandom w (drawn w))), set_drawn (S (drawn w)) w).
Proof. reflexivity. Qed.

Lemma submit_success movie w :
  scheduled 0 w = None ->
  exists w',
    submit_movie movie w = (Returned (submitted (issued w (drawn w))), w')
    /\ pending w' = <[object_key (issued w (drawn w)) := json_mod.dumps (Movie_dict movie)]> (pending w)
    /\ final w' = final w
    /\ urandom w' = urandom w /\ drawn w' = S (drawn w)
    /\ faults w' = tail (faults w).
Proof.
  intros H0. unfold submit_movie. eexists. split.
  - erewrite bind_returned; [|apply uuid4_run].
    erewrite bind_returned; [reflexivity|].
    apply put_object_str_ok; [|exact H0].
    apply utf8_encode_ascii, dumps_movie_ascii.
  - rewrite pending_write_pending, final_write_pending. repeat split.
Qed.

Lemma submit_fault movie e w :
  scheduled 0 w = Some e ->
  exists w',
    submit_movie movie w = (Raised e, w')
    /\ store w' = store w
    /\ urandom w' = urandom w /\ drawn w' = S (drawn w)
    /\ faults w' = tail (faults w).
Proof.
  intros H0. unfold submit_movie. eexists. split.
  - erewrite bind_returned; [|apply uuid4_run].
    erewrite bind_raised; [reflexivity|].
    eapply put_object_str_fault; [|exact H0].
    apply utf8_encode_ascii, dumps_movie_ascii.
  - repeat split.
Qed.

(** ** Identifiers: str(uuid4()) determines the UUID *)

Lemma format_hex_length w n : length (format_hex w n) = w.
Proof.
  revert n. induction w as [|w IH]; intros n; cbn [format_hex]; [done|].
  rewrite length_app, IH. cbn. lia.
Qed.

Lemma hexdigit_inj a b : a < 16 -> b < 16 -> hexdigit a = hexdigit b -> a = b.
Proof.
  unfold hexdigit. intros Ha Hb.
  destruct (N.ltb_spec a 10), (N.ltb_spec b 10); lia.
Qed.

Lemma land_15_lt n : N.land n 15 < 16.
Proof. change 15 with (N.ones 4). rewrite N.land_ones. by apply N.mod_lt. Qed.

Lemma format_hex_inj w a b :
  format_hex w a = format_hex w b -> a mod 2 ^ (4 * N.of_nat w) = b mod 2 ^ (4 * N.of_nat w).
Proof.
  revert a b. induction w as [|w IH]; intros a b H.
  - cbn. by rewrite !N.mod_1_r.
  - cbn [format_hex] in H. apply app_inj_tail in H as [Hhi Hlo].
    apply IH in Hhi.
    apply hexdigit_inj in Hlo; [|apply land_15_lt..].
    change 15 with (N.ones 4) in Hlo. rewrite !N.land_ones in Hlo.
    rewrite !N.shiftr_div_pow2 in Hhi.
    replace (4 * N.of_nat (S w)) with (4 + 4 * N.of_nat w) by lia.
    rewrite N.pow_add_r.
    rewrite !N.Div0.mod_mul_r. by rewrite Hlo, Hhi.
Qed.

Lemma uuid_str_hex n :
  let s := uuid.str n in
  take 8 s ++ take 4 (drop 9 s) ++ take 4 (drop 14 s) ++ take 4 (drop 19 s) ++ drop 24 s
  = format_hex 32 n.
Proof.
  unfold uuid.str. pose proof (format_hex_length 32 n) as Hlen.
  destruct (format_hex 32 n) as [|x l]; [discriminate|].
  do 31 (destruct l as [|? l]; [discriminate|]).
  destruct l; [|discriminate]. reflexivity.
Qed.

Lemma uuid_str_inj a b :
  uuid.str a = uuid.str b -> a mod 2 ^ 128 = b mod 2 ^ 128.
Proof.
  intros H. apply (format_hex_inj 32).
  rewrite <- !uuid_str_hex. cbv zeta. by rewrite H.
Qed.

Lemma UUID_v4_range r : uuid.UUID_v4 r mod 2 ^ 128 = uuid.UUID_v4 r.
Proof.
  rewrite <- N.land_ones. apply N.bits_inj. intros k.
  rewrite N.land_spec. destruct (N.ltb_spec k 128) as [Hk|Hk].
  - rewrite (N.ones_spec_low 128 k Hk). apply andb_true_r.
  - rewrite (N.ones_spec_high 128 k Hk), andb_false_r.
    unfold uuid.UUID_v4, uuid.from_bytes16. cbv zeta.
    repeat rewrite ?N.lor_spec, ?N.ldiff_spec.
    rewrite N.land_spec, (N.ones_spec_high 128 k Hk).
    rewrite andb_false_r. cbn [andb orb].
    rewrite (N.bits_above_log2 (N.shiftl 32768 48)), (N.bits_above_log2 (N.shiftl 4 76));
      [done | vm_compute (N.log2 _); lia..].
Qed.

(** Two draws give the same identifier only when they give the same UUID. *)
Lemma issued_inj r1 r2 :
  uuid.str (uuid.UUID_v4 r1) = uuid.str (uuid.UUID_v4 r2) ->
  uuid.UUID_v4 r1 = uuid.UUID_v4 r2.
Proof.
  intros H%uuid_str_inj. by rewrite !UUID_v4_range in H.
Qed.

Lemma object_key_inj id1 id2 : object_key id1 = object_key id2 -> id1 = id2.
Proof. unfold object_key. apply app_inv_tail. Qed.

(** ** Claims about submit_movie *)

(** C5: for every record (title, year, genre), [submit_movie] generates an
    identifier, the text of the version-4 UUID made from the next draw of
    the random source, writes the serialized record to the pending bucket
    under the key [{movie_id}.json], and returns the identifier with the
    message "Movie submitted for approval."  The identifier is not checked
    against anything: it equals an identifier generated before exactly when
    the random source gives a UUID it gave before, and is fresh otherwise. *)
Theorem submit_stores_record movie w :
  scheduled 0 w = None ->
  let movie_id := uuid.str (uuid.UUID_v4 (urandom w (drawn w))) in
  fst (submit_movie movie w)
  = Returned (JObj [(py "message", JStr (py "Movie submitted for approval."));
                    (py "movie_id", JStr movie_id)])
  /\ pending (snd (submit_movie movie w))
     = <[movie_id ++ py ".json" := json_mod.dumps (Movie_dict movie)]> (pending w)
  /\ pending (snd (submit_movie movie w)) !! (movie_id ++ py ".json")
     = Some (json_mod.dumps (Movie_dict movie))
  /\ drawn (snd (submit_movie movie w)) = S (drawn w)
  /\ (forall i, (i < drawn w)%nat ->
        (issued w i = movie_id
         <-> uuid.UUID_v4 (urandom w i) = uuid.UUID_v4 (urandom w (drawn w)))
        /\ (object_key (issued w i) = object_key movie_id
            <-> uuid.UUID_v4 (urandom w i) = uuid.UUID_v4 (urandom w (drawn w)))).
Proof.
  intros H0 movie_id.
  destruct (submit_success movie w H0) as (w' & -> & Hp & _ & _ & Hd & _).
  cbn [fst snd]. rewrite Hp. repeat split.
  - apply lookup_insert_eq.
  - exact Hd.
  - apply issued_inj.
  - intros E. unfold issued, movie_id. by rewrite E.
  - intros E%object_key_inj. by apply issued_inj.
  - intros E. unfold issued, movie_id. by rewrite E.
Qed.

Lemma submit_stores_record_witness :
  let movie_id := uuid.str (uuid.UUID_v4 (urandom dune_submitted_once 1)) in
  fst (submit_movie dune dune_submitted_once)
  = Returned (JObj [(py "message", JStr (py "Movie submitted for approval."));
                    (py "movie_id", JStr movie_id)])
  /\ pending (snd (submit_movie dune dune_submitted_once))
     = <[movie_id ++ py ".json" := json_mod.dumps (Movie_dict dune)]> (pending dune_submitted_once)
  /\ pending (snd (submit_movie dune dune_submitted_once)) !! (movie_id ++ py ".json")
     = Some (json_mod.dumps (Movie_dict dune))
  /\ drawn (snd (submit_movie dune dune_submitted_once)) = 2%nat
  /\ (forall i, (i < 1)%nat ->
        (issued dune_submitted_once i = movie_id
         <-> uuid.UUID_v4 (urandom dune_submitted_once i)
             = uuid.UUID_v4 (urandom dune_submitted_once 1))
        /\ (object_key (issued dune_submitted_once i) = object_key movie_id
            <-> uuid.UUID_v4 (urandom dune_submitted_once i)
                = uuid.UUID_v4 (urandom dune_submitted_once 1))).
Proof.
  apply (submit_stores_record dune dune_submitted_once).
  vm_compute. reflexivity.
Defined.

(** The identifier is not always fresh: with a random source that gives
    the same draw twice, the second submission returns the identifier the
    first one returned, and its record replaces the first record. *)
Lemma submit_repeats_identifier :
  let w := initial dune_random [] in
  let w1 := snd (submit_movie dune w) in
  let w2 := snd (submit_movie dune_sequel w1) in
  fst (submit_movie dune w) = Returned (submitted dune_id)
  /\ fst (submit_movie dune_sequel w1) = Returned (submitted dune_id)
  /\ pending w1 !! object_key dune_id = Some (json_mod.dumps (Movie_dict dune))
  /\ pending w2 !! object_key dune_id = Some (json_mod.dumps (Movie_dict dune_sequel))
  /\ size (pending w2) = 1%nat.
Proof. vm_compute. repeat split; reflexivity. Qed.

(** ** get_movies *)

Lemma get_movies_unfold :
  get_movies =
  (response ← S3.list_objects_v2 FINAL_BUCKET;
   match S3.Contents response with
   | Some contents => for_in contents get_movies_body []
   | None => mret []
   end).
Proof. reflexivity. Qed.

Lemma list_objects_v2_ok B w :
  scheduled 0 w = None ->
  S3.list_objects_v2 B w
  = (Returned {| S3.Contents :=
                   match take S3.MaxKeys (S3.sorted_keys (S3.objects w B)) with
                   | [] => None
                   | _ :: _ => Some ((fun k => {| S3.Key := k |}) <$>
                                       take S3.MaxKeys (S3.sorted_keys (S3.objects w B)))
                   end;
                 S3.IsTruncated :=
                   bool_decide (S3.MaxKeys < length (S3.sorted_keys (S3.objects w B)))%nat |},
     S3.next w).
Proof. intros H. unfold S3.list_objects_v2. by rewrite call_ok. Qed.

Lemma list_objects_v2_inv B w r w' :
  S3.list_objects_v2 B w = (r, w') ->
  w' = S3.next w
  /\ ((exists e, r = Raised e) \/
      r = Returned {| S3.Contents :=
                   match take S3.MaxKeys (S3.sorted_keys (S3.objects w B)) with
                   | [] => None
                   | _ :: _ => Some ((fun k => {| S3.Key := k |}) <$>
                                       take S3.MaxKeys (S3.sorted_keys (S3.objects w B)))
                   end;
                 S3.IsTruncated :=
                   bool_decide (S3.MaxKeys < length (S3.sorted_keys (S3.objects w B)))%nat |}).
Proof.
  unfold S3.list_objects_v2, S3.call.
  destruct (head (faults w)) as [[e|]|]; intros [= <- <-]; split; eauto.
Qed.

Lemma sorted_keys_empty : S3.sorted_keys ∅ = [].
Proof. unfold S3.sorted_keys. by rewrite map_to_list_empty. Qed.

(** One round of the loop. *)
Lemma get_movies_body_ok k b movie movies w :
  scheduled 0 w = None -> final w !! k = Some b -> deserialize b = Some movie ->
  get_movies_body {| S3.Key := k |} movies w = (Returned (movies ++ [movie]), S3.next w).
Proof.
  intros H0 Hk Hd. unfold get_movies_body.
  erewrite bind_returned; [|by apply get_object_ok].
  unfold deserialize in Hd. cbn [S3.Body].
  destruct (utf8.decode b) as [text|]; [|discriminate].
  change (json_mod.loads text = Some movie) in Hd.
  erewrite (bind_returned _ _ _ text); [|reflexivity].
  rewrite Hd. reflexivity.
Qed.

Lemma get_object_inv B K w r w' :
  S3.get_object B K w = (r, w') ->
  w' = S3.next w
  /\ forall d, r = Returned d -> S3.objects w B !! K = Some (S3.Body d).
Proof.
  unfold S3.get_object, S3.call.
  destruct (head (faults w)) as [[e|]|]; rewrite ?objects_next;
    try destruct (S3.objects w B !! K) as [b|];
    intros [= <- <-]; (split; [done|]); intros d [= <-]; done.
Qed.

Lemma get_movies_body_inv obj movies w r w' :
  get_movies_body obj movies w = (r, w') ->
  w' = S3.next w
  /\ forall movies', r = Returned movies' ->
       exists b movie, final w !! S3.Key obj = Some b /\ deserialize b = Some movie
                       /\ movies' = movies ++ [movie].
Proof.
  unfold get_movies_body. intros H.
  destruct (S3.get_object FINAL_BUCKET (S3.Key obj) w) as [[d|e] w1] eqn:Hg.
  - destruct (get_object_inv _ _ _ _ _ Hg) as [-> Hb]. specialize (Hb d eq_refl).
    erewrite bind_returned in H; [|exact Hg].
    destruct (utf8.decode (S3.Body d)) as [text|] eqn:Hdec.
    + erewrite (bind_returned _ _ _ text) in H; [|reflexivity].
      destruct (json_mod.loads text) as [movie|] eqn:Hl.
      * erewrite (bind_returned _ _ _ movie) in H; [|reflexivity].
        injection H as <- <-. split; [done|]. intros movies' [= <-].
        exists (S3.Body d), movie. split; [exact Hb|]. split; [|done].
        unfold deserialize. rewrite Hdec. exact Hl.
      * erewrite bind_raised in H; [|reflexivity].
        injection H as <- <-. split; [done|discriminate].
    + erewrite bind_raised in H; [|reflexivity].
      injection H as <- <-. split; [done|discriminate].
  - destruct (get_object_inv _ _ _ _ _ Hg) as [-> _].
    erewrite bind_raised in H; [|exact Hg].
    injection H as <- <-. split; [done|discriminate].
Qed.

Lemma get_movies_loop_inv keys movies0 w r w' :
  for_in ((fun k => {| S3.Key := k |}) <$> keys) get_movies_body movies0 w = (r, w') ->
  store w' = store w
  /\ forall movies, r = Returned movies ->
       exists js, movies = movies0 ++ js /\ Forall2 (record_of (final w)) keys js.
Proof.
  revert movies0 w. induction keys as [|k keys IH]; intros movies0 w; cbn [fmap list_fmap for_in].
  - intros [= <- <-]. split; [done|]. intros movies [= <-].
    exists []. split; [by rewrite app_nil_r | constructor].
  - unfold mbind at 1, M_bind at 1, bind at 1.
    destruct (get_movies_body {| S3.Key := k |} movies0 w) as [[acc|e] w1] eqn:Hb.
    + apply get_movies_body_inv in Hb as [-> Hb].
      destruct (Hb acc eq_refl) as (b & movie & Hk & Hd & ->).
      intros Hloop. apply IH in Hloop as [Hst Hloop]. split; [done|].
      intros movies Hr. destruct (Hloop movies Hr) as (js & -> & Hjs).
      exists (movie :: js). split; [by rewrite <- app_assoc|].
      constructor; [by exists b | exact Hjs].
    + apply get_movies_body_inv in Hb as [-> _].
      intros [= <- <-]. split; [done|discriminate].
Qed.

Lemma get_movies_loop_ok keys js movies0 w :
  calm (length keys) w ->
  Forall2 (record_of (final w)) keys js ->
  fst (for_in ((fun k => {| S3.Key := k |}) <$> keys) get_movies_body movies0 w)
  = Returned (movies0 ++ js).
Proof.
  intros Hc Hjs. revert js movies0 w Hc Hjs.
  induction keys as [|k keys IH]; intros js movies0 w Hc Hjs.
  - inversion Hjs; subst. cbn. by rewrite app_nil_r.
  - inversion Hjs as [|? j ? js' (b & Hk & Hd) Hrest]; subst.
    cbn [fmap list_fmap for_in].
    erewrite bind_returned.
    2:{ eapply get_movies_body_ok; [by apply (calm_head (length keys)) | exact Hk | exact Hd]. }
    rewrite (IH js'); [by rewrite <- app_assoc | by apply calm_next | exact Hrest].
Qed.

(** Every record [get_movies] returns is the deserialized body of an
    object of the final bucket: the objects of the first page of the
    listing, in its order.  The store is not modified. *)
Lemma get_movies_inv w r w' :
  get_movies w = (r, w') ->
  store w' = store w
  /\ forall movies, r = Returned movies ->
       Forall2 (record_of (final w)) (first_page w) movies.
Proof.
  rewrite get_movies_unfold. unfold mbind at 1, M_bind at 1, bind at 1.
  destruct (S3.list_objects_v2 FINAL_BUCKET w) as [[resp|e] w1] eqn:Hl.
  - apply list_objects_v2_inv in Hl as [-> [[e He]| [= ->]]]; [discriminate|].
    cbn [S3.Contents]. fold (final w). fold (first_page w).
    destruct (first_page w) as [|k ks] eqn:Hp.
    + intros [= <- <-]. split; [done|]. intros movies [= <-]. constructor.
    + intros Hloop. apply get_movies_loop_inv in Hloop as [Hst Hloop].
      split; [done|]. intros movies Hr.
      destruct (Hloop movies Hr) as (js & -> & Hjs). exact Hjs.
  - apply list_objects_v2_inv in Hl as [-> _].
    intros [= <- <-]. split; [done|discriminate].
Qed.

Lemma get_movies_ok w movies :
  calm (S (length (first_page w))) w ->
  Forall2 (record_of (final w)) (first_page w) movies ->
  fst (get_movies w) = Returned movies.
Proof.
  intros Hc Hjs. rewrite get_movies_unfold.
  erewrite bind_returned; [|apply list_objects_v2_ok; by apply (calm_head _ _ Hc)].
  cbn [S3.Contents]. fold (final w). fold (first_page w).
  destruct (first_page w) as [|k ks] eqn:Hp.
  - by inversion Hjs.
  - change movies with ([] ++ movies).
    apply (get_movies_loop_ok (k :: ks)); [by apply calm_next | exact Hjs].
Qed.

Lemma get_movies_empty w movies :
  final w = ∅ -> fst (get_movies w) = Returned movies -> movies = [].
Proof.
  intros He Hr. destruct (get_movies w) as [r w'] eqn:Hg.
  apply get_movies_inv in Hg as [_ Hg]. specialize (Hg movies Hr).
  unfold first_page in Hg. rewrite He, sorted_keys_empty in Hg.
  by inversion Hg.
Qed.

Lemma get_movies_empty_ok w :
  final w = ∅ -> scheduled 0 w = None -> fst (get_movies w) = Returned [].
Proof.
  intros He H0. apply get_movies_ok.
  - unfold first_page. rewrite He, sorted_keys_empty. cbn.
    intros i Hi. by replace i with 0%nat by lia.
  - unfold first_page. rewrite He, sorted_keys_empty. constructor.
Qed.

(** ** What each handler does to the two buckets *)

Lemma scheduled_cases w : scheduled 0 w = None \/ exists e, scheduled 0 w = Some e.
Proof. destruct (scheduled 0 w); eauto. Qed.

Lemma submit_frame movie w :
  final (snd (submit_movie movie w)) = final w
  /\ (forall B, B <> PENDING_BUCKET ->
        S3.objects (snd (submit_movie movie w)) B = S3.objects w B).
Proof.
  destruct (scheduled_cases w) as [H0|[e H0]].
  - unfold submit_movie.
    erewrite bind_returned; [|apply uuid4_run].
    erewrite bind_returned;
      [|apply put_object_str_ok; [apply utf8_encode_ascii, dumps_movie_ascii | exact H0]].
    cbn [snd mret M_ret ret]. split.
    + by rewrite final_write_pending.
    + intros B HB. by rewrite objects_write_ne.
  - destruct (submit_fault movie e w H0) as (w' & -> & Hst & _).
    cbn [snd]. unfold final, S3.objects. by rewrite Hst.
Qed.

Lemma get_movies_store w : store (snd (get_movies w)) = store w.
Proof.
  destruct (get_movies w) as [r w'] eqn:Hg.
  apply get_movies_inv in Hg as [Hst _]. exact Hst.
Qed.

Lemma handle_list_store w : store (snd (handle ListFinal w)) = store w.
Proof.
  cbn [handle]. unfold mbind, M_bind, bind.
  pose proof (get_movies_store w) as H.
  destruct (get_movies w) as [[movies|e] w']; exact H.
Qed.

Lemma run_cons r rs w :
  run (r :: rs) w
  = (fst (handle r w) :: fst (run rs (snd (handle r w))), snd (run rs (snd (handle r w)))).
Proof.
  cbn [run]. destruct (handle r w) as [res w1]. cbn [fst snd].
  by destruct (run rs w1).
Qed.

Lemma run_app rs1 rs2 w :
  run (rs1 ++ rs2) w
  = (fst (run rs1 w) ++ fst (run rs2 (snd (run rs1 w))), snd (run rs2 (snd (run rs1 w)))).
Proof.
  revert w. induction rs1 as [|r rs1 IH]; intros w.
  - cbn. by destruct (run rs2 w).
  - rewrite <- app_comm_cons, !run_cons, IH. reflexivity.
Qed.

(** Without an approval nothing reaches the final bucket. *)
Lemma run_without_approve rs w :
  forallb (fun r => negb (is_approve r)) rs = true ->
  final (snd (run rs w)) = final w.
Proof.
  revert w. induction rs as [|r rs IH]; intros w Hrs; [done|].
  cbn [forallb] in Hrs. apply andb_prop in Hrs as [Hr Hrs].
  rewrite run_cons. cbn [snd]. rewrite IH by done.
  destruct r as [movie| |movie_id]; [| |discriminate].
  - cbn [handle]. by destruct (submit_frame movie w) as [H _].
  - unfold final, S3.objects. by rewrite handle_list_store.
Qed.

Lemma final_initial random fs : final (initial random fs) = ∅.
Proof. reflexivity. Qed.

Lemma pending_initial random fs : pending (initial random fs) = ∅.
Proof. reflexivity. Qed.

(** ** Claim about the listing after a submission *)

(** C6: [submit_movie] modifies only the pending bucket and leaves the final
    bucket unchanged; in an execution from empty buckets in which [X] was
    submitted and no approval was made, the final bucket is empty and [X]
    is not in the sequence [get_movies] returns, which is the empty
    sequence. *)
Theorem submit_keeps_final rs X random fs :
  forallb (fun r => negb (is_approve r)) rs = true ->
  In (Submit X) rs ->
  let w := snd (run rs (initial random fs)) in
  (forall movie v,
     final (snd (submit_movie movie v)) = final v
     /\ forall B, B <> PENDING_BUCKET -> S3.objects (snd (submit_movie movie v)) B = S3.objects v B)
  /\ final w = ∅
  /\ (forall movies, fst (get_movies w) = Returned movies -> ~ In (Movie_dict X) movies)
  /\ (scheduled 0 w = None -> fst (get_movies w) = Returned []).
Proof.
  intros Hrs _ w.
  assert (Hw : final w = ∅).
  { unfold w. rewrite run_without_approve by exact Hrs. apply final_initial. }
  split; [apply submit_frame|]. split; [exact Hw|]. split.
  - intros movies Hm. rewrite (get_movies_empty w movies Hw Hm). intros [].
  - intros H0. by apply get_movies_empty_ok.
Qed.

Lemma submit_keeps_final_witness :
  let w := snd (run [Submit dune; ListFinal] (initial dune_random [])) in
  (forall movie v,
     final (snd (submit_movie movie v)) = final v
     /\ forall B, B <> PENDING_BUCKET -> S3.objects (snd (submit_movie movie v)) B = S3.objects v B)
  /\ final w = ∅
  /\ (forall movies, fst (get_movies w) = Returned movies -> ~ In (Movie_dict dune) movies)
  /\ (scheduled 0 w = None -> fst (get_movies w) = Returned []).
Proof.
  apply (submit_keeps_final [Submit dune; ListFinal] dune dune_random []).
  - reflexivity.
  - left. reflexivity.
Defined.

(** ** Worlds along an execution *)

Lemma only_calls_refl w : only_calls w w.
Proof. repeat split. by exists 0%nat. Qed.

Lemma only_calls_next w : only_calls w (S3.next w).
Proof. repeat split. exists 1%nat. cbn. by destruct (faults w). Qed.

Lemma only_calls_trans w1 w2 w3 : only_calls w1 w2 -> only_calls w2 w3 -> only_calls w1 w3.
Proof.
  intros (Hs1 & Hu1 & Hd1 & n1 & Hf1) (Hs2 & Hu2 & Hd2 & n2 & Hf2).
  repeat split; try congruence.
  exists (n1 + n2)%nat. by rewrite Hf2, Hf1, drop_drop.
Qed.

Lemma calm_forever_drop w w' n :
  faults w' = drop n (faults w) -> calm_forever w -> calm_forever w'.
Proof.
  intros Hf Hc i. specialize (Hc (n + i)%nat). unfold scheduled in *.
  by rewrite Hf, lookup_drop.
Qed.

Lemma calm_forever_only_calls w w' : only_calls w w' -> calm_forever w -> calm_forever w'.
Proof. intros (_ & _ & _ & n & Hf). by apply (calm_forever_drop w w' n). Qed.

Lemma calm_forever_calm n w : calm_forever w -> calm n w.
Proof. intros H i _. apply H. Qed.

Lemma get_movies_loop_world contents movies0 w :
  only_calls w (snd (for_in contents get_movies_body movies0 w)).
Proof.
  revert movies0 w. induction contents as [|obj contents IH]; intros movies0 w.
  - apply only_calls_refl.
  - cbn [for_in]. unfold mbind at 1, M_bind at 1, bind at 1.
    destruct (get_movies_body obj movies0 w) as [[acc|e] w1] eqn:Hb;
      apply get_movies_body_inv in Hb as [-> _].
    + eapply only_calls_trans; [apply only_calls_next | apply IH].
    + apply only_calls_next.
Qed.

Lemma get_movies_world w : only_calls w (snd (get_movies w)).
Proof.
  rewrite get_movies_unfold. unfold mbind at 1, M_bind at 1, bind at 1.
  destruct (S3.list_objects_v2 FINAL_BUCKET w) as [[resp|e] w1] eqn:Hl;
    apply list_objects_v2_inv in Hl as [-> _].
  - destruct (S3.Contents resp) as [contents|].
    + eapply only_calls_trans; [apply only_calls_next | apply get_movies_loop_world].
    + apply only_calls_next.
  - apply only_calls_next.
Qed.

Lemma handle_list_world w : only_calls w (snd (handle ListFinal w)).
Proof.
  cbn [handle]. unfold mbind, M_bind, bind.
  pose proof (get_movies_world w) as H.
  destruct (get_movies w) as [[movies|e] w']; exact H.
Qed.

(** ** The buckets stay disjoint *)

Lemma issued_same w w' i : urandom w' = urandom w -> issued w' i = issued w i.
Proof. intros H. unfold issued. rewrite H. reflexivity. Qed.

Lemma issued_inj_world w i j :
  issued w i = issued w j -> uuid.UUID_v4 (urandom w i) = uuid.UUID_v4 (urandom w j).
Proof. unfold issued. apply issued_inj. Qed.

#[local] Opaque uuid.str uuid.UUID_v4 object_key issued.

Lemma submit_tidy movie w :
  tidy w ->
  (forall i, (i < drawn w)%nat ->
     uuid.UUID_v4 (urandom w i) <> uuid.UUID_v4 (urandom w (drawn w))) ->
  tidy (snd (submit_movie movie w))
  /\ urandom (snd (submit_movie movie w)) = urandom w
  /\ drawn (snd (submit_movie movie w)) = S (drawn w).
Proof.
  intros (Hc & Hd & Hk) Hfresh.
  destruct (submit_success movie w (Hc 0%nat)) as (w' & -> & Hp & Hf & Hu & Hn & Hfs).
  cbn [snd]. split; [|split; [exact Hu|exact Hn]]. split; [|split].
  - apply (calm_forever_drop w w' 1); [|exact Hc]. rewrite Hfs. destruct (faults w); reflexivity.
  - intros k. rewrite Hp, Hf.
    destruct (decide (object_key (issued w (drawn w)) = k)) as [<-|Hne].
    + right. destruct (final w !! object_key (issued w (drawn w))) as [b|] eqn:E; [|reflexivity].
      destruct (Hk (object_key (issued w (drawn w)))) as (i & Hi & Heq).
      { right. rewrite E. eexists. reflexivity. }
      apply object_key_inj in Heq. symmetry in Heq. apply issued_inj_world in Heq.
      destruct (Hfresh i Hi Heq).
    + rewrite (lookup_insert_ne _ _ _ _ Hne). apply Hd.
  - intros k. rewrite Hp, Hf, Hn.
    destruct (decide (object_key (issued w (drawn w)) = k)) as [<-|Hne].
    + intros _. exists (drawn w). split; [lia|].
      rewrite (issued_same w w' _ Hu). reflexivity.
    + rewrite (lookup_insert_ne _ _ _ _ Hne). intros Hin.
      destruct (Hk k Hin) as (i & Hi & ->). exists i. split; [lia|].
      rewrite (issued_same w w' _ Hu). reflexivity.
Qed.

Lemma approve_tidy movie_id w :
  tidy w ->
  tidy (snd (approve_movie movie_id w))
  /\ urandom (snd (approve_movie movie_id w)) = urandom w
  /\ drawn (snd (approve_movie movie_id w)) = drawn w.
Proof.
  intros (Hc & Hd & Hk).
  destruct (pending w !! object_key movie_id) as [b|] eqn:Hp.
  - destruct (approve_success movie_id b w Hp (calm_forever_calm 3 w Hc))
      as (w' & -> & Hf' & Hp' & Hu & Hn & Hfs).
    cbn [snd]. split; [|done]. split; [|split].
    + by apply (calm_forever_drop w w' 3).
    + intros k. rewrite Hp', Hf'.
      destruct (decide (k = object_key movie_id)) as [->|Hne].
      * left. apply lookup_delete_eq.
      * rewrite lookup_delete_ne, lookup_insert_ne by done. apply Hd.
    + intros k. rewrite Hp', Hf', Hn. intros Hin.
      assert (is_Some (pending w !! k) \/ is_Some (final w !! k)) as Hin'.
      { destruct (decide (k = object_key movie_id)) as [->|Hne].
        - left. eauto.
        - by rewrite lookup_delete_ne, lookup_insert_ne in Hin. }
      destruct (Hk k Hin') as (i & Hi & ->). exists i. split; [done|].
      by rewrite (issued_same w w').
  - rewrite (approve_absent movie_id w Hp). cbn [snd].
    split; [|done]. split; [|split].
    + exact (calm_forever_only_calls w (S3.next w) (only_calls_next w) Hc).
    + exact Hd.
    + exact Hk.
Qed.

Lemma list_tidy w :
  tidy w ->
  tidy (snd (handle ListFinal w))
  /\ urandom (snd (handle ListFinal w)) = urandom w
  /\ drawn (snd (handle ListFinal w)) = drawn w.
Proof.
  intros (Hc & Hd & Hk).
  pose proof (handle_list_world w) as Hw.
  destruct Hw as (Hs & Hu & Hn & m & Hf).
  split; [|split; [exact Hu|exact Hn]]. split; [|split].
  - exact (calm_forever_drop w _ m Hf Hc).
  - intros k. unfold pending, final, S3.objects. rewrite Hs. apply Hd.
  - intros k. unfold pending, final, S3.objects. rewrite Hs, Hn. intros Hin.
    destruct (Hk k Hin) as (i & Hi & ->). exists i. split; [exact Hi|].
    rewrite (issued_same w _ _ Hu). reflexivity.
Qed.

Lemma submissions_cons r rs :
  submissions (r :: rs) = ((if is_submit r then 1 else 0) + submissions rs)%nat.
Proof. unfold submissions. cbn [List.filter]. by destruct (is_submit r). Qed.

Lemma run_tidy rs w :
  tidy w ->
  distinct_draws (urandom w) (drawn w + submissions rs) ->
  tidy (snd (run rs w)).
Proof.
  revert w. induction rs as [|r rs IH]; intros w Hw Hdraws; [done|].
  rewrite run_cons. cbn [snd]. rewrite submissions_cons in Hdraws.
  destruct r as [movie| |movie_id]; cbn [is_submit handle] in *.
  - destruct (submit_tidy movie w Hw) as (Hw' & Hu & Hn).
    { intros i Hi. apply Hdraws; lia. }
    apply IH; [done|]. rewrite Hu, Hn.
    replace (S (drawn w) + submissions rs)%nat with (drawn w + (1 + submissions rs))%nat by lia.
    done.
  - destruct (list_tidy w Hw) as (Hw' & Hu & Hn).
    apply IH; [done|]. cbn [handle] in Hu, Hn. by rewrite Hu, Hn.
  - destruct (approve_tidy movie_id w Hw) as (Hw' & Hu & Hn).
    apply IH; [done|]. by rewrite Hu, Hn.
Qed.

Lemma tidy_initial random fs :
  Forall (fun f => f = None) fs -> tidy (initial random fs).
Proof.
  intros Hfs. split; [|split].
  - intros i. unfold scheduled. cbn.
    destruct (fs !! i) as [f|] eqn:E; [|done].
    cbn. by apply (Forall_lookup_1 _ _ _ _ Hfs E).
  - intros k. left. unfold pending, S3.objects. cbn. by rewrite !lookup_empty.
  - intros k [[b Hb]|[b Hb]]; unfold pending, final, S3.objects in Hb; cbn in Hb;
      by rewrite !lookup_empty in Hb.
Qed.

(** ** Claim about the two buckets *)









(** The same execution leaves the first record in the final bucket and the
    second one pending. *)
Example disjoint_run_state :
  let w := snd (run [Submit dune; Approve (issued (initial counting_random []) 0);
                     Submit dune; ListFinal]
                    (initial counting_random [None; None])) in
  final w !! object_key (issued w 0) = Some (json_mod.dumps (Movie_dict dune))
  /\ pending w !! object_key (issued w 1) = Some (json_mod.dumps (Movie_dict dune))
  /\ pending w !! object_key (issued w 0) = None.
Proof. vm_compute. repeat split. Qed.

(** ** Parsing what json.dumps writes *)

Lemma N_below_forallb (P : N -> bool) (n : nat) :
  forallb (fun i => P (N.of_nat i)) (seq 0 n) = true ->
  forall x, x < N.of_nat n -> P x = true.
Proof.
  rewrite forallb_forall. intros H x Hx.
  rewrite <- (N2Nat.id x). apply H. apply in_seq. lia.
Qed.

Lemma hexval_hexdigit d : d < 16 -> json_mod.hexval (hexdigit d) = Some d.
Proof.
  intros Hd.
  pose proof (N_below_forallb
                (fun d => match json_mod.hexval (hexdigit d) with
                          | Some d' => d' =? d | None => false end) 16) as H.
  cbv beta in H. specialize (H ltac:(vm_compute; reflexivity) d Hd).
  destruct (json_mod.hexval (hexdigit d)) as [d'|]; [|discriminate].
  apply N.eqb_eq in H. by rewrite H.
Qed.

Lemma nibbles_value n :
  4096 * N.land (N.shiftr (N.shiftr (N.shiftr n 4) 4) 4) 15
  + 256 * N.land (N.shiftr (N.shiftr n 4) 4) 15
  + 16 * N.land (N.shiftr n 4) 15 + N.land n 15
  = n mod 65536.
Proof.
  change 15 with (N.ones 4). rewrite !N.land_ones, !N.shiftr_div_pow2.
  change (2 ^ 4) with 16.
  change 65536 with (16 * (16 * (16 * 16))).
  rewrite !N.Div0.mod_mul_r. lia.
Qed.

Lemma decode_uXXXX_format_hex n rest :
  json_mod.decode_uXXXX (format_hex 4 n ++ rest) = Some (n mod 65536, rest).
Proof.
  cbn [format_hex app]. unfold json_mod.decode_uXXXX.
  rewrite !hexval_hexdigit by apply land_15_lt.
  by rewrite nibbles_value.
Qed.

(** ** The listing page *)

Lemma sorted_keys_perm (objs : gmap (list N) (list N)) :
  S3.sorted_keys objs ≡ₚ (map_to_list objs).*1.
Proof. unfold S3.sorted_keys. apply merge_sort_Permutation. Qed.

Lemma sorted_keys_length (objs : gmap (list N) (list N)) :
  length (S3.sorted_keys objs) = size objs.
Proof.
  rewrite (Permutation_length (sorted_keys_perm objs)).
  rewrite length_fmap. apply length_map_to_list.
Qed.

Lemma sorted_keys_elem (objs : gmap (list N) (list N)) k :
  k ∈ S3.sorted_keys objs <-> is_Some (objs !! k).
Proof.
  rewrite (sorted_keys_perm objs). rewrite list_elem_of_fmap. split.
  - intros ([k' b] & -> & Hin). apply elem_of_map_to_list in Hin. eauto.
  - intros [b Hb]. exists (k, b). split; [done|]. by apply elem_of_map_to_list.
Qed.

Lemma first_page_length w :
  length (first_page w) = Nat.min S3.MaxKeys (size (final w)).
Proof. unfold first_page. by rewrite length_take, sorted_keys_length. Qed.

Lemma first_page_all w :
  (size (final w) <= S3.MaxKeys)%nat -> first_page w = S3.sorted_keys (final w).
Proof.
  intros H. unfold first_page. apply take_ge. by rewrite sorted_keys_length.
Qed.

Lemma key_le_total : Total S3.key_le.
Proof.
  intros a. induction a as [|x a IH]; intros b.
  - left. reflexivity.
  - destruct b as [|y b]; [right; reflexivity|].
    unfold S3.key_le in *. cbn [S3.key_leb].
    destruct (N.compare_spec x y) as [->|Hlt|Hgt].
    + rewrite N.ltb_irrefl, N.eqb_refl. cbn. apply IH.
    + left. apply N.ltb_lt in Hlt. by rewrite Hlt.
    + right. apply N.ltb_lt in Hgt. by rewrite Hgt.
Qed.

Lemma Sorted_take {A} (R : relation A) n l : Sorted R l -> Sorted R (take n l).
Proof.
  intros H. revert n. induction H as [|x l Hl IH Hd]; intros [|n]; cbn; try constructor.
  - apply IH.
  - destruct Hd as [|y l' Hxy]; [destruct n; constructor|].
    destruct n; cbn; constructor. exact Hxy.
Qed.

Lemma first_page_sorted w : Sorted S3.key_le (first_page w).
Proof.
  unfold first_page, S3.sorted_keys. apply Sorted_take.
  apply (@Sorted_merge_sort _ S3.key_le _ key_le_total).
Qed.

Lemma sorted_keys_NoDup (objs : gmap (list N) (list N)) : NoDup (S3.sorted_keys objs).
Proof. rewrite (sorted_keys_perm objs). apply NoDup_fst_map_to_list. Qed.

Lemma first_page_elem w k : k ∈ first_page w -> is_Some (final w !! k).
Proof.
  unfold first_page. intros Hin. apply sorted_keys_elem.
  rewrite <- (take_drop S3.MaxKeys (S3.sorted_keys (final w))).
  apply elem_of_app. by left.
Qed.

Lemma first_page_leaves_out w :
  (S3.MaxKeys < size (final w))%nat ->
  exists k, is_Some (final w !! k) /\ k ∉ first_page w.
Proof.
  intros Hsize. rewrite <- sorted_keys_length in Hsize.
  pose proof (sorted_keys_NoDup (final w)) as Hnd.
  rewrite <- (take_drop S3.MaxKeys (S3.sorted_keys (final w))) in Hnd.
  apply NoDup_app in Hnd as (_ & Hdisj & _).
  destruct (drop S3.MaxKeys (S3.sorted_keys (final w))) as [|k l] eqn:Hdrop.
  - apply (f_equal length) in Hdrop. rewrite length_drop in Hdrop. cbn in Hdrop. lia.
  - exists k. split.
    + apply sorted_keys_elem.
      rewrite <- (take_drop S3.MaxKeys (S3.sorted_keys (final w))), Hdrop.
      apply elem_of_app. right. constructor.
    + intros Hin. apply (Hdisj k Hin). constructor.
Qed.

(** ** Further properties of get_movies *)

(** X1: whenever [get_movies] returns a list, the list is made of the
    deserialized bodies of the objects the single listing call names, one
    record per key and in the order of the keys, which is ascending; each
    of these keys is an object of the final bucket. *)
Theorem get_movies_follows_listing w movies :
  fst (get_movies w) = Returned movies ->
  Forall2 (record_of (final w)) (first_page w) movies
  /\ Sorted S3.key_le (first_page w)
  /\ (forall k, k ∈ first_page w -> is_Some (final w !! k)).
Proof.
  intros Hr. destruct (get_movies w) as [r w'] eqn:Hg. cbn in Hr. subst r.
  apply get_movies_inv in Hg as [_ Hg]. split; [by apply Hg|].
  split; [apply first_page_sorted | apply first_page_elem].
Qed.

Lemma get_movies_follows_listing_witness :
  Forall2 (record_of (final dune_approved)) (first_page dune_approved) [Movie_dict dune]
  /\ Sorted S3.key_le (first_page dune_approved)
  /\ (forall k, k ∈ first_page dune_approved -> is_Some (final dune_approved !! k)).
Proof.
  apply (get_movies_follows_listing dune_approved [Movie_dict dune]).
  vm_compute. reflexivity.
Defined.



(** X3: [get_movies] only reads: whatever it returns or raises, no object
    of any bucket is changed and no identifier is drawn; it only uses up
    storage calls. *)
Theorem get_movies_only_reads w :
  store (snd (get_movies w)) = store w
  /\ pending (snd (get_movies w)) = pending w
  /\ final (snd (get_movies w)) = final w
  /\ drawn (snd (get_movies w)) = drawn w
  /\ exists n, faults (snd (get_movies w)) = drop n (faults w).
Proof.
  destruct (get_movies_world w) as (Hs & _ & Hd & n & Hf).
  unfold pending, final, S3.objects. rewrite Hs.
  repeat split; [exact Hd|]. by exists n.
Qed.

(** X4: one object of the listed page that cannot be deserialized (its
    bytes are not UTF-8, or its text is not JSON) makes [get_movies] raise:
    no partial list is returned. *)
Theorem get_movies_aborts_on_bad_object w k b :
  k ∈ first_page w ->
  final w !! k = Some b ->
  deserialize b = None ->
  forall movies, fst (get_movies w) <> Returned movies.
Proof.
  intros Hin Hk Hbad movies Hr.
  destruct (get_movies w) as [r w'] eqn:Hg. cbn in Hr. subst r.
  apply get_movies_inv in Hg as [_ Hg]. specialize (Hg movies eq_refl).
  apply list_elem_of_lookup in Hin as [i Hi].
  destruct (Forall2_lookup_l _ _ _ _ _ Hg Hi) as (j & _ & b' & Hb' & Hd).
  rewrite Hk in Hb'. injection Hb' as <-. congruence.
Qed.

Lemma get_movies_aborts_on_bad_object_witness :
  fst (get_movies broken_final) <> Returned [].
Proof.
  apply (get_movies_aborts_on_bad_object broken_final (py "x.json") (py "oops")).
  - replace (first_page broken_final) with [py "x.json"] by (vm_compute; reflexivity).
    constructor.
  - vm_compute. reflexivity.
  - vm_compute. reflexivity.
Defined.

Example get_movies_bad_object_raises :
  fst (get_movies broken_final) = Raised JSONDecodeError.
Proof. vm_compute. reflexivity. Qed.

(** ** Further properties of submit_movie and approve_movie *)



(** X6: approving the same identifier a second time, after a first
    approval that succeeded, fails with the HTTP 400 error and changes no
    bucket. *)
Theorem approve_twice_fails movie_id content w :
  pending w !! object_key movie_id = Some content ->
  calm 3 w ->
  fst (approve_movie movie_id w) = Returned approved
  /\ fst (approve_movie movie_id (snd (approve_movie movie_id w))) = Raised not_found
  /\ store (snd (approve_movie movie_id (snd (approve_movie movie_id w))))
     = store (snd (approve_movie movie_id w)).
Proof.
  intros Hk Hc.
  destruct (approve_success movie_id content w Hk Hc) as (w' & -> & _ & Hp & _).
  cbn [fst snd]. split; [done|].
  assert (Hgone : pending w' !! object_key movie_id = None).
  { rewrite Hp. apply lookup_delete_eq. }
  rewrite (approve_absent movie_id w' Hgone). cbn [fst snd]. by split.
Qed.

Lemma approve_twice_fails_witness :
  fst (approve_movie dune_id (dune_submitted [])) = Returned approved
  /\ fst (approve_movie dune_id (snd (approve_movie dune_id (dune_submitted []))))
     = Raised not_found
  /\ store (snd (approve_movie dune_id (snd (approve_movie dune_id (dune_submitted [])))))
     = store (snd (approve_movie dune_id (dune_submitted []))).
Proof.
  apply (approve_twice_fails dune_id (json_mod.dumps (Movie_dict dune)) (dune_submitted [])).
  - vm_compute. reflexivity.
  - intros i Hi. vm_compute. destruct i; reflexivity.
Defined.

(** The effect of [approve_movie] on the two buckets, whatever fails. *)
Lemma approve_effect movie_id w :
  let w' := snd (approve_movie movie_id w) in
  (pending w' = pending w \/ pending w' = delete (object_key movie_id) (pending w))
  /\ (final w' = final w
      \/ exists b, pending w !! object_key movie_id = Some b
                   /\ final w' = <[object_key movie_id := b]> (final w)).
Proof.
  cbv zeta.
  destruct (pending w !! object_key movie_id) as [b|] eqn:Hk.
  2:{ rewrite (approve_absent movie_id w Hk). cbn [snd]. split; by left. }
  destruct (scheduled 0 w) as [e0|] eqn:H0.
  { rewrite (approve_fetch_fault movie_id e0 w H0). cbn [snd]. split; by left. }
  destruct (scheduled 1 w) as [e1|] eqn:H1.
  { rewrite (approve_copy_fault movie_id b e1 w Hk H0 H1). cbn [snd]. split; by left. }
  destruct (scheduled 2 w) as [e2|] eqn:H2.
  { destruct (approve_delete_fault movie_id b e2 w Hk H0 H1 H2) as (w' & -> & Hf & Hp).
    cbn [snd]. split; [by left|]. right. by exists b. }
  assert (Hc : calm 3 w).
  { intros i Hi. destruct i as [|[|[|i]]]; [done..|lia]. }
  destruct (approve_success movie_id b w Hk Hc) as (w' & -> & Hf & Hp & _).
  cbn [snd]. split; [by right|]. right. by exists b.
Qed.

(** X7: whatever happens during [approve_movie] (success, missing object,
    a storage call failing at any step), no object other than
    [{movie_id}.json] is added, changed or removed in the pending or the
    final bucket. *)
Theorem approve_touches_one_key movie_id w k :
  k <> object_key movie_id ->
  pending (snd (approve_movie movie_id w)) !! k = pending w !! k
  /\ final (snd (approve_movie movie_id w)) !! k = final w !! k.
Proof.
  intros Hne. destruct (approve_effect movie_id w) as [[Hp|Hp] [Hf|(b & _ & Hf)]];
    rewrite Hp, Hf; split;
    rewrite ?lookup_delete_ne, ?lookup_insert_ne by (intros E; by apply Hne); done.
Qed.

Lemma approve_touches_one_key_witness :
  pending (snd (approve_movie (py "other") (dune_submitted []))) !! object_key dune_id
  = pending (dune_submitted []) !! object_key dune_id
  /\ final (snd (approve_movie (py "other") (dune_submitted []))) !! object_key dune_id
     = final (dune_submitted []) !! object_key dune_id.
Proof.
  apply (approve_touches_one_key (py "other") (dune_submitted []) (object_key dune_id)).
  vm_compute. discriminate.
Defined.

Lemma scheduled_tail w w' i :
  faults w' = tail (faults w) -> scheduled i w' = scheduled (S i) w.
Proof. intros H. unfold scheduled. rewrite H. by destruct (faults w). Qed.

(** X8: a record that is submitted and then approved under the identifier
    [submit_movie] returned ends up in the final bucket with exactly the
    bytes that were written at submission, and is no longer pending. *)
Theorem submit_then_approve movie w :
  calm 4 w ->
  let movie_id := issued w (drawn w) in
  let w1 := snd (submit_movie movie w) in
  fst (submit_movie movie w) = Returned (submitted movie_id)
  /\ fst (approve_movie movie_id w1) = Returned approved
  /\ final (snd (approve_movie movie_id w1)) !! object_key movie_id
     = Some (json_mod.dumps (Movie_dict movie))
  /\ pending (snd (approve_movie movie_id w1)) !! object_key movie_id = None.
Proof.
  intros Hc movie_id w1.
  assert (H0 : scheduled 0 w = None) by (apply Hc; lia).
  destruct (submit_success movie w H0) as (w' & Hs & Hp & _ & _ & _ & Hfs).
  subst w1. rewrite Hs. cbn [fst snd]. split; [done|].
  assert (Hk : pending w' !! object_key movie_id = Some (json_mod.dumps (Movie_dict movie))).
  { rewrite Hp. apply lookup_insert_eq. }
  assert (Hc' : calm 3 w').
  { intros i Hi. rewrite (scheduled_tail w w' i Hfs). apply Hc. lia. }
  destruct (approve_success movie_id _ w' Hk Hc') as (w2 & -> & Hf2 & Hp2 & _).
  cbn [fst snd]. split; [done|]. rewrite Hf2, Hp2.
  split; [apply lookup_insert_eq | apply lookup_delete_eq].
Qed.

Lemma submit_then_approve_witness :
  let w := initial dune_random [] in
  let movie_id := issued w (drawn w) in
  let w1 := snd (submit_movie dune w) in
  fst (submit_movie dune w) = Returned (submitted movie_id)
  /\ fst (approve_movie movie_id w1) = Returned approved
  /\ final (snd (approve_movie movie_id w1)) !! object_key movie_id
     = Some (json_mod.dumps (Movie_dict dune))
  /\ pending (snd (approve_movie movie_id w1)) !! object_key movie_id = None.
Proof.
  intros w. apply (submit_then_approve dune w).
  intros i Hi. unfold scheduled. cbn. by rewrite lookup_nil.
Defined.

Lemma records_exist (objs : gmap (list N) (list N)) keys :
  (forall k, k ∈ keys -> exists j, record_of objs k j) ->
  exists js, Forall2 (record_of objs) keys js.
Proof.
  induction keys as [|k keys IH]; intros H.
  - exists []. constructor.
  - destruct (H k) as [j Hj]; [constructor|].
    destruct IH as [js Hjs]; [intros k' Hk'; apply H; by constructor|].
    exists (j :: js). by constructor.
Qed.

Lemma record_of_functional objs k j1 j2 :
  record_of objs k j1 -> record_of objs k j2 -> j1 = j2.
Proof. intros (b1 & H1 & D1) (b2 & H2 & D2). congruence. Qed.

(** X9: when the final bucket holds fewer than 1000 objects, all of them
    deserializable, and no storage call fails, a record that has just been
    approved is in the list [get_movies] returns. *)
Theorem approve_then_listed movie_id content movie w :
  pending w !! object_key movie_id = Some content ->
  deserialize content = Some movie ->
  calm_forever w ->
  (size (final w) < 1000)%nat ->
  (forall k b, final w !! k = Some b -> is_Some (deserialize b)) ->
  exists movies,
    fst (get_movies (snd (approve_movie movie_id w))) = Returned movies
    /\ In movie movies.
Proof.
  intros Hk Hd Hc Hsize Hall.
  destruct (approve_success movie_id content w Hk (calm_forever_calm 3 w Hc))
    as (w1 & -> & Hf & _ & _ & _ & Hfs).
  cbn [snd].
  assert (Hc1 : calm_forever w1) by exact (calm_forever_drop w w1 3 Hfs Hc).
  assert (Hpage : first_page w1 = S3.sorted_keys (final w1)).
  { apply first_page_all. rewrite Hf. change S3.MaxKeys with 1000%nat.
    destruct (final w !! object_key movie_id) as [b0|] eqn:E.
    - rewrite map_size_insert_Some by (rewrite E; eauto). lia.
    - rewrite map_size_insert_None by exact E. lia. }
  assert (Hrec : forall k, k ∈ first_page w1 -> exists j, record_of (final w1) k j).
  { intros k Hin. apply first_page_elem in Hin as [b Hb].
    rewrite Hf in Hb. rewrite Hf.
    destruct (decide (object_key movie_id = k)) as [<-|Hne].
    - exists movie, content. by rewrite lookup_insert_eq.
    - rewrite lookup_insert_ne in Hb by done.
      destruct (Hall k b Hb) as [j Hj]. exists j, b. by rewrite lookup_insert_ne. }
  destruct (records_exist _ _ Hrec) as [movies Hmovies].
  exists movies. split.
  - apply get_movies_ok; [by apply calm_forever_calm | exact Hmovies].
  - assert (Hin : object_key movie_id ∈ first_page w1).
    { rewrite Hpage. apply sorted_keys_elem. rewrite Hf, lookup_insert_eq. eauto. }
    apply list_elem_of_lookup in Hin as [i Hi].
    destruct (Forall2_lookup_l _ _ _ _ _ Hmovies Hi) as (j & Hj & Hrj).
    assert (j = movie) as ->.
    { apply (record_of_functional (final w1) (object_key movie_id)); [exact Hrj|].
      exists content. by rewrite Hf, lookup_insert_eq. }
    apply list_elem_of_In, list_elem_of_lookup. eauto.
Qed.

Lemma dune_submitted_final : final (dune_submitted []) = ∅.
Proof. vm_compute. reflexivity. Qed.

Lemma approve_then_listed_witness :
  exists movies,
    fst (get_movies (snd (approve_movie dune_id (dune_submitted [])))) = Returned movies
    /\ In (Movie_dict dune) movies.
Proof.
  apply (approve_then_listed dune_id (json_mod.dumps (Movie_dict dune)) (Movie_dict dune)
           (dune_submitted [])).
  - vm_compute. reflexivity.
  - vm_compute. reflexivity.
  - intros i. vm_compute. destruct i; reflexivity.
  - rewrite dune_submitted_final. vm_compute. lia.
  - intros k b. rewrite dune_submitted_final, lookup_empty. discriminate.
Defined.

(** ** No record is lost *)

Lemma submit_present movie w :
  calm_forever w -> all_present w -> all_present (snd (submit_movie movie w)).
Proof.
  intros Hc Hall.
  destruct (submit_success movie w (Hc 0%nat)) as (w' & -> & Hp & Hf & Hu & Hn & _).
  cbn [snd]. intros i Hi. rewrite Hn in Hi. rewrite Hp, Hf, (issued_same w w' i Hu).
  destruct (decide (object_key (issued w (drawn w)) = object_key (issued w i))) as [<-|Hne].
  - left. rewrite lookup_insert_eq. eauto.
  - rewrite (lookup_insert_ne _ _ _ _ Hne). apply Hall.
    destruct (decide (i = drawn w)) as [->|]; [by destruct Hne|lia].
Qed.

Lemma approve_present movie_id w :
  calm_forever w -> all_present w -> all_present (snd (approve_movie movie_id w)).
Proof.
  intros Hc Hall.
  destruct (pending w !! object_key movie_id) as [b|] eqn:Hp.
  - destruct (approve_success movie_id b w Hp (calm_forever_calm 3 w Hc))
      as (w' & -> & Hf' & Hp' & Hu & Hn & _).
    cbn [snd]. intros i Hi. rewrite Hn in Hi.
    rewrite Hp', Hf', (issued_same w w' i Hu).
    destruct (decide (object_key movie_id = object_key (issued w i))) as [<-|Hne].
    + right. rewrite lookup_insert_eq. eauto.
    + rewrite (lookup_delete_ne _ _ _ Hne), (lookup_insert_ne _ _ _ _ Hne). by apply Hall.
  - rewrite (approve_absent movie_id w Hp). cbn [snd]. exact Hall.
Qed.

Lemma list_present w : all_present w -> all_present (snd (handle ListFinal w)).
Proof.
  intros Hall. destruct (handle_list_world w) as (Hs & Hu & Hn & _).
  intros i Hi. rewrite Hn in Hi. unfold pending, final, S3.objects.
  rewrite Hs, (issued_same w _ i Hu). by apply Hall.
Qed.

Lemma run_accounted rs w :
  tidy w -> all_present w ->
  distinct_draws (urandom w) (drawn w + submissions rs) ->
  tidy (snd (run rs w)) /\ all_present (snd (run rs w))
  /\ urandom (snd (run rs w)) = urandom w
  /\ drawn (snd (run rs w)) = (drawn w + submissions rs)%nat.
Proof.
  revert w. induction rs as [|r rs IH]; intros w Hw Hall Hdraws.
  - cbn [run snd]. unfold submissions. cbn. by rewrite Nat.add_0_r.
  - rewrite run_cons. cbn [snd]. rewrite submissions_cons in *.
    assert (Hc : calm_forever w) by apply Hw.
    destruct r as [movie| |movie_id]; cbn [is_submit handle] in *.
    + destruct (submit_tidy movie w Hw) as (Hw' & Hu & Hn).
      { intros i Hi. apply Hdraws; lia. }
      destruct (IH (snd (submit_movie movie w))) as (H1 & H2 & H3 & H4);
        [exact Hw' | by apply submit_present | |].
      * rewrite Hu, Hn.
        replace (S (drawn w) + submissions rs)%nat
          with (drawn w + (1 + submissions rs))%nat by lia.
        exact Hdraws.
      * repeat split; [apply H1..|exact H2|congruence|lia].
    + destruct (list_tidy w Hw) as (Hw' & Hu & Hn). cbn [handle] in Hw', Hu, Hn.
      destruct (IH _ Hw' (list_present w Hall)) as (H1 & H2 & H3 & H4).
      * by rewrite Hu, Hn.
      * repeat split; [apply H1..|exact H2|congruence|lia].
    + destruct (approve_tidy movie_id w Hw) as (Hw' & Hu & Hn).
      destruct (IH _ Hw' (approve_present movie_id w Hc Hall)) as (H1 & H2 & H3 & H4).
      * by rewrite Hu, Hn.
      * repeat split; [apply H1..|exact H2|congruence|lia].
Qed.

(** X10: along an execution from empty buckets in which no storage call
    fails and the random source gives different UUIDs, one identifier is
    drawn per submission and no record is lost or duplicated: the object
    of every identifier issued is in exactly one of the two buckets. *)
Theorem run_keeps_every_record rs random fs :
  Forall (fun f => f = None) fs ->
  distinct_draws random (submissions rs) ->
  let w := snd (run rs (initial random fs)) in
  drawn w = submissions rs
  /\ forall i, (i < submissions rs)%nat ->
       let key := object_key (uuid.str (uuid.UUID_v4 (random i))) in
       (is_Some (pending w !! key) /\ final w !! key = None)
       \/ (pending w !! key = None /\ is_Some (final w !! key)).
Proof.
  intros Hfs Hdraws w.
  destruct (run_accounted rs (initial random fs)) as ((_ & Hone & _) & Hall & Hu & Hn).
  - by apply tidy_initial.
  - intros i Hi. cbn in Hi. lia.
  - exact Hdraws.
  - fold w in Hone, Hall, Hu, Hn. cbn in Hn, Hu. split; [exact Hn|].
    intros i Hi key.
    assert (Hkey : key = object_key (issued w i)).
    { unfold key. rewrite <- Hu. reflexivity. }
    rewrite Hkey. rewrite <- Hn in Hi.
    destruct (Hall i Hi) as [Hp|Hf]; destruct (Hone (object_key (issued w i))) as [E|E].
    + rewrite E in Hp. by destruct Hp.
    + left. by split.
    + right. by split.
    + rewrite E in Hf. by destruct Hf.
Qed.

Lemma run_keeps_every_record_witness :
  let w := snd (run [Submit dune; Approve (uuid.str (uuid.UUID_v4 (counting_random 0)));
                     Submit dune; ListFinal]
                    (initial counting_random [None; None])) in
  drawn w = 2%nat
  /\ forall i, (i < 2)%nat ->
       let key := object_key (uuid.str (uuid.UUID_v4 (counting_random i))) in
       (is_Some (pending w !! key) /\ final w !! key = None)
       \/ (pending w !! key = None /\ is_Some (final w !! key)).
Proof.
  apply (run_keeps_every_record
           [Submit dune; Approve (uuid.str (uuid.UUID_v4 (counting_random 0)));
            Submit dune; ListFinal]
           counting_random [None; None]).
  - repeat constructor.
  - intros i j Hij Hj. change (submissions _) with 2%nat in Hj.
    assert (i = 0%nat /\ j = 1%nat) as [-> ->] by lia.
    vm_compute. discriminate.
Defined.

(** ** Reading back what json.dumps wrote *)

(** ** Reading back what json.dumps wrote *)

Lemma lor_shiftl_low a b k : b < 2 ^ k -> N.lor (N.shiftl a k) b = a * 2 ^ k + b.
Proof.
  intros Hb. rewrite <- N.shiftl_mul_pow2.
  rewrite <- N.lxor_lor, <- N.add_nocarry_lxor; try done.
  all: apply N.bits_inj_0; intros i; rewrite N.land_spec.
  all: destruct (N.ltb_spec i k) as [Hi|Hi].
  all: try (rewrite (N.shiftl_spec_low a k i Hi); reflexivity).
  all: rewrite <- (N.mod_small b (2 ^ k) Hb), (N.mod_pow2_bits_high b k i Hi);
       apply andb_false_r.
Qed.

Lemma surrogate_half (base x : N) :
  (base = 0xd800 \/ base = 0xdc00) -> x < 1024 ->
  N.lor base x = base + x.
Proof.
  intros Hbase Hx.
  pose proof (N_below_forallb
    (fun x => (N.lor 0xd800 x =? 0xd800 + x) && (N.lor 0xdc00 x =? 0xdc00 + x)) 1024) as H.
  specialize (H ltac:(vm_compute; reflexivity) x Hx). cbv beta in H.
  apply andb_prop in H as [H1%N.eqb_eq H2%N.eqb_eq].
  by destruct Hbase as [-> | ->].
Qed.

Lemma surrogate_pair_joins n :
  n < 0x100000 ->
  let s1 := N.lor 0xd800 (N.land (N.shiftr n 10) 0x3ff) in
  let s2 := N.lor 0xdc00 (N.land n 0x3ff) in
  s1 mod 65536 = s1 /\ s2 mod 65536 = s2
  /\ json_mod.is_high_surrogate s1 = true
  /\ json_mod.is_low_surrogate s2 = true
  /\ json_mod.join_surrogates s1 s2 = 0x10000 + n.
Proof.
  intros Hn. cbv zeta.
  change 0x3ff with (N.ones 10). rewrite !N.land_ones, N.shiftr_div_pow2.
  change (2 ^ 10) with 1024.
  assert (Ha : (n / 1024) mod 1024 < 1024) by (apply N.mod_lt; lia).
  assert (Hb : n mod 1024 < 1024) by (apply N.mod_lt; lia).
  rewrite (surrogate_half 0xd800), (surrogate_half 0xdc00) by auto.
  set (a := (n / 1024) mod 1024) in *. set (b := n mod 1024) in *.
  unfold json_mod.is_high_surrogate, json_mod.is_low_surrogate, json_mod.join_surrogates.
  replace (0xd800 + a - 0xd800) with a by lia.
  replace (0xdc00 + b - 0xdc00) with b by lia.
  rewrite (lor_shiftl_low a b 10) by exact Hb.
  assert (Hn' : n = a * 2 ^ 10 + b).
  { unfold a, b. change (2 ^ 10) with 1024.
    rewrite (N.mod_small (n / 1024) 1024).
    - rewrite N.mul_comm. apply N.div_mod. lia.
    - apply N.Div0.div_lt_upper_bound. lia. }
  repeat split.
  - apply N.mod_small. lia.
  - apply N.mod_small. lia.
  - apply andb_true_intro. split; apply N.leb_le; lia.
  - apply andb_true_intro. split; apply N.leb_le; lia.
  - lia.
Qed.
Lemma scanstring_escape_char c fuel r :
  is_scalar c ->
  json_mod.scanstring (S fuel) (json_mod.escape_char c ++ r)
  = '(t, r') ← json_mod.scanstring fuel r; Some (c :: t, r').
Proof.
  intros Hc. unfold json_mod.escape_char.
  destruct (N.eqb_spec c 92) as [->|H92]; [reflexivity|].
  destruct (N.eqb_spec c 34) as [->|H34]; [reflexivity|].
  destruct (N.eqb_spec c 8) as [->|H8]; [reflexivity|].
  destruct (N.eqb_spec c 12) as [->|H12]; [reflexivity|].
  destruct (N.eqb_spec c 10) as [->|H10]; [reflexivity|].
  destruct (N.eqb_spec c 13) as [->|H13]; [reflexivity|].
  destruct (N.eqb_spec c 9) as [->|H9]; [reflexivity|].
  destruct ((32 <=? c) && (c <=? 126)) eqn:Hp.
  - apply andb_prop in Hp as [Hlo%N.leb_le Hhi%N.leb_le].
    cbn [app json_mod.scanstring].
    rewrite (proj2 (N.eqb_neq c 34) H34), (proj2 (N.eqb_neq c 92) H92).
    rewrite (proj2 (N.ltb_ge c 32) Hlo). reflexivity.
  - destruct (N.ltb_spec c 65536) as [Hlt|Hge].
    + rewrite <- app_assoc. change (py "\u") with [92; 117]. cbn [app].
      cbn -[format_hex json_mod.decode_uXXXX json_mod.is_high_surrogate].
      rewrite decode_uXXXX_format_hex, (N.mod_small c 65536 Hlt).
      assert (Hh : json_mod.is_high_surrogate c = false).
      { unfold json_mod.is_high_surrogate. apply andb_false_iff.
        destruct Hc as [Hc|[Hc _]]; [left; apply N.leb_gt; lia | right; apply N.leb_gt; lia]. }
      rewrite Hh. reflexivity.
    + assert (Hn : c - 65536 < 0x100000) by (destruct Hc as [Hc|[_ Hc]]; lia).
      destruct (surrogate_pair_joins (c - 65536) Hn) as (M1 & M2 & Hh & Hl & Hj).
      cbv zeta in M1, M2, Hh, Hl, Hj. cbv zeta.
      change 55296 with 0xd800. change 56320 with 0xdc00. change 1023 with 0x3ff.
      set (s1 := N.lor 0xd800 (N.land (N.shiftr (c - 65536) 10) 0x3ff)) in *.
      set (s2 := N.lor 0xdc00 (N.land (c - 65536) 0x3ff)) in *.
      rewrite <- !app_assoc. change (py "\u") with [92; 117]. cbn [app].
      cbn -[format_hex json_mod.decode_uXXXX json_mod.is_high_surrogate
            json_mod.is_low_surrogate json_mod.join_surrogates].
      rewrite decode_uXXXX_format_hex, M1, Hh.
      cbn -[format_hex json_mod.decode_uXXXX json_mod.is_high_surrogate
            json_mod.is_low_surrogate json_mod.join_surrogates].
      rewrite decode_uXXXX_format_hex, M2, Hl, Hj.
      replace (0x10000 + (c - 65536)) with c by lia. reflexivity.
Qed.

Lemma scanstring_escape s rest fuel :
  is_text s -> (length s < fuel)%nat ->
  json_mod.scanstring fuel (json_mod.escape s ++ 34 :: rest) = Some (s, rest).
Proof.
  intros Hs. revert fuel. induction Hs as [|c s Hc Hs IH]; intros fuel Hfuel.
  - destruct fuel; [cbn in Hfuel; lia|]. reflexivity.
  - destruct fuel as [|fuel]; [cbn in Hfuel; lia|].
    change (json_mod.escape (c :: s)) with (json_mod.escape_char c ++ json_mod.escape s).
    rewrite <- app_assoc, (scanstring_escape_char c fuel _ Hc).
    rewrite IH by (cbn in Hfuel; lia). reflexivity.
Qed.

Lemma escape_length s : (length s <= length (json_mod.escape s))%nat.
Proof.
  induction s as [|c s IH]; [done|].
  change (json_mod.escape (c :: s)) with (json_mod.escape_char c ++ json_mod.escape s).
  rewrite length_app. cbn [length].
  assert (1 <= length (json_mod.escape_char c))%nat; [|lia].
  unfold json_mod.escape_char.
  repeat (destruct (_ =? _); [cbn; lia|]).
  destruct (_ && _); [cbn; lia|].
  destruct (_ <? _); rewrite ?length_app; cbn; lia.
Qed.

(** Decimal digits. *)
Lemma uint_chars_digits u : forallb json_mod.is_digit (json_mod.uint_chars u) = true.
Proof. induction u; cbn [json_mod.uint_chars forallb]; try rewrite IHu; reflexivity. Qed.

Lemma span_digits_app ds r :
  forallb json_mod.is_digit ds = true ->
  match r with [] => True | c :: _ => json_mod.is_digit c = false end ->
  json_mod.span_digits (ds ++ r) = (ds, r).
Proof.
  intros Hds Hr. induction ds as [|d ds IH].
  - cbn [app]. destruct r as [|c r]; [reflexivity|]. cbn [json_mod.span_digits]. by rewrite Hr.
  - cbn [forallb] in Hds. apply andb_prop in Hds as [Hd Hds].
    cbn [app json_mod.span_digits]. rewrite Hd, (IH Hds). reflexivity.
Qed.

Lemma chars_uint_uint_chars u : json_mod.chars_uint (json_mod.uint_chars u) = u.
Proof.
  unfold json_mod.chars_uint.
  induction u; cbn [json_mod.uint_chars foldr]; try rewrite IHu; reflexivity.
Qed.

Lemma to_uint_head p :
  exists c ds, json_mod.uint_chars (Pos.to_uint p) = c :: ds
               /\ json_mod.is_digit c = true /\ c <> 48 /\ c <> 45.
Proof.
  pose proof (DecimalPos.Unsigned.to_uint_nonzero p) as Hnz.
  pose proof (DecimalN.Unsigned.to_of (Pos.to_uint p)) as Hnorm.
  change (N.of_uint (Pos.to_uint p)) with (Pos.of_uint (Pos.to_uint p)) in Hnorm.
  rewrite DecimalPos.Unsigned.of_to in Hnorm. cbn [N.to_uint] in Hnorm.
  destruct (Pos.to_uint p) as [|u|u|u|u|u|u|u|u|u|u] eqn:E;
    try (eexists _, _; split; [reflexivity|]; split; [reflexivity|]; split; discriminate).
  - symmetry in Hnorm. by apply DecimalFacts.unorm_nonnil in Hnorm.
  - exfalso. rewrite DecimalFacts.unorm_D0 in Hnorm.
    unfold unorm in Hnorm.
    destruct (nzhead u) eqn:En; try discriminate.
    + by destruct Hnz.
    + by apply DecimalFacts.nzhead_nonzero in En.
Qed.

Lemma int_of_text_int_repr z : json_mod.int_of_text (json_mod.int_repr z) = z.
Proof.
  destruct z as [|p|p]; cbn [json_mod.int_repr].
  - reflexivity.
  - destruct (to_uint_head p) as (c & ds & E & _ & _ & H45).
    unfold json_mod.int_of_text. rewrite E.
    rewrite (proj2 (N.eqb_neq c 45) H45), <- E, chars_uint_uint_chars.
    change (N.of_uint (Pos.to_uint p)) with (Pos.of_uint (Pos.to_uint p)).
    by rewrite DecimalPos.Unsigned.of_to.
  - unfold json_mod.int_of_text. rewrite N.eqb_refl, chars_uint_uint_chars.
    change (N.of_uint (Pos.to_uint p)) with (Pos.of_uint (Pos.to_uint p)).
    by rewrite DecimalPos.Unsigned.of_to.
Qed.

Lemma match_integer_uint p r :
  match r with [] => True | c :: _ => json_mod.is_digit c = false end ->
  json_mod.match_integer (json_mod.uint_chars (Pos.to_uint p) ++ r)
  = Some (json_mod.uint_chars (Pos.to_uint p), r).
Proof.
  intros Hr. destruct (to_uint_head p) as (c & ds & E & Hd & H48 & H45).
  pose proof (span_digits_app _ r (uint_chars_digits (Pos.to_uint p)) Hr) as Hspan.
  rewrite E in *. unfold json_mod.match_integer. cbn [app] in *.
  rewrite (proj2 (N.eqb_neq c 45) H45), (proj2 (N.eqb_neq c 48) H48), Hd.
  rewrite Hspan. reflexivity.
Qed.

Lemma match_integer_int_repr z r :
  match r with [] => True | c :: _ => json_mod.is_digit c = false end ->
  json_mod.match_integer (json_mod.int_repr z ++ r) = Some (json_mod.int_repr z, r).
Proof.
  intros Hr. destruct z as [|p|p]; cbn [json_mod.int_repr].
  - reflexivity.
  - by apply match_integer_uint.
  - destruct (to_uint_head p) as (c & ds & E & Hd & H48 & H45).
    pose proof (span_digits_app _ r (uint_chars_digits (Pos.to_uint p)) Hr) as Hspan.
    rewrite E in *. unfold json_mod.match_integer. cbn [app] in *.
    rewrite N.eqb_refl, (proj2 (N.eqb_neq c 48) H48), Hd.
    rewrite Hspan. reflexivity.
Qed.

(** A number followed by a comma or a closing brace. *)
Lemma match_number_int_repr z c r :
  c = 44 \/ c = 125 ->
  json_mod.match_number (json_mod.int_repr z ++ c :: r) = Some (JInt z, c :: r).
Proof.
  intros Hc. unfold json_mod.match_number.
  rewrite match_integer_int_repr by (destruct Hc as [-> | ->]; reflexivity).
  assert (Hf : json_mod.match_frac (c :: r) = ([], c :: r))
    by (destruct Hc as [-> | ->]; reflexivity).
  assert (He : json_mod.match_exp (c :: r) = ([], c :: r))
    by (destruct Hc as [-> | ->]; reflexivity).
  rewrite Hf, He, int_of_text_int_repr. reflexivity.
Qed.

(** Values as [_scan_once] reads them back. *)
Lemma scan_once_string fuel s rest :
  is_text s ->
  json_mod.scan_once (S fuel) (34 :: json_mod.escape s ++ 34 :: rest) = Some (JStr s, rest).
Proof.
  intros Hs. cbn [json_mod.scan_once]. change (34 =? 34) with true. cbv iota.
  rewrite scanstring_escape; [reflexivity | exact Hs |].
  rewrite length_app. cbn [length]. pose proof (escape_length s). lia.
Qed.

Lemma int_repr_head z :
  exists h tl, json_mod.int_repr z = h :: tl /\ (json_mod.is_digit h = true \/ h = 45).
Proof.
  destruct z as [|p|p]; cbn [json_mod.int_repr].
  - eexists _, _. split; [reflexivity|]. by left.
  - destruct (to_uint_head p) as (c & ds & E & Hd & _). exists c, ds. by split; [|left].
  - eexists _, _. split; [reflexivity|]. by right.
Qed.

Lemma scan_once_int fuel z c r :
  c = 44 \/ c = 125 ->
  json_mod.scan_once (S fuel) (json_mod.int_repr z ++ c :: r) = Some (JInt z, c :: r).
Proof.
  intros Hc. pose proof (match_number_int_repr z c r Hc) as Hnum.
  destruct (int_repr_head z) as (h & tl & E & Hh). rewrite E in *. cbn [app] in *.
  assert (Hne : forall x, In x [34; 123; 91; 110; 116; 102] -> (h =? x) = false).
  { intros x Hx. apply N.eqb_neq. intros ->.
    destruct Hh as [Hd| ->].
    - unfold json_mod.is_digit in Hd. apply andb_prop in Hd as [H1%N.leb_le H2%N.leb_le].
      cbn in Hx. lia.
    - cbn in Hx. lia. }
  cbn [json_mod.scan_once].
  rewrite (Hne 34), (Hne 123), (Hne 91) by (cbn; auto).
  unfold json_mod.first_some, json_mod.literal.
  change (py "null") with [110; 117; 108; 108].
  change (py "true") with [116; 114; 117; 101].
  change (py "false") with [102; 97; 108; 115; 101].
  cbn [json_mod.strip_prefix].
  rewrite (N.eqb_sym 110 h), (N.eqb_sym 116 h), (N.eqb_sym 102 h).
  rewrite (Hne 110), (Hne 116), (Hne 102) by (cbn; auto 10).
  cbn [fmap option_fmap option_map]. rewrite Hnum. reflexivity.
Qed.

(** White space skipping on the separators that [dumps] writes. *)
Lemma skip_ws_nonws c s : json_mod.is_ws c = false -> json_mod.skip_ws (c :: s) = c :: s.
Proof. intros H. cbn [json_mod.skip_ws]. rewrite H. reflexivity. Qed.

Lemma skip_ws_space s : json_mod.skip_ws (32 :: s) = json_mod.skip_ws s.
Proof. reflexivity. Qed.

(** One [key: value] member followed by another one, and the last one. *)
Lemma object_members_next fuel k V v rest pairs :
  is_text k ->
  json_mod.skip_ws V = V ->
  json_mod.scan_once fuel V = Some (v, 44 :: 32 :: 34 :: rest) ->
  json_mod.object_members (S fuel) (json_mod.escape k ++ 34 :: 58 :: 32 :: V) pairs
  = json_mod.object_members fuel rest (pairs ++ [(k, v)]).
Proof.
  intros Hk Hws Hv. cbn [json_mod.object_members].
  rewrite scanstring_escape;
    [| exact Hk | rewrite length_app; cbn [length]; pose proof (escape_length k); lia].
  cbn [mbind option_bind].
  rewrite (skip_ws_nonws 58) by reflexivity.
  change (58 =? 58) with true. cbv iota.
  rewrite skip_ws_space, Hws, Hv. cbn [mbind option_bind].
  rewrite (skip_ws_nonws 44) by reflexivity.
  change (44 =? 125) with false. change (44 =? 44) with true. cbv iota.
  rewrite skip_ws_space, (skip_ws_nonws 34) by reflexivity.
  reflexivity.
Qed.

Lemma object_members_last fuel k V v rest pairs :
  is_text k ->
  json_mod.skip_ws V = V ->
  json_mod.scan_once fuel V = Some (v, 125 :: rest) ->
  json_mod.object_members (S fuel) (json_mod.escape k ++ 34 :: 58 :: 32 :: V) pairs
  = Some (JObj (json_mod.dict_of_pairs (pairs ++ [(k, v)])), rest).
Proof.
  intros Hk Hws Hv. cbn [json_mod.object_members].
  rewrite scanstring_escape;
    [| exact Hk | rewrite length_app; cbn [length]; pose proof (escape_length k); lia].
  cbn [mbind option_bind].
  rewrite (skip_ws_nonws 58) by reflexivity.
  change (58 =? 58) with true. cbv iota.
  rewrite skip_ws_space, Hws, Hv. cbn [mbind option_bind].
  rewrite (skip_ws_nonws 125) by reflexivity.
  reflexivity.
Qed.

Lemma is_ascii_is_text s : is_ascii s -> is_text s.
Proof.
  intros H. eapply Forall_impl; [exact H|]. intros c Hc. left.
  apply N.lt_trans with 128; [exact Hc | reflexivity].
Qed.

Lemma skip_ws_int_repr z r :
  json_mod.skip_ws (json_mod.int_repr z ++ r) = json_mod.int_repr z ++ r.
Proof.
  destruct (int_repr_head z) as (h & tl & E & Hh). rewrite E. cbn [app].
  apply skip_ws_nonws. unfold json_mod.is_ws, json_mod.is_digit in *.
  destruct Hh as [Hd | ->]; [|reflexivity].
  apply andb_true_iff in Hd as [H1 H2].
  apply N.leb_le in H1.
  rewrite !orb_false_iff. repeat split; apply N.eqb_neq; lia.
Qed.

(** The text of a three-member object with a string, an integer and a
    string, as [dumps] lays it out. *)
Lemma dumps_object3 k1 k2 k3 t y g :
  json_mod.dumps (JObj [(k1, JStr t); (k2, JInt y); (k3, JStr g)])
  = 123 :: 34 :: json_mod.escape k1 ++ 34 :: 58 :: 32 ::
      (34 :: json_mod.escape t ++ 34 :: 44 :: 32 :: 34 ::
         json_mod.escape k2 ++ 34 :: 58 :: 32 ::
           (json_mod.int_repr y ++ 44 :: 32 :: 34 ::
              json_mod.escape k3 ++ 34 :: 58 :: 32 ::
                (34 :: json_mod.escape g ++ 34 :: [125]))).
Proof.
  cbn [json_mod.dumps map json_mod.join_comma fst snd].
  unfold json_mod.encode_basestring_ascii.
  change (py "{") with [123]. change (py "}") with [125].
  change (py ": ") with [58; 32]. change (py ", ") with [44; 32].
  cbn [app]. repeat (rewrite <- ?app_assoc; cbn [app]).
  reflexivity.
Qed.

Lemma scan_once_object3 n k1 k2 k3 t y g :
  is_text k1 -> is_text k2 -> is_text k3 -> is_text t -> is_text g ->
  json_mod.scan_once (S (S (S (S (S n)))))
    (json_mod.dumps (JObj [(k1, JStr t); (k2, JInt y); (k3, JStr g)]))
  = Some (JObj (json_mod.dict_of_pairs [(k1, JStr t); (k2, JInt y); (k3, JStr g)]), []).
Proof.
  intros H1 H2 H3 Ht Hg. rewrite dumps_object3.
  change (json_mod.scan_once (S ?f) (123 :: 34 :: ?r))
    with (json_mod.object_members f r []).
  erewrite object_members_next;
    [| exact H1 | apply skip_ws_nonws; reflexivity | apply scan_once_string; exact Ht].
  erewrite object_members_next;
    [| exact H2 | apply skip_ws_int_repr | apply scan_once_int; by left].
  erewrite object_members_last;
    [| exact H3 | apply skip_ws_nonws; reflexivity | apply scan_once_string; exact Hg].
  reflexivity.
Qed.

Lemma loads_object s t :
  s = 123 :: t ->
  json_mod.loads s
  = '(v, r) ← json_mod.scan_once (S (length s)) s;
    match json_mod.skip_ws r with [] => Some v | _ :: _ => None end.
Proof. intros ->. reflexivity. Qed.

(** [json.loads (json.dumps (movie.dict ()))] gives the dictionary back,
    for titles and genres made of Unicode scalar values. *)
Lemma loads_dumps_movie movie :
  is_text (title movie) -> is_text (genre movie) ->
  json_mod.loads (json_mod.dumps (Movie_dict movie)) = Some (Movie_dict movie).
Proof.
  intros Ht Hg. unfold Movie_dict.
  erewrite loads_object by apply dumps_object3.
  destruct (length _) as [|[|[|[|n]]]] eqn:E;
    try (rewrite dumps_object3 in E; cbn [length] in E;
         rewrite length_app in E; cbn [length] in E; lia).
  rewrite scan_once_object3;
    [| apply is_ascii_is_text; ascii_literal ..| exact Ht | exact Hg].
  reflexivity.
Qed.

Lemma deserialize_dumps_movie movie :
  is_text (title movie) -> is_text (genre movie) ->
  deserialize (json_mod.dumps (Movie_dict movie)) = Some (Movie_dict movie).
Proof.
  intros Ht Hg. unfold deserialize.
  rewrite (utf8_decode_ascii _ (dumps_movie_ascii movie)).
  cbn [mbind option_bind]. by apply loads_dumps_movie.
Qed.

(** ** What is stored reads back as the record *)

(** X11: the body [submit_movie] stores, for a record whose title and genre
    are Unicode text, deserializes (as [get_movies] does it: UTF-8 decoding,
    then [json.loads]) to the dictionary of the record: the three fields
    title, year and genre with the submitted values, and no identifier. *)
Theorem submitted_body_reads_back movie w :
  text_movie movie ->
  scheduled 0 w = None ->
  exists body,
    pending (snd (submit_movie movie w)) !! object_key (issued w (drawn w)) = Some body
    /\ deserialize body
       = Some (JObj [(py "title", JStr (title movie)); (py "year", JInt (year movie));
                     (py "genre", JStr (genre movie))]).
Proof.
  intros [Ht Hg] H0.
  destruct (submit_success movie w H0) as (w' & -> & Hp & _).
  cbn [snd]. exists (json_mod.dumps (Movie_dict movie)). split.
  - by rewrite Hp, lookup_insert_eq.
  - by apply deserialize_dumps_movie.
Qed.

Lemma dune_text : text_movie dune.
Proof. split; apply is_ascii_is_text; ascii_literal. Qed.

Lemma submitted_body_reads_back_witness :
  exists body,
    pending (snd (submit_movie dune (initial dune_random [])))
      !! object_key (issued (initial dune_random []) (drawn (initial dune_random [])))
    = Some body
    /\ deserialize body
       = Some (JObj [(py "title", JStr (title dune)); (py "year", JInt (year dune));
                     (py "genre", JStr (genre dune))]).
Proof.
  apply (submitted_body_reads_back dune (initial dune_random [])).
  - exact dune_text.
  - reflexivity.
Defined.

(** A record whose object is put into a final bucket of fewer than 1000
    readable objects is listed. *)
Lemma inserted_record_listed w1 fin k content j :
  final w1 = <[k := content]> fin ->
  deserialize content = Some j ->
  calm_forever w1 ->
  (size fin < 1000)%nat ->
  (forall k' b, fin !! k' = Some b -> is_Some (deserialize b)) ->
  exists movies, fst (get_movies w1) = Returned movies /\ In j movies.
Proof.
  intros Hf Hd Hc1 Hsize Hall.
  assert (Hpage : first_page w1 = S3.sorted_keys (final w1)).
  { apply first_page_all. rewrite Hf. change S3.MaxKeys with 1000%nat.
    destruct (fin !! k) as [b0|] eqn:E.
    - rewrite map_size_insert_Some by (rewrite E; eauto). lia.
    - rewrite map_size_insert_None by exact E. lia. }
  assert (Hrec : forall k', k' ∈ first_page w1 -> exists j', record_of (final w1) k' j').
  { intros k' Hin. apply first_page_elem in Hin as [b Hb].
    rewrite Hf in Hb. rewrite Hf.
    destruct (decide (k = k')) as [<-|Hne].
    - exists j, content. by rewrite lookup_insert_eq.
    - rewrite lookup_insert_ne in Hb by done.
      destruct (Hall k' b Hb) as [j' Hj']. exists j', b. by rewrite lookup_insert_ne. }
  destruct (records_exist _ _ Hrec) as [movies Hmovies].
  exists movies. split.
  - apply get_movies_ok; [by apply calm_forever_calm | exact Hmovies].
  - assert (Hin : k ∈ first_page w1).
    { rewrite Hpage. apply sorted_keys_elem. rewrite Hf, lookup_insert_eq. eauto. }
    apply list_elem_of_lookup in Hin as [i Hi].
    destruct (Forall2_lookup_l _ _ _ _ _ Hmovies Hi) as (j' & Hj' & Hrj).
    assert (j' = j) as ->.
    { apply (record_of_functional (final w1) k); [exact Hrj|].
      exists content. by rewrite Hf, lookup_insert_eq. }
    apply list_elem_of_In, list_elem_of_lookup. eauto.
Qed.

(** X12: end to end, for every record of Unicode text: when no storage call
    fails and the final bucket holds fewer than 1000 objects, all of them
    readable, submitting the record, approving the identifier that
    [submit_movie] returned and listing gives a list that contains the
    record as submitted (title, year and genre). *)
Theorem submit_approve_list movie w :
  text_movie movie ->
  calm_forever w ->
  (size (final w) < 1000)%nat ->
  (forall k b, final w !! k = Some b -> is_Some (deserialize b)) ->
  let movie_id := issued w (drawn w) in
  let w1 := snd (submit_movie movie w) in
  let w2 := snd (approve_movie movie_id w1) in
  fst (submit_movie movie w) = Returned (submitted movie_id)
  /\ fst (approve_movie movie_id w1) = Returned approved
  /\ exists movies,
       fst (get_movies w2) = Returned movies
       /\ In (JObj [(py "title", JStr (title movie)); (py "year", JInt (year movie));
                    (py "genre", JStr (genre movie))]) movies.
Proof.
  intros [Ht Hg] Hc Hsize Hall movie_id w1 w2. subst w1 w2.
  destruct (submit_success movie w (Hc 0%nat)) as (w1 & -> & Hp1 & Hf1 & _ & _ & Hfs1).
  cbn [fst snd]. split; [reflexivity|].
  assert (Hc1 : calm_forever w1).
  { apply (calm_forever_drop w w1 1); [|exact Hc]. rewrite Hfs1. by destruct (faults w). }
  assert (Hk : pending w1 !! object_key movie_id = Some (json_mod.dumps (Movie_dict movie))).
  { by rewrite Hp1, lookup_insert_eq. }
  destruct (approve_success movie_id _ w1 Hk (calm_forever_calm 3 w1 Hc1))
    as (w2 & -> & Hf2 & _ & _ & _ & Hfs2).
  cbn [fst snd]. split; [reflexivity|].
  apply (inserted_record_listed w2 (final w) (object_key movie_id)
           (json_mod.dumps (Movie_dict movie))).
  - by rewrite Hf2, Hf1.
  - by apply deserialize_dumps_movie.
  - exact (calm_forever_drop w1 w2 3 Hfs2 Hc1).
  - exact Hsize.
  - exact Hall.
Qed.

Lemma submit_approve_list_witness :
  let w := initial counting_random [] in
  let movie_id := issued w (drawn w) in
  let w1 := snd (submit_movie dune w) in
  let w2 := snd (approve_movie movie_id w1) in
  fst (submit_movie dune w) = Returned (submitted movie_id)
  /\ fst (approve_movie movie_id w1) = Returned approved
  /\ exists movies,
       fst (get_movies w2) = Returned movies
       /\ In (JObj [(py "title", JStr (title dune)); (py "year", JInt (year dune));
                    (py "genre", JStr (genre dune))]) movies.
Proof.
  apply (submit_approve_list dune (initial counting_random [])).
  - exact dune_text.
  - intros i. unfold scheduled. cbn. by destruct i.
  - vm_compute. lia.
  - intros k b. unfold final, S3.objects. cbn. rewrite lookup_empty. cbn.
    rewrite lookup_empty. discriminate.
Defined.

(** ** Listed records are submitted records *)

Lemma pending_store w w' : store w' = store w -> pending w' = pending w.
Proof. intros H. unfold pending, S3.objects. by rewrite H. Qed.

Lemma final_store w w' : store w' = store w -> final w' = final w.
Proof. intros H. unfold final, S3.objects. by rewrite H. Qed.

Lemma bodies_from_more ms ms' w :
  (forall m, In m ms -> In m ms') -> bodies_from ms w -> bodies_from ms' w.
Proof. intros Hin H k b Hk. destruct (H k b Hk) as (m & Hm & ->). eauto. Qed.

Lemma submit_bodies movie ms w :
  bodies_from ms w -> bodies_from (ms ++ [movie]) (snd (submit_movie movie w)).
Proof.
  intros H. destruct (scheduled_cases w) as [H0|[e H0]].
  - destruct (submit_success movie w H0) as (w' & -> & Hp & Hf & _).
    cbn [snd]. intros k b. rewrite Hp, Hf. intros [Hk|Hk].
    + destruct (decide (object_key (issued w (drawn w)) = k)) as [<-|Hne].
      * rewrite lookup_insert_eq in Hk. injection Hk as <-.
        exists movie. split; [|reflexivity]. apply in_or_app. right. by left.
      * rewrite lookup_insert_ne in Hk by done.
        destruct (H k b (or_introl Hk)) as (m & Hm & ->).
        exists m. split; [|reflexivity]. apply in_or_app. by left.
    + destruct (H k b (or_intror Hk)) as (m & Hm & ->).
      exists m. split; [|reflexivity]. apply in_or_app. by left.
  - destruct (submit_fault movie e w H0) as (w' & -> & Hst & _).
    cbn [snd]. intros k b. rewrite (pending_store _ _ Hst), (final_store _ _ Hst).
    intros Hk. destruct (H k b Hk) as (m & Hm & ->).
    exists m. split; [|reflexivity]. apply in_or_app. by left.
Qed.

Lemma approve_bodies movie_id ms w :
  bodies_from ms w -> bodies_from ms (snd (approve_movie movie_id w)).
Proof.
  intros H k b. destruct (approve_effect movie_id w) as [Hp Hf]. cbv zeta in Hp, Hf.
  intros [Hk|Hk].
  - apply (H k b). left. destruct Hp as [Hp|Hp]; rewrite Hp in Hk; [done|].
    apply lookup_delete_Some in Hk as [_ Hk]. exact Hk.
  - destruct Hf as [Hf|(b0 & Hb0 & Hf)]; rewrite Hf in Hk.
    + apply (H k b). by right.
    + destruct (decide (object_key movie_id = k)) as [<-|Hne].
      * rewrite lookup_insert_eq in Hk. injection Hk as <-. apply (H _ _ (or_introl Hb0)).
      * rewrite lookup_insert_ne in Hk by done. apply (H k b). by right.
Qed.

Lemma run_bodies rs ms w :
  bodies_from ms w -> bodies_from (ms ++ submitted_movies rs) (snd (run rs w)).
Proof.
  revert ms w. induction rs as [|r rs IH]; intros ms w H.
  - cbn [run snd submitted_movies]. by rewrite app_nil_r.
  - rewrite run_cons. cbn [snd].
    destruct r as [movie| |movie_id]; cbn [submitted_movies].
    + change (handle (Submit movie)) with (submit_movie movie).
      replace (ms ++ movie :: submitted_movies rs)
        with ((ms ++ [movie]) ++ submitted_movies rs) by (by rewrite <- app_assoc).
      apply IH. by apply submit_bodies.
    + apply IH. intros k b.
      rewrite (pending_store _ _ (handle_list_store w)), (final_store _ _ (handle_list_store w)).
      apply H.
    + change (handle (Approve movie_id)) with (approve_movie movie_id).
      apply IH. by apply approve_bodies.
Qed.

Lemma bodies_from_initial random fs : bodies_from [] (initial random fs).
Proof.
  intros k b. unfold pending, final, S3.objects, initial. cbn.
  rewrite !lookup_empty. cbn. rewrite lookup_empty. by intros [?|?].
Qed.

(** X13: in every state reached from empty buckets by submit, list and
    approve requests, whatever storage calls fail on the way and whatever
    the random source gives, each record that [get_movies] returns is the
    dictionary of one of the submitted records: its fields are exactly
    title, year and genre, and none of them is the identifier (the
    submitted records being Unicode text). *)
Theorem run_lists_submitted_records rs random fs movies j :
  Forall text_movie (submitted_movies rs) ->
  fst (get_movies (snd (run rs (initial random fs)))) = Returned movies ->
  In j movies ->
  (exists movie, In movie (submitted_movies rs) /\ j = Movie_dict movie)
  /\ fields j = [py "title"; py "year"; py "genre"].
Proof.
  intros Htext Hr Hin.
  assert (Hb : bodies_from (submitted_movies rs) (snd (run rs (initial random fs)))).
  { apply (run_bodies rs [] _ (bodies_from_initial random fs)). }
  set (w := snd (run rs (initial random fs))) in *.
  destruct (get_movies w) as [r w'] eqn:Hg. cbn [fst] in Hr. subst r.
  apply get_movies_inv in Hg as [_ Hg]. specialize (Hg movies eq_refl).
  apply list_elem_of_In, list_elem_of_lookup in Hin as [i Hi].
  destruct (Forall2_lookup_r _ _ _ _ _ Hg Hi) as (k & _ & b & Hk & Hd).
  destruct (Hb k b (or_intror Hk)) as (movie & Hm & ->).
  assert (Ht : text_movie movie).
  { rewrite Forall_forall in Htext. apply Htext. by apply list_elem_of_In. }
  destruct Ht as [Ht Hge].
  rewrite (deserialize_dumps_movie movie Ht Hge) in Hd. injection Hd as <-.
  split; [by exists movie | reflexivity].
Qed.

Lemma run_lists_submitted_records_witness :
  (exists movie, In movie (submitted_movies [Submit dune; Approve dune_id])
                 /\ Movie_dict dune = Movie_dict movie)
  /\ fields (Movie_dict dune) = [py "title"; py "year"; py "genre"].
Proof.
  apply (run_lists_submitted_records [Submit dune; Approve dune_id] dune_random []
           [Movie_dict dune] (Movie_dict dune)).
  - repeat constructor; apply is_ascii_is_text; ascii_literal.
  - vm_compute. reflexivity.
  - by left.
Defined.

(** ** Storage failures during the listing *)

Lemma list_objects_v2_fault B e w :
  scheduled 0 w = Some e -> S3.list_objects_v2 B w = (Raised e, S3.next w).
Proof. intros H. unfold S3.list_objects_v2. by rewrite (call_fault _ e). Qed.

Lemma get_movies_body_fault obj movies e w :
  scheduled 0 w = Some e -> get_movies_body obj movies w = (Raised e, S3.next w).
Proof.
  intros H. unfold get_movies_body.
  erewrite bind_raised; [reflexivity|]. by apply get_object_fault.
Qed.

Lemma get_movies_loop_fault n keys e movies0 w :
  calm n w -> scheduled n w = Some e -> (n < length keys)%nat ->
  (forall k, k ∈ take n keys -> exists j, record_of (final w) k j) ->
  fst (for_in ((fun k => {| S3.Key := k |}) <$> keys) get_movies_body movies0 w)
  = Raised e.
Proof.
  revert keys movies0 w. induction n as [|n IH]; intros keys movies0 w Hc He Hn Hrec;
    destruct keys as [|k keys]; cbn [length] in Hn; try lia;
    cbn [fmap list_fmap for_in].
  - erewrite bind_raised; [reflexivity|]. by apply get_movies_body_fault.
  - destruct (Hrec k) as (j & b & Hk & Hd); [cbn [take]; by constructor|].
    erewrite bind_returned.
    2:{ eapply get_movies_body_ok; [by apply (calm_head n) | exact Hk | exact Hd]. }
    apply IH.
    + by apply calm_next.
    + by rewrite scheduled_next.
    + lia.
    + intros k' Hk'. rewrite final_next. apply Hrec. cbn [take]. by constructor.
Qed.

(** X14: [get_movies] catches nothing: the first storage call that fails -
    the listing call, or the fetch of one of the listed objects after the
    objects before it were read - ends the handler with that error, and no
    partial list is returned. *)
Theorem get_movies_propagates_storage_error n e w :
  calm n w -> scheduled n w = Some e ->
  (n <= length (first_page w))%nat ->
  (forall k, k ∈ take (pred n) (first_page w) -> exists j, record_of (final w) k j) ->
  fst (get_movies w) = Raised e.
Proof.
  intros Hc He Hn Hrec. rewrite get_movies_unfold.
  destruct n as [|n].
  - erewrite bind_raised; [reflexivity|]. by apply list_objects_v2_fault.
  - erewrite bind_returned; [|apply list_objects_v2_ok; by apply (calm_head n)].
    cbn [S3.Contents]. fold (final w). fold (first_page w).
    cbn [pred] in Hrec.
    destruct (first_page w) as [|k ks] eqn:Hp; [cbn [length] in Hn; lia|].
    apply (get_movies_loop_fault n (k :: ks)).
    + by apply calm_next.
    + by rewrite scheduled_next.
    + cbn [length] in *. lia.
    + intros k' Hk'. rewrite final_next. by apply Hrec.
Qed.

Lemma get_movies_propagates_storage_error_witness :
  fst (get_movies (snd (approve_movie dune_id
                          (dune_submitted [None; None; None; None;
                                           Some (BotoCoreError (py "timeout"))]))))
  = Raised (BotoCoreError (py "timeout")).
Proof.
  apply (get_movies_propagates_storage_error 1 (BotoCoreError (py "timeout"))).
  - intros i Hi. replace i with 0%nat by lia. vm_compute. reflexivity.
  - vm_compute. reflexivity.
  - vm_compute. lia.
  - intros k Hk. cbn [pred take] in Hk. by apply elem_of_nil in Hk.
Defined.

(** ** Approving again after a failed removal *)

Lemma approve_delete_fault_faults movie_id b e w :
  pending w !! object_key movie_id = Some b ->
  scheduled 0 w = None -> scheduled 1 w = None -> scheduled 2 w = Some e ->
  faults (snd (approve_movie movie_id w)) = drop 3 (faults w).
Proof.
  intros Hk H0 H1 H2. unfold approve_movie.
  erewrite try_except_raised.
  2:{ erewrite bind_returned; [|by apply get_object_ok].
      erewrite bind_returned; [|apply put_object_bytes_ok; by rewrite scheduled_next].
      erewrite bind_raised; [reflexivity|].
      apply delete_object_fault.
      by rewrite scheduled_write, !scheduled_next. }
  unfold raise. cbn [snd]. simpl. by destruct (faults w) as [|? [|? [|? ?]]].
Qed.

Lemma scheduled_drop n i w w' :
  faults w' = drop n (faults w) -> scheduled i w' = scheduled (n + i) w.
Proof. intros H. unfold scheduled. by rewrite H, lookup_drop. Qed.

(** X15: when an approval copied the object to the final bucket and then
    failed to delete the pending one, the record is in both buckets; a
    second approval of the same identifier whose three storage calls go
    through succeeds, leaves the final bucket as it was after the first
    attempt, and removes the pending object. *)
Theorem approve_retry_completes movie_id b e w :
  pending w !! object_key movie_id = Some b ->
  scheduled 0 w = None -> scheduled 1 w = None -> scheduled 2 w = Some e ->
  scheduled 3 w = None -> scheduled 4 w = None -> scheduled 5 w = None ->
  let w1 := snd (approve_movie movie_id w) in
  let w2 := snd (approve_movie movie_id w1) in
  fst (approve_movie movie_id w) = Raised not_found
  /\ pending w1 !! object_key movie_id = Some b
  /\ final w1 !! object_key movie_id = Some b
  /\ fst (approve_movie movie_id w1) = Returned approved
  /\ final w2 = final w1
  /\ pending w2 = delete (object_key movie_id) (pending w).
Proof.
  intros Hk H0 H1 H2 H3 H4 H5 w1 w2. subst w1 w2.
  pose proof (approve_delete_fault_faults movie_id b e w Hk H0 H1 H2) as Hfs.
  destruct (approve_delete_fault movie_id b e w Hk H0 H1 H2) as (w1 & Hr & Hf & Hp).
  rewrite Hr in *. cbn [fst snd] in *.
  assert (Hk1 : pending w1 !! object_key movie_id = Some b) by (by rewrite Hp).
  assert (Hc : calm 3 w1).
  { intros i Hi. rewrite (scheduled_drop 3 i w w1 Hfs).
    destruct i as [|[|[|i]]]; [done..|lia]. }
  destruct (approve_success movie_id b w1 Hk1 Hc) as (w2 & -> & Hf2 & Hp2 & _).
  cbn [fst snd]. repeat split; try done.
  - by rewrite Hf, lookup_insert_eq.
  - rewrite Hf2, Hf. apply insert_insert_eq.
  - by rewrite Hp2, Hp.
Qed.

Lemma approve_retry_completes_witness :
  let w := dune_submitted [None; None; Some (BotoCoreError (py "timeout"))] in
  let w1 := snd (approve_movie dune_id w) in
  let w2 := snd (approve_movie dune_id w1) in
  fst (approve_movie dune_id w) = Raised not_found
  /\ pending w1 !! object_key dune_id = Some (json_mod.dumps (Movie_dict dune))
  /\ final w1 !! object_key dune_id = Some (json_mod.dumps (Movie_dict dune))
  /\ fst (approve_movie dune_id w1) = Returned approved
  /\ final w2 = final w1
  /\ pending w2 = delete (object_key dune_id) (pending w).
Proof.
  apply (approve_retry_completes dune_id (json_mod.dumps (Movie_dict dune))
           (BotoCoreError (py "timeout"))
           (dune_submitted [None; None; Some (BotoCoreError (py "timeout"))]));
    vm_compute; reflexivity.
Defined.

(** ** Two submissions in a row *)

Lemma submit_twice m1 m2 w :
  calm 2 w ->
  exists w1 w2,
    submit_movie m1 w = (Returned (submitted (issued w (drawn w))), w1)
    /\ submit_movie m2 w1 = (Returned (submitted (issued w (S (drawn w)))), w2)
    /\ pending w2
       = <[object_key (issued w (S (drawn w))) := json_mod.dumps (Movie_dict m2)]>
           (<[object_key (issued w (drawn w)) := json_mod.dumps (Movie_dict m1)]> (pending w))
    /\ final w2 = final w.
Proof.
  intros Hc.
  destruct (submit_success m1 w) as (w1 & Hs1 & Hp1 & Hf1 & Hu1 & Hn1 & Hfs1);
    [apply Hc; lia|].
  destruct (submit_success m2 w1) as (w2 & Hs2 & Hp2 & Hf2 & _).
  { rewrite (scheduled_tail w w1 0 Hfs1). apply Hc. lia. }
  exists w1, w2. rewrite Hn1, (issued_same w w1 _ Hu1) in Hs2, Hp2.
  repeat split; [exact Hs1 | exact Hs2 | by rewrite Hp2, Hp1 | by rewrite Hf2, Hf1].
Qed.

(** X16: [submit_movie] does not look for duplicates: two submissions in a
    row whose UUID draws differ - also of one and the same record - return
    two different identifiers and leave two objects in the pending bucket,
    each holding the serialization of its record. *)
Theorem submit_twice_stores_both m1 m2 w :
  calm 2 w ->
  uuid.UUID_v4 (urandom w (drawn w)) <> uuid.UUID_v4 (urandom w (S (drawn w))) ->
  let id1 := issued w (drawn w) in
  let id2 := issued w (S (drawn w)) in
  let w1 := snd (submit_movie m1 w) in
  let w2 := snd (submit_movie m2 w1) in
  fst (submit_movie m1 w) = Returned (submitted id1)
  /\ fst (submit_movie m2 w1) = Returned (submitted id2)
  /\ id1 <> id2
  /\ pending w2 !! object_key id1 = Some (json_mod.dumps (Movie_dict m1))
  /\ pending w2 !! object_key id2 = Some (json_mod.dumps (Movie_dict m2)).
Proof.
  intros Hc Hne id1 id2 w1 w2. subst id1 id2 w1 w2.
  destruct (submit_twice m1 m2 w Hc) as (w1 & w2 & -> & Hs2 & Hp & _).
  cbn [fst snd]. rewrite Hs2. cbn [fst snd].
  assert (Hid : issued w (drawn w) <> issued w (S (drawn w))).
  { intros E. by apply Hne, issued_inj_world. }
  repeat split; [exact Hid| |].
  - rewrite Hp, lookup_insert_ne, lookup_insert_eq; [done|].
    intros E. by apply Hid, object_key_inj.
  - by rewrite Hp, lookup_insert_eq.
Qed.

Lemma submit_twice_stores_both_witness :
  let w := initial counting_random [] in
  let id1 := issued w (drawn w) in
  let id2 := issued w (S (drawn w)) in
  let w1 := snd (submit_movie dune w) in
  let w2 := snd (submit_movie dune w1) in
  fst (submit_movie dune w) = Returned (submitted id1)
  /\ fst (submit_movie dune w1) = Returned (submitted id2)
  /\ id1 <> id2
  /\ pending w2 !! object_key id1 = Some (json_mod.dumps (Movie_dict dune))
  /\ pending w2 !! object_key id2 = Some (json_mod.dumps (Movie_dict dune)).
Proof.
  apply (submit_twice_stores_both dune dune (initial counting_random [])).
  - intros i _. unfold scheduled. cbn. by destruct i.
  - vm_compute. discriminate.
Defined.

(** X17: nothing but the random source keeps identifiers apart: when two
    submissions in a row draw the same UUID, both return the same
    identifier and the second record silently replaces the first one under
    the one key. *)
Theorem submit_collision_overwrites m1 m2 w :
  calm 2 w ->
  uuid.UUID_v4 (urandom w (drawn w)) = uuid.UUID_v4 (urandom w (S (drawn w))) ->
  let movie_id := issued w (drawn w) in
  let w1 := snd (submit_movie m1 w) in
  let w2 := snd (submit_movie m2 w1) in
  fst (submit_movie m1 w) = Returned (submitted movie_id)
  /\ fst (submit_movie m2 w1) = Returned (submitted movie_id)
  /\ pending w1 !! object_key movie_id = Some (json_mod.dumps (Movie_dict m1))
  /\ pending w2 = <[object_key movie_id := json_mod.dumps (Movie_dict m2)]> (pending w).
Proof.
  intros Hc He movie_id w1 w2. subst movie_id w1 w2.
  assert (Hid : issued w (S (drawn w)) = issued w (drawn w)).
  { with_strategy transparent [issued] unfold issued. by rewrite He. }
  destruct (submit_twice m1 m2 w Hc) as (w1 & w2 & Hs1 & Hs2 & Hp & _).
  destruct (submit_success m1 w) as (w1' & Hs1' & Hp1 & _); [apply Hc; lia|].
  rewrite Hs1 in Hs1'. injection Hs1' as <-.
  rewrite Hs1. cbn [fst snd]. rewrite Hs2. cbn [fst snd]. rewrite Hid in *.
  repeat split.
  - by rewrite Hp1, lookup_insert_eq.
  - rewrite Hp. apply insert_insert_eq.
Qed.

Lemma submit_collision_overwrites_witness :
  let w := initial dune_random [] in
  let movie_id := issued w (drawn w) in
  let w1 := snd (submit_movie dune w) in
  let w2 := snd (submit_movie {| title := py "Alien"; year := 1979; genre := py "Horror" |} w1) in
  fst (submit_movie dune w) = Returned (submitted movie_id)
  /\ fst (submit_movie {| title := py "Alien"; year := 1979; genre := py "Horror" |} w1)
     = Returned (submitted movie_id)
  /\ pending w1 !! object_key movie_id = Some (json_mod.dumps (Movie_dict dune))
  /\ pending w2
     = <[object_key movie_id :=
           json_mod.dumps (Movie_dict {| title := py "Alien"; year := 1979; genre := py "Horror" |})]>
         (pending w).
Proof.
  apply (submit_collision_overwrites dune
           {| title := py "Alien"; year := 1979; genre := py "Horror" |}
           (initial dune_random [])).
  - intros i _. unfold scheduled. cbn. by destruct i.
  - reflexivity.
Defined.

(** ** Approved, but beyond the first page of the listing *)

Lemma key_leb_trans a b c :
  S3.key_leb a b = true -> S3.key_leb b c = true -> S3.key_leb a c = true.
Proof.
  revert b c. induction a as [|x a IH]; intros [|y b] [|z c]; cbn; try done.
  rewrite !orb_true_iff, !andb_true_iff, !N.ltb_lt, !N.eqb_eq.
  intros [H1|[-> H1]] [H2|[-> H2]]; [left; lia | by left | by left |].
  right. split; [done|]. by apply (IH b c).
Qed.

Lemma key_leb_antisym a b :
  S3.key_leb a b = true -> S3.key_leb b a = true -> a = b.
Proof.
  revert b. induction a as [|x a IH]; intros [|y b]; cbn; try done.
  rewrite !orb_true_iff, !andb_true_iff, !N.ltb_lt, !N.eqb_eq.
  intros [H1|[-> H1]] [H2|[H2 H3]]; try lia.
  f_equal. by apply IH.
Qed.

Lemma key_le_trans : Transitive S3.key_le.
Proof. intros a b c. apply key_leb_trans. Qed.

Lemma sorted_keys_sorted (objs : gmap (list N) (list N)) :
  StronglySorted S3.key_le (S3.sorted_keys objs).
Proof.
  apply (@Sorted_StronglySorted _ S3.key_le key_le_trans).
  apply (@Sorted_merge_sort _ S3.key_le _ key_le_total).
Qed.

(** A key that sorts after all the keys of a bucket comes last in the
    listing of the bucket with that key added. *)
Lemma sorted_keys_insert_last (objs : gmap (list N) (list N)) k b :
  (forall k', is_Some (objs !! k') -> S3.key_le k' k /\ k' <> k) ->
  S3.sorted_keys (<[k := b]> objs) = S3.sorted_keys objs ++ [k].
Proof.
  intros Hlast.
  assert (Hk : objs !! k = None).
  { destruct (objs !! k) as [b'|] eqn:E; [|done].
    destruct (Hlast k) as [_ Hne]; [by rewrite E|]. by destruct Hne. }
  apply (StronglySorted_unique_strong S3.key_le).
  - intros x1 x2 _ _. apply key_leb_antisym.
  - apply sorted_keys_sorted.
  - apply StronglySorted_app. split; [|split].
    + intros x1 x2 H1 H2. apply list_elem_of_singleton in H2 as ->.
      apply sorted_keys_elem in H1. by apply Hlast.
    + apply sorted_keys_sorted.
    + repeat constructor.
  - rewrite !sorted_keys_perm, map_to_list_insert by exact Hk.
    rewrite fmap_cons. cbn [fst]. by rewrite Permutation_cons_append.
Qed.

(** X18: an approval can succeed without the record ever being listed:
    when the final bucket already holds 1000 or more objects whose keys all
    sort before [{movie_id}.json], the approval stores the record in the
    final bucket, but the single listing call of [get_movies] still returns
    the same first 1000 keys, so whatever list [get_movies] returns
    afterwards is made of the records of the old objects only. *)
Theorem approved_beyond_page_not_listed movie_id content w :
  pending w !! object_key movie_id = Some content ->
  calm 3 w ->
  (1000 <= size (final w))%nat ->
  (forall k, is_Some (final w !! k) -> S3.key_le k (object_key movie_id) /\ k <> object_key movie_id) ->
  let w1 := snd (approve_movie movie_id w) in
  fst (approve_movie movie_id w) = Returned approved
  /\ final w1 !! object_key movie_id = Some content
  /\ first_page w1 = first_page w
  /\ (object_key movie_id ∉ first_page w1)
  /\ forall movies, fst (get_movies w1) = Returned movies ->
       Forall2 (record_of (final w)) (first_page w) movies.
Proof.
  intros Hk Hc Hsize Hlast w1. subst w1.
  destruct (approve_success movie_id content w Hk Hc) as (w1 & -> & Hf & _).
  cbn [fst snd].
  assert (Hpage : first_page w1 = first_page w).
  { unfold first_page. rewrite Hf, (sorted_keys_insert_last _ _ _ Hlast).
    apply take_app_le. rewrite sorted_keys_length. exact Hsize. }
  assert (Hout : object_key movie_id ∉ first_page w).
  { intros Hin%first_page_elem. by destruct (Hlast _ Hin) as [_ Hne]. }
  split; [reflexivity|]. split; [by rewrite Hf, lookup_insert_eq|].
  split; [exact Hpage|]. split; [by rewrite Hpage|].
  intros movies Hr. destruct (get_movies w1) as [r w'] eqn:Hg. cbn [fst] in Hr. subst r.
  apply get_movies_inv in Hg as [_ Hg]. specialize (Hg movies eq_refl).
  rewrite Hpage in Hg. apply Forall2_same_length_lookup in Hg as [Hlen Hg].
  apply Forall2_same_length_lookup. split; [exact Hlen|].
  intros i k j Hi Hj. destruct (Hg i k j Hi Hj) as (b & Hb & Hd).
  exists b. split; [|exact Hd].
  rewrite Hf, lookup_insert_ne in Hb; [exact Hb|].
  intros <-. apply Hout. apply list_elem_of_lookup. eauto.
Qed.

Lemma crowded_keys :
  map_Forall (fun k _ => S3.key_le k (object_key dune_id) /\ k <> object_key dune_id)
             (final crowded).
Proof. apply (bool_decide_unpack _). vm_compute. reflexivity. Qed.

Lemma approved_beyond_page_not_listed_witness :
  let w1 := snd (approve_movie dune_id crowded) in
  fst (approve_movie dune_id crowded) = Returned approved
  /\ final w1 !! object_key dune_id = Some (json_mod.dumps (Movie_dict dune))
  /\ first_page w1 = first_page crowded
  /\ (object_key dune_id ∉ first_page w1)
  /\ forall movies, fst (get_movies w1) = Returned movies ->
       Forall2 (record_of (final crowded)) (first_page crowded) movies.
Proof.
  apply (approved_beyond_page_not_listed dune_id (json_mod.dumps (Movie_dict dune)) crowded).
  - vm_compute. reflexivity.
  - apply calm_nil. reflexivity.
  - vm_compute. lia.
  - intros k [b Hb]. exact (crowded_keys k b Hb).
Defined.

(** ** Claim about the listing *)

(** C7: when the listing call and the fetches go through and the listed
    objects deserialize, [get_movies] returns the deserialized bodies of
    the objects the one listing call names, in the order of the listing
    (ascending keys), with no filtering: the empty list when the final
    bucket is empty, the records of all the objects when the bucket holds
    at most 1000 of them, and the records of the first 1000 keys only when
    it holds more. *)
Theorem get_movies_lists_first_page w :
  calm (S (length (first_page w))) w ->
  (forall k, k ∈ first_page w -> exists movie, record_of (final w) k movie) ->
  exists movies,
    fst (get_movies w) = Returned movies
    /\ Forall2 (record_of (final w)) (first_page w) movies
    /\ Sorted S3.key_le (first_page w)
    /\ (final w = ∅ -> movies = [])
    /\ ((size (final w) <= 1000)%nat ->
        length movies = size (final w)
        /\ forall k, is_Some (final w !! k) <-> k ∈ first_page w)
    /\ ((1000 < size (final w))%nat ->
        length movies = 1000%nat
        /\ first_page w = take 1000 (S3.sorted_keys (final w))
        /\ exists k, is_Some (final w !! k) /\ k ∉ first_page w).
Proof.
  intros Hc Hrec.
  destruct (records_exist _ _ Hrec) as [movies Hmovies].
  exists movies.
  assert (Hlen : length movies = Nat.min 1000 (size (final w))).
  { rewrite <- (Forall2_length _ _ _ Hmovies). apply first_page_length. }
  split; [by apply get_movies_ok|]. split; [exact Hmovies|].
  split; [apply first_page_sorted|]. split; [|split].
  - intros He. rewrite He, map_size_empty in Hlen. by destruct movies.
  - intros Hsize. split; [lia|]. intros k.
    rewrite (first_page_all w) by exact Hsize. symmetry. apply sorted_keys_elem.
  - intros Hsize. split; [lia|]. split; [reflexivity|].
    by apply first_page_leaves_out.
Qed.

Lemma readable_records w :
  readable w = true ->
  forall k, k ∈ first_page w -> exists movie, record_of (final w) k movie.
Proof.
  unfold readable. rewrite forallb_forall. intros H k Hk%list_elem_of_In.
  specialize (H k Hk).
  destruct (final w !! k) as [b|] eqn:E; [|discriminate]. cbn in H.
  destruct (deserialize b) as [movie|] eqn:D; [|discriminate].
  by exists movie, b.
Qed.

Lemma get_movies_lists_first_page_witness :
  exists movies,
    fst (get_movies full_house) = Returned movies
    /\ Forall2 (record_of (final full_house)) (first_page full_house) movies
    /\ Sorted S3.key_le (first_page full_house)
    /\ (final full_house = ∅ -> movies = [])
    /\ ((size (final full_house) <= 1000)%nat ->
        length movies = size (final full_house)
        /\ forall k, is_Some (final full_house !! k) <-> k ∈ first_page full_house)
    /\ ((1000 < size (final full_house))%nat ->
        length movies = 1000%nat
        /\ first_page full_house = take 1000 (S3.sorted_keys (final full_house))
        /\ exists k, is_Some (final full_house !! k) /\ k ∉ first_page full_house).
Proof.
  apply (get_movies_lists_first_page full_house).
  - apply calm_nil. vm_compute. reflexivity.
  - apply readable_records. vm_compute. reflexivity.
Defined.

(** Not every object is listed: after 1001 records were submitted and
    approved one by one from empty buckets, the final bucket holds 1001
    objects and [get_movies] returns the 1000 records of the first 1000
    keys; the record approved last is not among them. *)
Lemma get_movies_misses_an_object :
  size (final full_house) = 1001%nat
  /\ record_of (final full_house) (object_key (issued full_house 1000))
               (Movie_dict (numbered 1000))
  /\ fst (get_movies full_house)
     = Returned (map (fun i => Movie_dict (numbered i)) (seq 0 1000))
  /\ ~ In (Movie_dict (numbered 1000)) (map (fun i => Movie_dict (numbered i)) (seq 0 1000)).
Proof.
  split; [vm_compute; reflexivity|]. split; [|split].
  - exists (json_mod.dumps (Movie_dict (numbered 1000))). split; vm_compute; reflexivity.
  - vm_compute. reflexivity.
  - intros Hin. apply in_map_iff in Hin as (i & Hi & Hin).
    apply in_seq in Hin. injection Hi as Hi. lia.
Qed.

(** ** Claim about approval followed by listing *)

(** C3: for every record pending under an identifier, after a successful
    approval every list [get_movies] returns contains the record when the
    key [{movie_id}.json] is among the first 1000 keys of the final bucket
    in ascending order, which is so whenever the bucket held fewer than
    1000 objects before the approval; [get_movies] returns a list when its
    storage calls go through and the listed objects deserialize; and a
    second approval of the identifier, right away or after the listing,
    fails with the 400 error "Movie not found or already approved." *)
Theorem approve_lists_record_then_refuses movie_id content movie w :
  pending w !! object_key movie_id = Some content ->
  deserialize content = Some movie ->
  calm 3 w ->
  let w1 := snd (approve_movie movie_id w) in
  fst (approve_movie movie_id w) = Returned approved
  /\ (forall movies, fst (get_movies w1) = Returned movies ->
        object_key movie_id ∈ first_page w1 -> In movie movies)
  /\ ((size (final w) < 1000)%nat -> object_key movie_id ∈ first_page w1)
  /\ (calm (S (length (first_page w1))) w1 ->
      (forall k, k ∈ first_page w1 -> exists j, record_of (final w1) k j) ->
      exists movies, fst (get_movies w1) = Returned movies)
  /\ fst (approve_movie movie_id w1)
     = Raised (HTTPException 400 (py "Movie not found or already approved."))
  /\ fst (approve_movie movie_id (snd (get_movies w1)))
     = Raised (HTTPException 400 (py "Movie not found or already approved.")).
Proof.
  intros Hk Hd Hc w1. subst w1.
  destruct (approve_success movie_id content w Hk Hc) as (w1 & -> & Hf & Hp & _).
  cbn [fst snd].
  assert (Hgone : pending w1 !! object_key movie_id = None).
  { rewrite Hp. apply lookup_delete_eq. }
  split; [reflexivity|]. split; [|split; [|split; [|split]]].
  - intros movies Hr Hin.
    destruct (get_movies w1) as [r w'] eqn:Hg. cbn [fst] in Hr. subst r.
    apply get_movies_inv in Hg as [_ Hg]. specialize (Hg movies eq_refl).
    apply list_elem_of_lookup in Hin as [i Hi].
    destruct (Forall2_lookup_l _ _ _ _ _ Hg Hi) as (j & Hj & b & Hb & Hdb).
    rewrite Hf, lookup_insert_eq in Hb. injection Hb as <-.
    assert (j = movie) as -> by congruence.
    apply list_elem_of_In, list_elem_of_lookup. eauto.
  - intros Hsize. rewrite first_page_all.
    + apply sorted_keys_elem. rewrite Hf, lookup_insert_eq. eauto.
    + rewrite Hf. change S3.MaxKeys with 1000%nat.
      destruct (final w !! object_key movie_id) as [b0|] eqn:E.
      * rewrite map_size_insert_Some by (rewrite E; eauto). lia.
      * rewrite map_size_insert_None by exact E. lia.
  - intros Hc1 Hrec. destruct (records_exist _ _ Hrec) as [movies Hmovies].
    exists movies. by apply get_movies_ok.
  - by rewrite (approve_absent movie_id w1 Hgone).
  - rewrite approve_absent; [reflexivity|].
    unfold pending, S3.objects. rewrite get_movies_store. exact Hgone.
Qed.

Lemma approve_lists_record_then_refuses_witness :
  let w1 := snd (approve_movie dune_id (dune_submitted [])) in
  fst (approve_movie dune_id (dune_submitted [])) = Returned approved
  /\ (forall movies, fst (get_movies w1) = Returned movies ->
        object_key dune_id ∈ first_page w1 -> In (Movie_dict dune) movies)
  /\ ((size (final (dune_submitted [])) < 1000)%nat -> object_key dune_id ∈ first_page w1)
  /\ (calm (S (length (first_page w1))) w1 ->
      (forall k, k ∈ first_page w1 -> exists j, record_of (final w1) k j) ->
      exists movies, fst (get_movies w1) = Returned movies)
  /\ fst (approve_movie dune_id w1)
     = Raised (HTTPException 400 (py "Movie not found or already approved."))
  /\ fst (approve_movie dune_id (snd (get_movies w1)))
     = Raised (HTTPException 400 (py "Movie not found or already approved.")).
Proof.
  apply (approve_lists_record_then_refuses dune_id (json_mod.dumps (Movie_dict dune))
           (Movie_dict dune) (dune_submitted [])).
  - vm_compute. reflexivity.
  - vm_compute. reflexivity.
  - apply calm_nil. reflexivity.
Defined.

(** The approved record is not always listed: when 1000 records were
    approved before and the keys of all of them sort before the key of the
    record, the approval succeeds and the list [get_movies] returns is made
    of the 1000 earlier records only. *)
Lemma approved_record_missing_from_list :
  let movie_id := issued nearly_full 1000 in
  let w1 := snd (approve_movie movie_id nearly_full) in
  pending nearly_full !! object_key movie_id
  = Some (json_mod.dumps (Movie_dict (numbered 1000)))
  /\ deserialize (json_mod.dumps (Movie_dict (numbered 1000)))
     = Some (Movie_dict (numbered 1000))
  /\ fst (approve_movie movie_id nearly_full) = Returned approved
  /\ fst (get_movies w1) = Returned (map (fun i => Movie_dict (numbered i)) (seq 0 1000))
  /\ ~ In (Movie_dict (numbered 1000)) (map (fun i => Movie_dict (numbered i)) (seq 0 1000)).
Proof.
  cbv zeta.
  split; [vm_compute; reflexivity|]. split; [vm_compute; reflexivity|].
  split; [vm_compute; reflexivity|]. split; [vm_compute; reflexivity|].
  intros Hin. apply in_map_iff in Hin as (i & Hi & Hin).
  apply in_seq in Hin. injection Hi as Hi. lia.
Qed.

(** ** Reading back any Python string *)

Lemma scanstring_escape_char_str c fuel r :
  c < 0x110000 -> json_mod.is_high_surrogate c = false ->
  json_mod.scanstring (S fuel) (json_mod.escape_char c ++ r)
  = '(t, r') ← json_mod.scanstring fuel r; Some (c :: t, r').
Proof.
  intros Hc Hh. unfold json_mod.escape_char.
  destruct (N.eqb_spec c 92) as [->|H92]; [reflexivity|].
  destruct (N.eqb_spec c 34) as [->|H34]; [reflexivity|].
  destruct (N.eqb_spec c 8) as [->|H8]; [reflexivity|].
  destruct (N.eqb_spec c 12) as [->|H12]; [reflexivity|].
  destruct (N.eqb_spec c 10) as [->|H10]; [reflexivity|].
  destruct (N.eqb_spec c 13) as [->|H13]; [reflexivity|].
  destruct (N.eqb_spec c 9) as [->|H9]; [reflexivity|].
  destruct ((32 <=? c) && (c <=? 126)) eqn:Hp.
  - apply andb_prop in Hp as [Hlo%N.leb_le Hhi%N.leb_le].
    cbn [app json_mod.scanstring].
    rewrite (proj2 (N.eqb_neq c 34) H34), (proj2 (N.eqb_neq c 92) H92).
    rewrite (proj2 (N.ltb_ge c 32) Hlo). reflexivity.
  - destruct (N.ltb_spec c 65536) as [Hlt|Hge].
    + rewrite <- app_assoc. change (py "\u") with [92; 117]. cbn [app].
      cbn -[format_hex json_mod.decode_uXXXX json_mod.is_high_surrogate].
      rewrite decode_uXXXX_format_hex, (N.mod_small c 65536 Hlt).
      rewrite Hh. reflexivity.
    + assert (Hn : c - 65536 < 0x100000) by lia.
      destruct (surrogate_pair_joins (c - 65536) Hn) as (M1 & M2 & Hh1 & Hl & Hj).
      cbv zeta in M1, M2, Hh1, Hl, Hj. cbv zeta.
      change 55296 with 0xd800. change 56320 with 0xdc00. change 1023 with 0x3ff.
      set (s1 := N.lor 0xd800 (N.land (N.shiftr (c - 65536) 10) 0x3ff)) in *.
      set (s2 := N.lor 0xdc00 (N.land (c - 65536) 0x3ff)) in *.
      rewrite <- !app_assoc. change (py "\u") with [92; 117]. cbn [app].
      cbn -[format_hex json_mod.decode_uXXXX json_mod.is_high_surrogate
            json_mod.is_low_surrogate json_mod.join_surrogates].
      rewrite decode_uXXXX_format_hex, M1, Hh1.
      cbn -[format_hex json_mod.decode_uXXXX json_mod.is_high_surrogate
            json_mod.is_low_surrogate json_mod.join_surrogates].
      rewrite decode_uXXXX_format_hex, M2, Hl, Hj.
      replace (0x10000 + (c - 65536)) with c by lia. reflexivity.
Qed.

Lemma high_not_low c :
  json_mod.is_high_surrogate c = true -> json_mod.is_low_surrogate c = false.
Proof.
  unfold json_mod.is_high_surrogate, json_mod.is_low_surrogate.
  intros [_ H%N.leb_le]%andb_prop. apply andb_false_iff. left. apply N.leb_gt. lia.
Qed.

Lemma escape_char_surrogate c :
  0xd800 <= c -> c <= 0xdfff ->
  json_mod.escape_char c = 92 :: 117 :: format_hex 4 c.
Proof.
  intros Hlo Hhi. unfold json_mod.escape_char.
  destruct (N.eqb_spec c 92) as [->|_]; [lia|].
  destruct (N.eqb_spec c 34) as [->|_]; [lia|].
  destruct (N.eqb_spec c 8) as [->|_]; [lia|].
  destruct (N.eqb_spec c 12) as [->|_]; [lia|].
  destruct (N.eqb_spec c 10) as [->|_]; [lia|].
  destruct (N.eqb_spec c 13) as [->|_]; [lia|].
  destruct (N.eqb_spec c 9) as [->|_]; [lia|].
  destruct (N.leb_spec c 126); [lia|]. rewrite andb_false_r.
  destruct (N.ltb_spec c 0x10000); [reflexivity|lia].
Qed.

Lemma escape_char_high c :
  json_mod.is_high_surrogate c = true ->
  json_mod.escape_char c = 92 :: 117 :: format_hex 4 c /\ c mod 65536 = c.
Proof.
  unfold json_mod.is_high_surrogate. intros [H1%N.leb_le H2%N.leb_le]%andb_prop.
  split; [apply escape_char_surrogate; lia | apply N.mod_small; lia].
Qed.

Lemma escape_char_low c :
  json_mod.is_low_surrogate c = true ->
  json_mod.escape_char c = 92 :: 117 :: format_hex 4 c /\ c mod 65536 = c.
Proof.
  unfold json_mod.is_low_surrogate. intros [H1%N.leb_le H2%N.leb_le]%andb_prop.
  split; [apply escape_char_surrogate; lia | apply N.mod_small; lia].
Qed.

(** A high surrogate followed by a low one is read as one character. *)
Lemma scanstring_pair c c2 fuel r :
  json_mod.is_high_surrogate c = true -> json_mod.is_low_surrogate c2 = true ->
  json_mod.scanstring (S fuel) (json_mod.escape_char c ++ json_mod.escape_char c2 ++ r)
  = '(t, r') ← json_mod.scanstring fuel r;
    Some (json_mod.join_surrogates c c2 :: t, r').
Proof.
  intros Hh Hl.
  destruct (escape_char_high c Hh) as [-> Mc].
  destruct (escape_char_low c2 Hl) as [-> Mc2].
  cbn [app].
  cbn -[format_hex json_mod.decode_uXXXX json_mod.is_high_surrogate
        json_mod.is_low_surrogate json_mod.join_surrogates].
  rewrite decode_uXXXX_format_hex, Mc, Hh.
  cbn -[format_hex json_mod.decode_uXXXX json_mod.is_high_surrogate
        json_mod.is_low_surrogate json_mod.join_surrogates].
  rewrite decode_uXXXX_format_hex, Mc2, Hl. reflexivity.
Qed.

(** A high surrogate followed by anything else is read as it is. *)
Lemma scanstring_lone_high c fuel r :
  json_mod.is_high_surrogate c = true -> no_low_ahead r ->
  json_mod.scanstring (S fuel) (json_mod.escape_char c ++ r)
  = '(t, r') ← json_mod.scanstring fuel r; Some (c :: t, r').
Proof.
  intros Hh Hr.
  destruct (escape_char_high c Hh) as [-> Mc].
  cbn [app].
  cbn -[format_hex json_mod.decode_uXXXX json_mod.is_high_surrogate
        json_mod.is_low_surrogate json_mod.join_surrogates].
  rewrite decode_uXXXX_format_hex, Mc, Hh.
  destruct r as [|b [|u rest]]; [reflexivity..|].
  unfold no_low_ahead in Hr.
  destruct ((b =? 92) && (u =? 117)); [|reflexivity].
  destruct (json_mod.decode_uXXXX rest) as [[uni2 rest4]|]; [|destruct Hr].
  rewrite Hr. reflexivity.
Qed.

Lemma no_low_ahead_quote r : no_low_ahead (34 :: r).
Proof. destruct r; exact I. Qed.

Lemma no_low_ahead_escape_char c r :
  c < 0x110000 -> json_mod.is_low_surrogate c = false ->
  no_low_ahead (json_mod.escape_char c ++ r).
Proof.
  intros Hc Hl. unfold json_mod.escape_char.
  destruct (N.eqb_spec c 92) as [->|H92]; [exact I|].
  destruct (N.eqb_spec c 34) as [->|H34]; [exact I|].
  destruct (N.eqb_spec c 8) as [->|H8]; [exact I|].
  destruct (N.eqb_spec c 12) as [->|H12]; [exact I|].
  destruct (N.eqb_spec c 10) as [->|H10]; [exact I|].
  destruct (N.eqb_spec c 13) as [->|H13]; [exact I|].
  destruct (N.eqb_spec c 9) as [->|H9]; [exact I|].
  destruct ((32 <=? c) && (c <=? 126)) eqn:Hp.
  - cbn [app]. destruct r as [|u rest]; [exact I|].
    unfold no_low_ahead. by rewrite (proj2 (N.eqb_neq c 92) H92).
  - destruct (N.ltb_spec c 65536) as [Hlt|Hge].
    + rewrite <- app_assoc. change (py "\u") with [92; 117]. cbn [app].
      unfold no_low_ahead. change ((92 =? 92) && (117 =? 117)) with true. cbv iota.
      by rewrite decode_uXXXX_format_hex, (N.mod_small c 65536 Hlt).
    + assert (Hn : c - 65536 < 0x100000) by lia.
      destruct (surrogate_pair_joins (c - 65536) Hn) as (M1 & _ & Hh1 & _).
      cbv zeta in M1, Hh1. cbv zeta.
      change 55296 with 0xd800. change 1023 with 0x3ff.
      set (s1 := N.lor 0xd800 (N.land (N.shiftr (c - 65536) 10) 0x3ff)) in *.
      rewrite <- !app_assoc. change (py "\u") with [92; 117]. cbn [app].
      unfold no_low_ahead. change ((92 =? 92) && (117 =? 117)) with true. cbv iota.
      rewrite decode_uXXXX_format_hex, M1. by apply high_not_low.
Qed.

Lemma escape_cons c s :
  json_mod.escape (c :: s) = json_mod.escape_char c ++ json_mod.escape s.
Proof. reflexivity. Qed.

Lemma rejoin_not_high c s :
  json_mod.is_high_surrogate c = false -> rejoin (c :: s) = c :: rejoin s.
Proof.
  intros Hh. destruct s as [|c2 s2]; [reflexivity|].
  change (rejoin (c :: c2 :: s2))
    with (if json_mod.is_high_surrogate c && json_mod.is_low_surrogate c2
          then json_mod.join_surrogates c c2 :: rejoin s2
          else c :: rejoin (c2 :: s2)).
  by rewrite Hh.
Qed.

(** [scanstring] on the escaped text of any Python string. *)
Lemma scanstring_escape_str fuel s rest :
  is_str s -> (length s < fuel)%nat ->
  json_mod.scanstring fuel (json_mod.escape s ++ 34 :: rest) = Some (rejoin s, rest).
Proof.
  revert s. induction fuel as [|fuel IH]; intros s Hs Hfuel; [lia|].
  destruct s as [|c s1]; [reflexivity|].
  apply Forall_cons in Hs as [Hc Hs1]. cbn [length] in Hfuel.
  rewrite escape_cons, <- app_assoc.
  destruct (json_mod.is_high_surrogate c) eqn:Hh.
  - destruct s1 as [|c2 s2].
    + rewrite scanstring_lone_high by (exact Hh || apply no_low_ahead_quote).
      destruct fuel; [lia|]. reflexivity.
    + apply Forall_cons in Hs1 as [Hc2 Hs2]. cbn [length] in Hfuel.
      change (rejoin (c :: c2 :: s2))
        with (if json_mod.is_high_surrogate c && json_mod.is_low_surrogate c2
              then json_mod.join_surrogates c c2 :: rejoin s2
              else c :: rejoin (c2 :: s2)).
      rewrite Hh. cbn [andb].
      destruct (json_mod.is_low_surrogate c2) eqn:Hl.
      * rewrite escape_cons, <- app_assoc, scanstring_pair by done.
        rewrite IH by (done || lia). reflexivity.
      * rewrite scanstring_lone_high.
        2: exact Hh.
        2:{ rewrite escape_cons, <- app_assoc. by apply no_low_ahead_escape_char. }
        rewrite IH; [reflexivity| |cbn [length]; lia].
        by apply Forall_cons.
  - rewrite scanstring_escape_char_str by done.
    rewrite IH by (done || lia).
    by rewrite rejoin_not_high.
Qed.

Lemma rejoin_text s : is_text s -> rejoin s = s.
Proof.
  induction 1 as [|c s Hc Hs IH]; [reflexivity|].
  assert (Hh : json_mod.is_high_surrogate c = false).
  { unfold json_mod.is_high_surrogate. apply andb_false_iff.
    destruct Hc as [Hc|[Hc _]]; [left; apply N.leb_gt; lia | right; apply N.leb_gt; lia]. }
  by rewrite rejoin_not_high, IH.
Qed.

Example loads_dumps_surrogates :
  json_mod.loads (json_mod.dumps (JStr [0xD83D; 0xDE00; 0xD83D; 65; 0xDE00]))
  = Some (JStr [0x1F600; 0xD83D; 65; 0xDE00])
  /\ rejoin [0xD83D; 0xDE00; 0xD83D; 65; 0xDE00] = [0x1F600; 0xD83D; 65; 0xDE00].
Proof. split; vm_compute; reflexivity. Qed.

Lemma scan_once_string_str fuel s rest :
  is_str s ->
  json_mod.scan_once (S fuel) (34 :: json_mod.escape s ++ 34 :: rest)
  = Some (JStr (rejoin s), rest).
Proof.
  intros Hs. cbn [json_mod.scan_once]. change (34 =? 34) with true. cbv iota.
  rewrite scanstring_escape_str; [reflexivity | exact Hs |].
  rewrite length_app. cbn [length]. pose proof (escape_length s). lia.
Qed.

Lemma scan_once_object3_str n k1 k2 k3 t y g :
  is_text k1 -> is_text k2 -> is_text k3 -> is_str t -> is_str g ->
  json_mod.scan_once (S (S (S (S (S n)))))
    (json_mod.dumps (JObj [(k1, JStr t); (k2, JInt y); (k3, JStr g)]))
  = Some (JObj (json_mod.dict_of_pairs
                  [(k1, JStr (rejoin t)); (k2, JInt y); (k3, JStr (rejoin g))]), []).
Proof.
  intros H1 H2 H3 Ht Hg. rewrite dumps_object3.
  change (json_mod.scan_once (S ?f) (123 :: 34 :: ?r))
    with (json_mod.object_members f r []).
  erewrite object_members_next;
    [| exact H1 | apply skip_ws_nonws; reflexivity | apply scan_once_string_str; exact Ht].
  erewrite object_members_next;
    [| exact H2 | apply skip_ws_int_repr | apply scan_once_int; by left].
  erewrite object_members_last;
    [| exact H3 | apply skip_ws_nonws; reflexivity | apply scan_once_string_str; exact Hg].
  reflexivity.
Qed.

(** [json.loads (json.dumps (movie.dict ()))] for any record. *)
Lemma loads_dumps_movie_str movie :
  str_movie movie ->
  json_mod.loads (json_mod.dumps (Movie_dict movie)) = Some (read_back movie).
Proof.
  intros [Ht Hg]. unfold Movie_dict.
  erewrite loads_object by apply dumps_object3.
  destruct (length _) as [|[|[|[|n]]]] eqn:E;
    try (rewrite dumps_object3 in E; cbn [length] in E;
         rewrite length_app in E; cbn [length] in E; lia).
  rewrite scan_once_object3_str;
    [| apply is_ascii_is_text; ascii_literal ..| exact Ht | exact Hg].
  reflexivity.
Qed.

Lemma deserialize_dumps_movie_str movie :
  str_movie movie ->
  deserialize (json_mod.dumps (Movie_dict movie)) = Some (read_back movie).
Proof.
  intros Hm. unfold deserialize.
  rewrite (utf8_decode_ascii _ (dumps_movie_ascii movie)).
  cbn [mbind option_bind]. by apply loads_dumps_movie_str.
Qed.

(** ** Claim about the fields of stored and listed records *)

Lemma first_page_single w k b : final w = {[ k := b ]} -> first_page w = [k].
Proof.
  intros Hf. unfold first_page, S3.sorted_keys.
  rewrite Hf, map_to_list_singleton. reflexivity.
Qed.

(** One record submitted and approved from empty buckets: the listing
    returns the record and nothing else, whatever the identifier was. *)
Lemma single_record_listing movie random :
  str_movie movie ->
  fst (get_movies (snd (run [Submit movie; Approve (uuid.str (uuid.UUID_v4 (random 0%nat)))]
                            (initial random []))))
  = Returned [read_back movie].
Proof.
  intros Hm. rewrite !run_cons. cbn [snd run].
  change (handle (Submit movie)) with (submit_movie movie).
  destruct (submit_success movie (initial random [])) as (w1 & Hs & Hp1 & Hf1 & _ & _ & Hfs1);
    [reflexivity|].
  rewrite Hs. cbn [snd].
  change (uuid.str (uuid.UUID_v4 (random 0%nat)))
    with (issued (initial random []) (drawn (initial random []))).
  set (movie_id := issued (initial random []) (drawn (initial random []))) in *.
  change (handle (Approve movie_id)) with (approve_movie movie_id).
  assert (Hk : pending w1 !! object_key movie_id = Some (json_mod.dumps (Movie_dict movie))).
  { by rewrite Hp1, lookup_insert_eq. }
  destruct (approve_success movie_id _ w1 Hk) as (w2 & -> & Hf2 & _ & _ & _ & Hfs2).
  { apply calm_nil. by rewrite Hfs1. }
  cbn [snd].
  assert (Hf : final w2 = {[ object_key movie_id := json_mod.dumps (Movie_dict movie) ]}).
  { rewrite Hf2, Hf1, final_initial. apply insert_empty. }
  apply get_movies_ok.
  - apply calm_nil. by rewrite Hfs2, Hfs1.
  - rewrite (first_page_single _ _ _ Hf). constructor; [|constructor].
    exists (json_mod.dumps (Movie_dict movie)). split.
    + by rewrite Hf, lookup_singleton_eq.
    + by apply deserialize_dumps_movie_str.
Qed.

Lemma is_ascii_is_str s : is_ascii s -> is_str s.
Proof.
  intros H. eapply Forall_impl; [exact H|]. intros c Hc.
  apply N.lt_trans with 128; [exact Hc | reflexivity].
Qed.

Lemma read_back_fields movie :
  fields (read_back movie) = [py "title"; py "year"; py "genre"]
  /\ ~ In (py "movie_id") (fields (read_back movie)).
Proof.
  split; [reflexivity|]. cbn [fields read_back map fst].
  intros [H|[H|[H|[]]]]; vm_compute in H; discriminate H.
Qed.

(** C8: in every state reached from empty buckets by submit, list and
    approve requests (the submitted titles and genres being Python
    strings), whatever storage calls fail: the body of every stored object
    is the serialization of a JSON object with exactly the members title,
    year and genre of a submitted record, and it deserializes to a record
    with exactly these three fields; so every record [get_movies] returns
    has the fields title, year and genre and no [movie_id].  The listing
    does not depend on the identifier: for one record submitted and
    approved, it is the same list whatever identifier was drawn. *)
Theorem listed_records_carry_no_id rs random fs :
  Forall str_movie (submitted_movies rs) ->
  let w := snd (run rs (initial random fs)) in
  (forall k body, pending w !! k = Some body \/ final w !! k = Some body ->
     exists movie,
       In movie (submitted_movies rs)
       /\ body = json_mod.dumps (JObj [(py "title", JStr (title movie));
                                       (py "year", JInt (year movie));
                                       (py "genre", JStr (genre movie))])
       /\ deserialize body = Some (read_back movie))
  /\ (forall movies j,
        fst (get_movies w) = Returned movies -> In j movies ->
        (exists movie, In movie (submitted_movies rs) /\ j = read_back movie)
        /\ fields j = [py "title"; py "year"; py "genre"]
        /\ ~ In (py "movie_id") (fields j))
  /\ (forall movie random',
        str_movie movie ->
        fst (get_movies
               (snd (run [Submit movie; Approve (uuid.str (uuid.UUID_v4 (random' 0%nat)))]
                         (initial random' []))))
        = Returned [read_back movie]).
Proof.
  intros Hstr w.
  assert (Hb : bodies_from (submitted_movies rs) w).
  { apply (run_bodies rs [] _ (bodies_from_initial random fs)). }
  assert (Hbody : forall k body,
             pending w !! k = Some body \/ final w !! k = Some body ->
             exists movie, In movie (submitted_movies rs)
                           /\ body = json_mod.dumps (Movie_dict movie)
                           /\ deserialize body = Some (read_back movie)).
  { intros k body Hk. destruct (Hb k body Hk) as (movie & Hin & ->).
    exists movie. split; [exact Hin|]. split; [reflexivity|].
    apply deserialize_dumps_movie_str.
    rewrite Forall_forall in Hstr. apply Hstr. by apply list_elem_of_In. }
  split; [exact Hbody|]. split; [|intros movie random'; apply single_record_listing].
  intros movies j Hr Hin.
  destruct (get_movies w) as [r w'] eqn:Hg. cbn [fst] in Hr. subst r.
  apply get_movies_inv in Hg as [_ Hg]. specialize (Hg movies eq_refl).
  apply list_elem_of_In, list_elem_of_lookup in Hin as [i Hi].
  destruct (Forall2_lookup_r _ _ _ _ _ Hg Hi) as (k & _ & b & Hk & Hd).
  destruct (Hbody k b (or_intror Hk)) as (movie & Hm & _ & Hd').
  assert (j = read_back movie) as -> by congruence.
  split; [by exists movie|]. apply read_back_fields.
Qed.

Lemma listed_records_carry_no_id_witness :
  let rs := [Submit dune; Approve dune_id] in
  let w := snd (run rs (initial dune_random [])) in
  (forall k body, pending w !! k = Some body \/ final w !! k = Some body ->
     exists movie,
       In movie (submitted_movies rs)
       /\ body = json_mod.dumps (JObj [(py "title", JStr (title movie));
                                       (py "year", JInt (year movie));
                                       (py "genre", JStr (genre movie))])
       /\ deserialize body = Some (read_back movie))
  /\ (forall movies j,
        fst (get_movies w) = Returned movies -> In j movies ->
        (exists movie, In movie (submitted_movies rs) /\ j = read_back movie)
        /\ fields j = [py "title"; py "year"; py "genre"]
        /\ ~ In (py "movie_id") (fields j))
  /\ (forall movie random',
        str_movie movie ->
        fst (get_movies
               (snd (run [Submit movie; Approve (uuid.str (uuid.UUID_v4 (random' 0%nat)))]
                         (initial random' []))))
        = Returned [read_back movie]).
Proof.
  apply (listed_records_carry_no_id [Submit dune; Approve dune_id] dune_random []).
  repeat constructor; apply is_ascii_is_str; ascii_literal.
Defined.

(** The scenario of the specification: the listing after [dune] was
    submitted and approved holds the record as submitted. *)
Example dune_listed :
  fst (get_movies (snd (run [Submit dune; Approve dune_id] (initial dune_random []))))
  = Returned [JObj [(py "title", JStr (py "Dune")); (py "year", JInt 1984);
                    (py "genre", JStr (py "SciFi"))]].
Proof. vm_compute. reflexivity. Qed.
